(** * SubDomain-Enum: the reconnaissance pipeline of [subdomain_enum.py]

    A shallow embedding of [ReconPipeline] and of the Python text
    operations it relies on, followed by the properties of the pipeline.

    Python [str] values are sequences of Unicode code points; they are
    modelled as lists of code points.  Files hold decoded text and are
    read and written in text mode, as every [open] of the program does:
    reading translates the line endings [\r\n] and [\r] to [\n], writing
    leaves [\n] as it is (the convention of the systems the tools run
    on).

    The machine a run acts on is a map from paths to file contents,
    together with whatever the child processes depend on.  A computation
    of the program takes the machine to the way it ends, the machine it
    leaves and the effects it had, in their order.  The child processes,
    [shutil.which], [os.path.expanduser] and the clock are parameters of
    the development: the properties hold whatever they do.  Directories
    are not part of the map.  Of the errors of the operating system two
    are followed: the failure to start a child process, which the program
    handles, and the failure to make the output directory, which it does
    not: the exception of [os.makedirs] ends the process with a
    traceback and status 1. *)

From Stdlib Require Import String Ascii NArith ZArith DecimalString.
From stdpp Require Import base decidable option list sorting gmap.

Open Scope N_scope.
Open Scope list_scope.

(** ** Text *)

Abbreviation char := N (only parsing).
Abbreviation str := (list N) (only parsing).

(** A string literal of the source, as code points. *)
Definition lit (s : string) : str :=
  map N_of_ascii (list_ascii_of_string s).

Definition LF : char := 10.
Definition CR : char := 13.
Definition SPACE : char := 32.

(** [str.isspace] for one character: the code points CPython's
    [Py_UNICODE_ISSPACE] accepts, which are those [str.strip()] removes. *)
Definition is_space (c : char) : bool :=
  ((9 <=? c) && (c <=? 13)) || ((28 <=? c) && (c <=? 32))
  || (c =? 133) || (c =? 160) || (c =? 5760)
  || ((8192 <=? c) && (c <=? 8202))
  || (c =? 8232) || (c =? 8233) || (c =? 8239) || (c =? 8287) || (c =? 12288).

Fixpoint lstrip (s : str) : str :=
  match s with
  | c :: t => if is_space c then lstrip t else s
  | [] => []
  end.

Definition rstrip (s : str) : str := reverse (lstrip (reverse s)).

(** [s.strip()] *)
Definition strip (s : str) : str := rstrip (lstrip s).

(** The leading whitespace-delimited token of a line, in the words of the
    specification: white space at the start is skipped and the token runs
    up to the next white space character, as [line.split()[0]] would give
    on a line that is not blank. *)
Fixpoint until_space (s : str) : str :=
  match s with
  | c :: t => if is_space c then [] else c :: until_space t
  | [] => []
  end.

Definition leading_token (line : str) : str := until_space (lstrip line).

(** [s.startswith(p)] *)
Fixpoint startswith (s p : str) {struct p} : bool :=
  match p, s with
  | [], _ => true
  | a :: p', b :: s' => (a =? b) && startswith s' p'
  | _ :: _, [] => false
  end.

(** [p in s] for strings: [p] occurs in [s] as a contiguous substring. *)
Fixpoint contains (s p : str) : bool :=
  startswith s p ||
  match s with
  | [] => false
  | _ :: t => contains t p
  end.

(** [s.split(sep)] for a one-character separator: every occurrence of
    the separator cuts, so the result is never empty. *)
Fixpoint split_on (sep : char) (s : str) : list str :=
  match s with
  | [] => [[]]
  | c :: t =>
      if c =? sep then [] :: split_on sep t
      else match split_on sep t with
           | p :: ps => (c :: p) :: ps
           | [] => [[c]]
           end
  end.

(** [sep.join(parts)] *)
Fixpoint join (sep : str) (parts : list str) : str :=
  match parts with
  | [] => []
  | [p] => p
  | p :: ps => p ++ sep ++ join sep ps
  end.

(** Truthiness of a string, and of an optional string ([None] or [str]). *)
Definition truthy (s : str) : bool :=
  match s with [] => false | _ :: _ => true end.

Definition truthy_opt (o : option str) : bool :=
  match o with Some s => truthy s | None => false end.

(** Comparison of two strings as [sorted] performs it: lexicographic on
    code points, a proper prefix coming first. *)
Fixpoint str_le (a b : str) : bool :=
  match a, b with
  | [], _ => true
  | _ :: _, [] => false
  | x :: a', y :: b' => (x <? y) || ((x =? y) && str_le a' b')
  end.

Definition str_order (a b : str) : Prop := str_le a b = true.

#[global] Instance str_order_dec (a b : str) : Decision (str_order a b) :=
  bool_eq_dec (str_le a b) true.

(** Strictly ascending order. *)
Definition str_lt (a b : str) : Prop := str_order a b ∧ a ≠ b.

(** ** Text files

    A file opened in text mode with the default [newline=None] is read
    with universal newlines: a carriage return, alone or followed by a
    line feed, arrives as one line feed.  On POSIX nothing is translated
    when writing. *)
Fixpoint universal_newlines (s : str) : str :=
  match s with
  | [] => []
  | c :: t =>
      if c =? CR then
        match t with
        | d :: t' => if d =? LF then LF :: universal_newlines t'
                     else LF :: universal_newlines t
        | [] => [LF]
        end
      else c :: universal_newlines t
  end.

(** The lines of a text, each with its terminating line feed when it has
    one: what [f.readlines()] and [for line in f] yield. *)
Fixpoint split_lines (s : str) : list str :=
  match s with
  | [] => []
  | c :: t =>
      if c =? LF then [LF] :: split_lines t
      else match split_lines t with
           | l :: ls => (c :: l) :: ls
           | [] => [[c]]
           end
  end.

Definition readlines (content : str) : list str :=
  split_lines (universal_newlines content).

(** A line without its terminating line feed. *)
Definition chomp (line : str) : str :=
  match reverse line with
  | c :: t => if c =? LF then reverse t else line
  | [] => []
  end.

(** [len([line for line in f if line.strip()])] *)
Definition nonblank_count (lines : list str) : nat :=
  length (filter (λ line, truthy (strip line)) lines).

(** The lines of an artifact, as its readers see them. *)
Definition artifact_lines (content : str) : list str :=
  chomp <$> readlines content.

(** The text of a file written one item per line, as the loops of the
    form [for x in xs: f.write(x + "\n")] leave it. *)
Definition write_lines (xs : list str) : str :=
  concat ((λ x, x ++ [LF]) <$> xs).

(** ** Library functions the program calls *)

(** [os.path.join(a, b)] on POSIX. *)
Definition path_join (a b : str) : str :=
  if startswith b (lit "/") then b
  else if negb (truthy a) || startswith (reverse a) (lit "/") then a ++ b
  else a ++ lit "/" ++ b.

(** [str(n)] for a non-negative integer. *)
Definition repr_nat (n : nat) : str :=
  lit (NilZero.string_of_uint (Nat.to_uint n)).

Definition hex_digit (d : N) : char :=
  if d <? 10 then 48 + d else 87 + d.

(** ['\\u{0:04x}'.format(n)] *)
Definition u_escape (n : N) : str :=
  lit "\u" ++ [hex_digit (n / 4096 mod 16); hex_digit (n / 256 mod 16);
               hex_digit (n / 16 mod 16); hex_digit (n mod 16)].

(** One character of a JSON string under [ensure_ascii=True]: the
    printable ASCII characters other than the quote and the backslash are
    kept, the rest is escaped. *)
Definition json_escape_char (c : char) : str :=
  if c =? 92 then lit "\\"
  else if c =? 34 then [92; 34]
  else if (32 <=? c) && (c <=? 126) then [c]
  else if c =? 8 then lit "\b"
  else if c =? 12 then lit "\f"
  else if c =? 10 then lit "\n"
  else if c =? 13 then lit "\r"
  else if c =? 9 then lit "\t"
  else if c <? 65536 then u_escape c
  else
    let n := c - 65536 in
    u_escape (N.lor 55296 (N.land (N.shiftr n 10) 1023))
    ++ u_escape (N.lor 56320 (N.land n 1023)).

Definition json_string (s : str) : str :=
  [34] ++ concat (map json_escape_char s) ++ [34].

(** [json.dumps(xs, indent=2)] for a list of strings. *)
Definition json_dumps_list (xs : list str) : str :=
  match xs with
  | [] => lit "[]"
  | _ :: _ =>
      lit "[" ++ [LF] ++ lit "  "
      ++ join (lit "," ++ [LF] ++ lit "  ") (map json_string xs)
      ++ [LF] ++ lit "]"
  end.

(** ** The pipeline object, its console and the machine it runs on *)

Record ReconPipeline := {
  domain : option str;
  domain_list : option str;
  output_dir : str;
  proxy : option str;
  dry_run : bool;
  llm_analysis : bool
}.

(** [a or b] on optional strings. *)
Definition py_or (a b : option str) : option str :=
  if truthy_opt a then a else b.

(** The five stages, in the order [execute] runs them. *)
Inductive Stage := Subfinder | DNSx | Naabu | HTTPx | Katana.

(** The [step_name] each stage passes to [run_command]. *)
Definition step_name (s : Stage) : str :=
  match s with
  | Subfinder => lit "Subfinder"
  | DNSx => lit "DNSx"
  | Naabu => lit "Naabu"
  | HTTPx => lit "HTTPx"
  | Katana => lit "Katana"
  end.

Definition stage_index (s : Stage) : nat :=
  match s with
  | Subfinder => 1 | DNSx => 2 | Naabu => 3 | HTTPx => 4 | Katana => 5
  end%nat.

Definition REQUIRED_TOOLS : list str :=
  [lit "subfinder"; lit "dnsx"; lit "naabu"; lit "httpx"; lit "katana"].

Definition DEFAULT_PORTS : str := lit "80,443,8080,8443,8000,8008,8888".

(** What the program shows on the console, by content rather than by
    markup. *)
Inductive Message :=
| MsgCheckingTools
| MsgAllToolsFound
| MsgMissingTools (missing : list str)
| MsgStart (target : option str) (output : str) (prx : option str)
| MsgDryRun (step : Stage) (cmd_str : str)
| MsgRunning (step : Stage)
| MsgVersionConflict
| MsgError (step : Stage) (stderr : str)
| MsgException (step : Stage)
| MsgCompleted (step : Stage) (line_count : nat)
| MsgGeneratingBurp
| MsgSummarySaved (path : str)
| MsgGeneratingPrompt
| MsgPromptGenerated (path : str)
| MsgDone (prx : option str) (burp : option (str * nat)).

Inductive FileMode := ModeW | ModeA | ModeAPlus.

(** The effects of the program on its surroundings, in program order. *)
Inductive Event :=
| EvMakedirs (path : str)
| EvProbe (cmd : list str)
| EvRun (step : Stage) (cmd : list str)
| EvOpen (path : str) (mode : FileMode) (data : str)
| EvPrint (m : Message).

(** How a child process ends for its parent: the call raises (the
    executable cannot be started), or the process exits. *)
Inductive ProcResult :=
| Raised
| Exited (returncode : Z) (stdout stderr : str).

(** How a computation of the program ends: with a value, or by
    [sys.exit]. *)
Inductive Res (A : Type) :=
| Ret (a : A)
| Exit (code : Z).
Arguments Ret {A} a.
Arguments Exit {A} code.

(** Which [return] of [execute] was taken: the one after a failed stage,
    or the end of the method. *)
Inductive Outcome :=
| HaltedAt (s : Stage)
| Finished.

(** The machine: the files (path to decoded content) and whatever else
    the tools and the operating system depend on (network, clock,
    environment variables), which the program never inspects itself. *)
Record World (Env : Type) := mkWorld {
  files : gmap str str;
  env : Env
}.
Arguments mkWorld {Env} files env.
Arguments files {Env} w.
Arguments env {Env} w.

(** A computation of the program: from a machine state to how it ends,
    the state it leaves and the effects it had, in order. *)
Definition M (Env A : Type) : Type :=
  World Env → Res A * World Env * list Event.

Definition ret {Env A} (a : A) : M Env A :=
  λ w, (Ret a, w, []).

Definition bind {Env A B} (m : M Env A) (k : A → M Env B) : M Env B :=
  λ w,
    match m w with
    | (Ret a, w1, e1) =>
        match k a w1 with
        | (r, w2, e2) => (r, w2, e1 ++ e2)
        end
    | (Exit c, w1, e1) => (Exit c, w1, e1)
    end.

(** The three parts of a run. *)
Definition result_of {Env A} (x : Res A * World Env * list Event) : Res A :=
  x.1.1.
Definition world_of {Env A} (x : Res A * World Env * list Event) : World Env :=
  x.1.2.
Definition events_of {Env A} (x : Res A * World Env * list Event)
  : list Event := x.2.

Notation "'let*' x := m 'in' k" := (bind m (λ x, k))
  (at level 10, x name, m at level 100, k at level 200, only parsing).
Notation "m ;; k" := (bind m (λ _, k))
  (at level 100, k at level 200, right associativity, only parsing).

Definition emit {Env} (e : Event) : M Env unit :=
  λ w, (Ret tt, w, [e]).

(** [sys.exit(code)] *)
Definition sys_exit {Env A} (code : Z) : M Env A :=
  λ w, (Exit code, w, []).

(** [console.print] and [self.log] *)
Definition console_print {Env} (m : Message) : M Env unit :=
  emit (EvPrint m).

(** [os.path.exists(path)] *)
Definition path_exists {Env} (path : str) : M Env bool :=
  λ w, (Ret (bool_decide (is_Some (files w !! path))), w, []).

(** [os.path.exists(path)] followed, when it holds, by [open(path, 'r')]
    and the reading of all lines: [None] when the file does not exist. *)
Definition read_lines {Env} (path : str) : M Env (option (list str)) :=
  λ w, (Ret (readlines <$> files w !! path), w, []).

(** [open(path, mode)] for writing, the writing of [data] and the close:
    ['w'] creates or empties the file first, ['a'] and ['a+'] create it
    when missing and write at its end. *)
Definition write_file {Env} (path : str) (mode : FileMode) (data : str)
    (w : World Env) : World Env :=
  let old := match mode with
             | ModeW => []
             | ModeA | ModeAPlus => default [] (files w !! path)
             end in
  mkWorld (<[path := old ++ data]> (files w)) (env w).

Definition open_write {Env} (path : str) (mode : FileMode) (data : str)
  : M Env unit :=
  λ w, (Ret tt, write_file path mode data w, [EvOpen path mode data]).

(** [f.seek(0); f.read()] on a file opened with ['a+']. *)
Definition read_all {Env} (path : str) : M Env str :=
  λ w, (Ret (universal_newlines (default [] (files w !! path))), w, []).

(** [sorted] on a set of strings. *)
Definition sorted (s : gset str) : list str :=
  merge_sort str_order (elements s).

(** [xs[0]] on the result of a [split], which is never empty. *)
Definition item0 (xs : list str) : str :=
  match xs with x :: _ => x | [] => [] end.

(** The run summary, as the dictionary [generate_summary] builds. *)
Record Summary := {
  target : option str;
  timestamp : str;
  stats : list (str * nat)
}.

Definition json_opt_string (o : option str) : str :=
  match o with Some s => json_string s | None => lit "null" end.

(** [json.dump(summary, f, indent=4)] *)
Definition json_dump_summary (s : Summary) : str :=
  let nl1 := [LF] ++ lit "    " in
  let nl2 := [LF] ++ lit "        " in
  lit "{" ++ nl1 ++ json_string (lit "target") ++ lit ": "
  ++ json_opt_string (target s)
  ++ lit "," ++ nl1 ++ json_string (lit "timestamp") ++ lit ": "
  ++ json_string (timestamp s)
  ++ lit "," ++ nl1 ++ json_string (lit "stats") ++ lit ": "
  ++ match stats s with
     | [] => lit "{}"
     | _ :: _ =>
         lit "{" ++ nl2
         ++ join (lit "," ++ nl2)
              (map (λ kv, json_string kv.1 ++ lit ": " ++ repr_nat kv.2)
                 (stats s))
         ++ nl1 ++ lit "}"
     end
  ++ [LF] ++ lit "}".

(** ** [ReconPipeline] *)

(** The surroundings the program calls into. *)
Class Host (Env : Type) := {
  (** A child process, run to completion: [subprocess.run] and
      [subprocess.check_output].  It may change the machine. *)
  spawn : list str → World Env → ProcResult * World Env;
  (** [shutil.which] *)
  which : str → World Env → option str;
  (** [os.path.expanduser] *)
  expanduser : str → str;
  (** [datetime.now().isoformat()] *)
  now_iso : World Env → str;
  (** Whether the system lets [os.makedirs] make a directory that is not
      there yet, with the parents it lacks. *)
  makedirs_ok : str → World Env → bool
}.

Section Pipeline.

Context {Env : Type} {host : Host Env}.

Abbreviation M := (M Env).

(** A child process started by the tool locator. *)
Definition probe (cmd : list str) : M ProcResult :=
  λ w, (Ret (spawn cmd w).1, (spawn cmd w).2, [EvProbe cmd]).

(** [subprocess.run(command, capture_output=True, text=True,
    check=False)] in [run_command]. *)
Definition subprocess_run (step : Stage) (cmd : list str) : M ProcResult :=
  λ w, (Ret (spawn cmd w).1, (spawn cmd w).2, [EvRun step cmd]).

Definition shutil_which (tool : str) : M (option str) :=
  λ w, (Ret (which tool w), w, []).

Definition datetime_now : M str :=
  λ w, (Ret (now_iso w), w, []).

(** [os.makedirs(path, exist_ok=True)]: [true] when the directory is
    there afterwards, [false] when the call raises.  It raises
    [FileNotFoundError] for the empty path, [FileExistsError] for a path
    that is a file, and the error of the system when the system refuses.
    Directories are not files: the map of the files is left as it is. *)
Definition makedirs (path : str) : M bool :=
  λ w,
    if truthy path && negb (bool_decide (is_Some (files w !! path)))
       && makedirs_ok path w
    then (Ret true, w, [EvMakedirs path])
    else (Ret false, w, []).

(** [ReconPipeline.__init__]: [false] when [os.makedirs] raises. *)
Definition init (self : ReconPipeline) : M bool :=
  if negb (dry_run self) then makedirs (output_dir self) else ret true.

(** The loop of [get_binary_path] over the candidate paths: the first
    one that exists, and for httpx also answers [-version] without an
    error. *)
Fixpoint first_usable (tool_name : str) (possible_paths : list str)
  : M (option str) :=
  match possible_paths with
  | [] => ret None
  | p :: rest =>
      let* e := path_exists p in
      if e then
        if bool_decide (tool_name = lit "httpx") then
          let* r := probe [p; lit "-version"] in
          match r with
          | Exited 0%Z _ _ => ret (Some p)
          | _ => first_usable tool_name rest
          end
        else ret (Some p)
      else first_usable tool_name rest
  end.

Definition get_binary_path (tool_name : str) : M str :=
  let possible_paths :=
    [expanduser (lit "~/go/bin/" ++ tool_name);
     lit "/usr/local/bin/" ++ tool_name;
     lit "/usr/bin/" ++ tool_name] in
  let* r := probe [lit "go"; lit "env"; lit "GOBIN"] in
  let possible_paths :=
    match r with
    | Exited 0%Z stdout _ =>
        let gobin := strip stdout in
        if truthy gobin then path_join gobin tool_name :: possible_paths
        else possible_paths
    | _ => possible_paths
    end in
  let* found := first_usable tool_name possible_paths in
  match found with
  | Some p => ret p
  | None =>
      let* w := shutil_which tool_name in
      ret (if truthy_opt w then default [] w else tool_name)
  end.

(** The loop of [check_tools]: the tools that are missing. *)
Fixpoint missing_tools (tools : list str) : M (list str) :=
  match tools with
  | [] => ret []
  | tool :: rest =>
      let* path := get_binary_path tool in
      let* w := shutil_which tool in
      let* e := path_exists path in
      let miss :=
        if bool_decide (path = tool) && negb (truthy_opt w) then true
        else if negb (bool_decide (path = tool)) && negb e then true
        else false in
      let* more := missing_tools rest in
      ret (if miss then tool :: more else more)
  end.

Definition check_tools : M unit :=
  console_print MsgCheckingTools ;;
  let* missing := missing_tools REQUIRED_TOOLS in
  match missing with
  | _ :: _ => console_print (MsgMissingTools missing) ;; sys_exit 1%Z
  | [] => console_print MsgAllToolsFound
  end.

Definition run_command (self : ReconPipeline) (command : list str)
  (step : Stage) (output_file : option str) (append_output : bool)
  : M bool :=
  let cmd_str := join (lit " ") command in
  if dry_run self then
    console_print (MsgDryRun step cmd_str) ;; ret true
  else
    console_print (MsgRunning step) ;;
    let* result := subprocess_run step command in
    match result with
    | Raised => console_print (MsgException step) ;; ret false
    | Exited returncode stdout stderr =>
        if negb (returncode =? 0)%Z then
          match command with
          | command0 :: _ =>
              (if contains command0 (lit "httpx")
                  && contains stderr (lit "No such option")
               then console_print MsgVersionConflict
               else console_print (MsgError step stderr)) ;;
              ret false
          | [] => console_print (MsgException step) ;; ret false
          end
        else
          (if truthy_opt output_file then
             let path := default [] output_file in
             let mode := if append_output then ModeA else ModeW in
             let content := strip stdout in
             open_write path mode
               (if truthy content then content ++ [LF] else []) ;;
             let* e := path_exists path in
             if negb e then open_write path ModeW [] else ret tt
           else ret tt) ;;
          let* line_count :=
            (if truthy_opt output_file then
               let* lines := read_lines (default [] output_file) in
               match lines with
               | Some ls => ret (nonblank_count ls)
               | None => ret 0%nat
               end
             else ret 0%nat) in
          console_print (MsgCompleted step line_count) ;;
          ret true
    end.

(** The candidate URL of one line of [httpx.txt]. *)
Definition clean_httpx_line (line : str) : str :=
  strip (item0 (split_on SPACE line)).

Definition add_httpx_line (unique_urls : gset str) (line : str) : gset str :=
  let clean_url := clean_httpx_line line in
  if startswith clean_url (lit "http") then unique_urls ∪ {[clean_url]}
  else unique_urls.

Definition add_katana_line (unique_urls : gset str) (line : str) : gset str :=
  let url := strip line in
  if startswith url (lit "http") then unique_urls ∪ {[url]}
  else unique_urls.

(** The set [create_burp_file] collects from the lines of the two
    files, a missing file contributing nothing. *)
Definition collect_urls (httpx katana : option (list str)) : gset str :=
  let unique_urls := foldl add_httpx_line ∅ (default [] httpx) in
  foldl add_katana_line unique_urls (default [] katana).

Definition httpx_file (self : ReconPipeline) : str :=
  path_join (output_dir self) (lit "httpx.txt").
Definition katana_file (self : ReconPipeline) : str :=
  path_join (output_dir self) (lit "katana.txt").
Definition burp_file (self : ReconPipeline) : str :=
  path_join (output_dir self) (lit "urls_for_burp.txt").

Definition create_burp_file (self : ReconPipeline)
  : M (option (str * nat)) :=
  if dry_run self then ret None
  else
    console_print MsgGeneratingBurp ;;
    let* httpx := read_lines (httpx_file self) in
    let* katana := read_lines (katana_file self) in
    let unique_urls := collect_urls httpx katana in
    open_write (burp_file self) ModeW
      (concat (map (λ url, url ++ [LF]) (sorted unique_urls))) ;;
    ret (Some (burp_file self, size unique_urls)).

(** The six artifacts [generate_summary] counts: key and file name. *)
Definition summary_files : list (str * str) :=
  [(lit "subdomains", lit "subfinder.txt");
   (lit "resolved", lit "dnsx.txt");
   (lit "ports", lit "naabu.txt");
   (lit "http_services", lit "httpx.txt");
   (lit "endpoints", lit "katana.txt");
   (lit "burp_import", lit "urls_for_burp.txt")].

(** The loop of [generate_summary] filling [summary["stats"]]. *)
Fixpoint count_files (self : ReconPipeline) (entries : list (str * str))
  : M (list (str * nat)) :=
  match entries with
  | [] => ret []
  | (key, filename) :: rest =>
      let* lines := read_lines (path_join (output_dir self) filename) in
      let n := match lines with
               | Some ls => length ls
               | None => 0%nat
               end in
      let* more := count_files self rest in
      ret ((key, n) :: more)
  end.

Definition summary_file (self : ReconPipeline) : str :=
  path_join (output_dir self) (lit "summary.json").

Definition generate_summary (self : ReconPipeline) : M unit :=
  if dry_run self then ret tt
  else
    let* ts := datetime_now in
    let* counts := count_files self summary_files in
    let summary := {| target := py_or (domain self) (domain_list self);
                      timestamp := ts;
                      stats := counts |} in
    open_write (summary_file self) ModeW (json_dump_summary summary) ;;
    console_print (MsgSummarySaved (summary_file self)).

Definition prompt_file (self : ReconPipeline) : str :=
  path_join (output_dir self) (lit "llm_prompt.txt").

(** The list [urls] of [run_llm_advisory]. *)
Definition prompt_urls (lines : list str) : list str :=
  strip <$> filter (λ line, truthy (strip line)) lines.

Definition prompt_content (entries : list str) : str :=
  lit "Analyze these URLs and find high-risk endpoints:" ++ [LF]
  ++ json_dumps_list entries.

Definition run_llm_advisory (self : ReconPipeline) : M unit :=
  if dry_run self then ret tt
  else
    let* lines := read_lines (katana_file self) in
    match lines with
    | None => ret tt
    | Some ls =>
        console_print MsgGeneratingPrompt ;;
        let urls := prompt_urls ls in
        match urls with
        | [] => ret tt
        | _ :: _ =>
            open_write (prompt_file self) ModeW
              (prompt_content (take 200 urls)) ;;
            console_print (MsgPromptGenerated (prompt_file self))
        end
    end.

Definition subfinder_out (self : ReconPipeline) : str :=
  path_join (output_dir self) (lit "subfinder.txt").
Definition dnsx_out (self : ReconPipeline) : str :=
  path_join (output_dir self) (lit "dnsx.txt").
Definition naabu_out (self : ReconPipeline) : str :=
  path_join (output_dir self) (lit "naabu.txt").
Definition katana_input_clean (self : ReconPipeline) : str :=
  path_join (output_dir self) (lit "katana_input_clean.txt").

(** [execute], after the Subfinder stage: the root domain is written to
    [subfinder.txt] unless the text read from the file contains it. *)
Definition ensure_root_domain (self : ReconPipeline) : M unit :=
  let* e := path_exists (subfinder_out self) in
  if truthy_opt (domain self) && negb (dry_run self) && e then
    let d := default [] (domain self) in
    let* content := read_all (subfinder_out self) in
    open_write (subfinder_out self) ModeAPlus
      (if negb (contains content d) then [LF] ++ d ++ [LF] else [])
  else ret tt.

(** [execute], before the Katana stage: the input file of Katana. *)
Definition prepare_katana_input (self : ReconPipeline) : M str :=
  if dry_run self then ret (httpx_file self)
  else
    let* lines := read_lines (httpx_file self) in
    match lines with
    | Some ls =>
        let cleaned :=
          filter (λ u, truthy u)
            ((λ line, strip (item0 (split_on SPACE line))) <$> ls) in
        open_write (katana_input_clean self) ModeW
          (write_lines cleaned) ;;
        ret (katana_input_clean self)
    | None => ret (httpx_file self)
    end.

Definition proxy_args (self : ReconPipeline) (flag : str) : list str :=
  if truthy_opt (proxy self) then [flag; default [] (proxy self)] else [].

(** The argument vectors of the five stages, for the paths of their
    tools. *)
Definition cmd_sub (self : ReconPipeline) (bin_subfinder : str) : list str :=
  [bin_subfinder; lit "-all"; lit "-o"; subfinder_out self]
  ++ (if truthy_opt (domain self)
      then [lit "-d"; default [] (domain self)]
      else if truthy_opt (domain_list self)
      then [lit "-dL"; default [] (domain_list self)]
      else []).

Definition cmd_dnsx (self : ReconPipeline) (bin_dnsx : str) : list str :=
  [bin_dnsx; lit "-l"; subfinder_out self; lit "-o"; dnsx_out self].

Definition cmd_naabu (self : ReconPipeline) (bin_naabu : str) : list str :=
  [bin_naabu; lit "-l"; dnsx_out self; lit "-p"; DEFAULT_PORTS;
   lit "-o"; naabu_out self].

Definition cmd_httpx (self : ReconPipeline) (bin_httpx : str) : list str :=
  [bin_httpx; lit "-l"; naabu_out self; lit "-title"; lit "-tech-detect";
   lit "-status-code"; lit "-o"; httpx_file self]
  ++ proxy_args self (lit "-http-proxy").

Definition cmd_katana (self : ReconPipeline) (bin_katana katana_input : str)
  : list str :=
  [bin_katana; lit "-list"; katana_input; lit "-o"; katana_file self;
   lit "-jc"; lit "-kf"; lit "all"; lit "-c"; lit "10"; lit "-d"; lit "2"]
  ++ proxy_args self (lit "-proxy").

(** [execute], steps 6 and 7: the Burp import file, the summary, the
    optional prompt and the closing panel. *)
Definition post_processing (self : ReconPipeline) : M Outcome :=
  let* burp := (if negb (dry_run self) then create_burp_file self
                else ret None) in
  generate_summary self ;;
  (if llm_analysis self then run_llm_advisory self else ret tt) ;;
  console_print
    (MsgDone (if truthy_opt (proxy self) then proxy self else None)
       (match burp with
        | Some (path, n) => if truthy path then burp else None
        | None => None
        end)) ;;
  ret Finished.

(** [execute], steps 1 to 5 and what follows them, for the paths of the
    five tools: each stage in turn, the method returning at the first one
    that fails. *)
Definition run_stages (self : ReconPipeline)
    (bin_subfinder bin_dnsx bin_naabu bin_httpx bin_katana : str)
  : M Outcome :=
  let* ok := run_command self (cmd_sub self bin_subfinder) Subfinder
               (Some (subfinder_out self)) false in
  if negb ok then ret (HaltedAt Subfinder) else
  ensure_root_domain self ;;
  let* ok := run_command self (cmd_dnsx self bin_dnsx) DNSx
               (Some (dnsx_out self)) false in
  if negb ok then ret (HaltedAt DNSx) else
  let* ok := run_command self (cmd_naabu self bin_naabu) Naabu
               (Some (naabu_out self)) false in
  if negb ok then ret (HaltedAt Naabu) else
  let* ok := run_command self (cmd_httpx self bin_httpx) HTTPx
               (Some (httpx_file self)) false in
  if negb ok then ret (HaltedAt HTTPx) else
  let* katana_input := prepare_katana_input self in
  let* ok := run_command self (cmd_katana self bin_katana katana_input) Katana
               (Some (katana_file self)) false in
  if negb ok then ret (HaltedAt Katana) else
  post_processing self.

Definition execute (self : ReconPipeline) : M Outcome :=
  check_tools ;;
  console_print (MsgStart (py_or (domain self) (domain_list self))
                   (output_dir self) (proxy self)) ;;
  let* bin_subfinder := get_binary_path (lit "subfinder") in
  let* bin_dnsx := get_binary_path (lit "dnsx") in
  let* bin_naabu := get_binary_path (lit "naabu") in
  let* bin_httpx := get_binary_path (lit "httpx") in
  let* bin_katana := get_binary_path (lit "katana") in
  run_stages self bin_subfinder bin_dnsx bin_naabu bin_httpx bin_katana.

(** [main], from the parsed arguments on: [None] when the exception of
    [os.makedirs] leaves [__init__], which nothing catches, and how
    [execute] returned otherwise. *)
Definition main (args : ReconPipeline) : M (option Outcome) :=
  let* made := init args in
  if made then
    let* outcome := execute args in
    ret (Some outcome)
  else ret None.

(** The exit status of the process for how [main] ends: that of
    [sys.exit], 1 after an exception that nothing caught, and 0 when
    [main] returns. *)
Definition process_status (r : Res (option Outcome)) : Z :=
  match r with
  | Ret (Some _) => 0%Z
  | Ret None => 1%Z
  | Exit code => code
  end.

End Pipeline.

(** ** The vocabulary of the properties *)

Section Vocabulary.

Context {Env : Type} {host : Host Env}.

Abbreviation M := (M Env).

Implicit Types (self : ReconPipeline) (w : World Env) (ev : Event)
  (evs : list Event) (step s : Stage) (m : Message).

(** A line feed can only be the last character of a line. *)
Definition lf_only_last (line : str) : Prop :=
  ∀ x y, line = x ++ LF :: y → y = [].

(** The candidates kept from a file of [httpx.txt] lines, and from a file
    of [katana.txt] lines; a missing file keeps nothing. *)
Definition kept_from_httpx (file : option str) (u : str) : Prop :=
  ∃ content line, file = Some content ∧ line ∈ readlines content
    ∧ u = clean_httpx_line line ∧ startswith u (lit "http") = true.

Definition kept_from_katana (file : option str) (u : str) : Prop :=
  ∃ content line, file = Some content ∧ line ∈ readlines content
    ∧ u = strip line ∧ startswith u (lit "http") = true.

(** The set collected from the two files as they are on the machine. *)
Definition unique_urls_of self w : gset str :=
  collect_urls (readlines <$> files w !! httpx_file self)
               (readlines <$> files w !! katana_file self).

(** What [run_command] writes for the output [stdout] of a tool. *)
Definition stage_text (stdout : str) : str :=
  if truthy (strip stdout) then strip stdout ++ [LF] else [].

(** The message of a stage that fails. *)
Definition failure_message (step : Stage) (m : Message) : Prop :=
  m = MsgException step ∨ m = MsgVersionConflict
  ∨ ∃ stderr, m = MsgError step stderr.

(** The number of lines of a file of the output directory, blank ones
    included; zero when the file does not exist. *)
Definition raw_line_count self w (filename : str) : nat :=
  match files w !! path_join (output_dir self) filename with
  | Some content => length (readlines content)
  | None => 0
  end.

(** The record [generate_summary] builds on a machine. *)
Definition summary_of self w : Summary :=
  {| target := py_or (domain self) (domain_list self);
     timestamp := now_iso w;
     stats := (λ kv, (kv.1, raw_line_count self w kv.2)) <$> summary_files |}.

(** What one effect does to the machine. *)
Definition apply_event w ev : World Env :=
  match ev with
  | EvProbe cmd | EvRun _ cmd => (spawn cmd w).2
  | EvOpen path mode data => write_file path mode data w
  | EvMakedirs _ | EvPrint _ => w
  end.

(** The machine after a sequence of effects. *)
Definition replay w evs : World Env := foldl apply_event w evs.

(** A property of a run: of its result, of the machine it leaves and of
    its effects. *)
Definition wp {A} (m : M A) w
    (Q : Res A → World Env → list Event → Prop) : Prop :=
  Q (result_of (m w)) (world_of (m w)) (events_of (m w)).

(** A computation that changes the machine only through its effects, and
    has only effects of one kind. *)
Definition behaves {A} (P : Event → Prop) (m : M A) : Prop :=
  ∀ w, wp m w (λ r w' evs, w' = replay w evs ∧ Forall P evs).

(** A computation that never leaves the program. *)
Definition returns {A} (m : M A) : Prop :=
  ∀ w, ∃ a, result_of (m w) = Ret a.

(** The child processes of the tool locator. *)
Definition locator_probe ev : Prop :=
  ev = EvProbe [lit "go"; lit "env"; lit "GOBIN"]
  ∨ ∃ p, ev = EvProbe [p; lit "-version"].

(** The effects of [check_tools]. *)
Definition check_event ev : Prop :=
  locator_probe ev ∨ ev = EvPrint MsgCheckingTools
  ∨ ev = EvPrint MsgAllToolsFound ∨ ∃ missing, ev = EvPrint (MsgMissingTools missing).

(** The files a stage makes the program write. *)
Definition stage_files self s : list str :=
  match s with
  | Subfinder => [subfinder_out self]
  | DNSx => [dnsx_out self]
  | Naabu => [naabu_out self]
  | HTTPx => [httpx_file self]
  | Katana => [katana_input_clean self; katana_file self]
  end.

(** The files written after the last stage. *)
Definition post_files self : list str :=
  [burp_file self; summary_file self; prompt_file self].

(** The stage a console message names. *)
Definition msg_stage m : option Stage :=
  match m with
  | MsgDryRun step _ | MsgRunning step | MsgError step _
  | MsgException step | MsgCompleted step _ => Some step
  | _ => None
  end.

(** The console messages of the steps after the last stage. *)
Definition is_post_message m : bool :=
  match m with
  | MsgGeneratingBurp | MsgSummarySaved _ | MsgGeneratingPrompt
  | MsgPromptGenerated _ | MsgDone _ _ => true
  | _ => false
  end.

(** An effect that belongs to the part of a run up to stage [s]. *)
Definition upto self s ev : Prop :=
  match ev with
  | EvProbe _ => True
  | EvPrint m =>
      is_post_message m = false
      ∧ ∀ step, msg_stage m = Some step → stage_index step ≤ stage_index s
  | EvRun step _ => stage_index step ≤ stage_index s
  | EvOpen path _ _ =>
      ∃ step, stage_index step ≤ stage_index s ∧ path ∈ stage_files self step
  | EvMakedirs _ => False
  end%nat.

(** An effect of the steps after the last stage. *)
Definition post_event self ev : Prop :=
  match ev with
  | EvPrint m => is_post_message m = true
  | EvOpen path _ _ => path ∈ post_files self
  | _ => False
  end.

(** How a run of the stages ends: at a failed stage, with nothing done
    beyond it and the message of the failure last; or after the closing
    panel, with the Burp file and the summary written outside dry-run
    mode. *)
Definition stages_post self (r : Res Outcome) evs : Prop :=
  match r with
  | Exit _ => False
  | Ret (HaltedAt s) =>
      dry_run self = false
      ∧ Forall (upto self s) evs
      ∧ ∃ m, last evs = Some (EvPrint m) ∧ failure_message s m
  | Ret Finished =>
      (∃ prx burp, last evs = Some (EvPrint (MsgDone prx burp)))
      ∧ (dry_run self = false →
         (∃ data, EvOpen (burp_file self) ModeW data ∈ evs)
         ∧ (∃ data, EvOpen (summary_file self) ModeW data ∈ evs))
  end.

(** How a run of [execute] ends, [missing] being the tools its check
    finds missing: with status 1 before any stage when a tool is missing,
    and as a run of the stages otherwise. *)
Definition execute_post self (missing : list str) (r : Res Outcome) evs
  : Prop :=
  match r with
  | Exit code => code = 1%Z ∧ missing ≠ [] ∧ Forall check_event evs
  | Ret o => missing = [] ∧ stages_post self (Ret o) evs
  end.

(** The names of the files of the output directory. *)
Definition artifact_names : list str :=
  [lit "subfinder.txt"; lit "dnsx.txt"; lit "naabu.txt"; lit "httpx.txt";
   lit "katana_input_clean.txt"; lit "katana.txt"; lit "urls_for_burp.txt";
   lit "summary.json"; lit "llm_prompt.txt"].

(** What a stage reports in dry-run mode: the stage and its command. *)
Definition dry_run_report ev : option (Stage * str) :=
  match ev with
  | EvPrint (MsgDryRun step cmd_str) => Some (step, cmd_str)
  | _ => None
  end.

(** An effect of a run in dry-run mode: a console message, or a child
    process of the tool locator. *)
Definition dry_event ev : Prop :=
  (∃ m, ev = EvPrint m) ∨ locator_probe ev.

(** The stage and the argument vector of a tool the stage runner
    starts. *)
Definition stage_run ev : option (Stage * list str) :=
  match ev with
  | EvRun step cmd => Some (step, cmd)
  | _ => None
  end.


(** The lines of the Katana input file for the text of [httpx.txt]. *)
Definition katana_input_lines (content : str) : list str :=
  filter (λ u, truthy u) (clean_httpx_line <$> readlines content).

(** A child process that exits with code zero. *)
Definition exited_zero (r : ProcResult) : bool :=
  match r with
  | Exited 0%Z _ _ => true
  | _ => false
  end.

(** Every tool the stage runner starts in the course of the effects
    [evs], from the machine [w] on, exits with code zero. *)
Fixpoint tools_succeeded w evs : bool :=
  match evs with
  | [] => true
  | ev :: rest =>
      match ev with
      | EvRun _ cmd => exited_zero (spawn cmd w).1
      | _ => true
      end
      && tools_succeeded (apply_event w ev) rest
  end.

(** The message of a stage whose tool ends as [r]. *)
Definition failure_report step (command : list str) (r : ProcResult)
  : Message :=
  match r, command with
  | Exited _ _ stderr, command0 :: _ =>
      if contains command0 (lit "httpx")
         && contains stderr (lit "No such option")
      then MsgVersionConflict
      else MsgError step stderr
  | _, _ => MsgException step
  end.

(** How the stages of a run went, from the machine [w] on: every tool
    started exited with code zero when the run finished; a run that
    stopped at stage [s] ends with the tool of [s] and the message of its
    failure, the tools before it having exited with code zero and this one
    not; and a run that left the program started no tool. *)
Definition first_failure w (r : Res Outcome) evs : Prop :=
  match r with
  | Ret Finished => tools_succeeded w evs = true
  | Ret (HaltedAt s) =>
      ∃ pre cmd m,
        evs = pre ++ [EvRun s cmd; EvPrint m]
        ∧ tools_succeeded w pre = true
        ∧ exited_zero (spawn cmd (replay w pre)).1 = false
        ∧ failure_message s m
  | Exit _ => Forall (λ ev, stage_run ev = None) evs
  end.

(** What a finished run leaves, [w'] being the machine at its end: the
    Burp file with the lines [urls], the summary with the line counts of
    the six artifacts as they are on [w'], that of the Burp file being
    the number of [urls], and the closing panel, which names the Burp
    file and the same number. *)
Definition finished_state self w' evs : Prop :=
  ∃ urls summary prx,
    files w' !! burp_file self = Some (write_lines urls)
    ∧ artifact_lines (write_lines urls) = urls
    ∧ files w' !! summary_file self = Some (json_dump_summary summary)
    ∧ stats summary
      = [(lit "subdomains", raw_line_count self w' (lit "subfinder.txt"));
         (lit "resolved", raw_line_count self w' (lit "dnsx.txt"));
         (lit "ports", raw_line_count self w' (lit "naabu.txt"));
         (lit "http_services", raw_line_count self w' (lit "httpx.txt"));
         (lit "endpoints", raw_line_count self w' (lit "katana.txt"));
         (lit "burp_import", length urls)]
    ∧ raw_line_count self w' (lit "urls_for_burp.txt") = length urls
    ∧ contains (json_dump_summary summary)
        ([34] ++ lit "burp_import" ++ [34] ++ lit ": "
         ++ repr_nat (length urls)) = true
    ∧ last evs
      = Some (EvPrint (MsgDone prx (Some (burp_file self, length urls)))).

(** The directory [go env GOBIN] answers with, empty when the command
    fails. *)
Definition gobin_of (r : ProcResult) : str :=
  match r with
  | Exited 0%Z stdout _ => strip stdout
  | _ => []
  end.

(** The paths [get_binary_path] tries for a tool, in its order, [r]
    being how [go env GOBIN] ended. *)
Definition candidate_paths (r : ProcResult) (tool_name : str) : list str :=
  (if truthy (gobin_of r) then [path_join (gobin_of r) tool_name] else [])
  ++ [expanduser (lit "~/go/bin/" ++ tool_name);
      lit "/usr/local/bin/" ++ tool_name;
      lit "/usr/bin/" ++ tool_name].

(** What [get_binary_path] falls back to: the tool as found on the search
    path, or its bare name. *)
Definition path_fallback (tool_name : str) w : str :=
  if truthy_opt (which tool_name w) then default [] (which tool_name w)
  else tool_name.

(** An effect of a run that ends at the check of the tools. *)
Definition check_failure_event self ev : Prop :=
  ev = EvMakedirs (output_dir self) ∨ (∃ m, ev = EvPrint m)
  ∨ locator_probe ev.

(** Text made of line feeds and printable ASCII characters only. *)
Definition ascii_char (c : char) : bool :=
  (c =? LF) || ((32 <=? c) && (c <=? 126)).

Definition ascii_text (s : str) : Prop :=
  Forall (λ c, ascii_char c = true) s.

(** The number of lines of a text that hold a character other than white
    space, counted character by character; [seen] tells whether the line
    at hand already holds one. *)
Fixpoint count_scan (seen : bool) (s : str) : nat :=
  match s with
  | [] => if seen then 1%nat else 0%nat
  | c :: t =>
      if c =? LF
      then ((if seen then 1 else 0) + count_scan false t)%nat
      else count_scan (seen || negb (is_space c)) t
  end.

(** A character a JSON string holds as it is: printable ASCII other than
    the quote and the backslash. *)
Definition plain_char (c : char) : bool :=
  (32 <=? c) && (c <=? 126) && negb (c =? 34) && negb (c =? 92).

(** The nine files the program writes. *)
Definition output_files self : list str :=
  [subfinder_out self; dnsx_out self; naabu_out self; httpx_file self;
   katana_input_clean self; katana_file self; burp_file self;
   summary_file self; prompt_file self].

(** An effect that opens no file for writing but those of [paths]. *)
Definition opens_only (paths : list str) ev : Prop :=
  match ev with
  | EvOpen path _ _ => path ∈ paths
  | _ => True
  end.

(** Whether [__init__] gets past [os.makedirs].  In dry-run mode the
    call is not made; otherwise the output directory must have a name,
    must not be a file, and the system must allow the making of it. *)
Definition directory_ready self w : bool :=
  dry_run self
  || (truthy (output_dir self)
      && negb (bool_decide (is_Some (files w !! output_dir self)))
      && makedirs_ok (output_dir self) w).

(** How [main] ends when [execute] ends as [r]. *)
Definition ran (r : Res Outcome) : Res (option Outcome) :=
  match r with
  | Ret outcome => Ret (Some outcome)
  | Exit code => Exit code
  end.


End Vocabulary.

(** ** A machine to run the program on

    Five tools installed under [/usr/bin], an empty output directory
    [out], and tools that answer with fixed text. *)

Definition sample_files : gmap str str :=
  list_to_map ((λ tool, (lit "/usr/bin/" ++ tool, [])) <$> REQUIRED_TOOLS).

Definition sample_world : World unit := mkWorld sample_files tt.

(** A machine without the tools. *)
Definition bare_world : World unit := mkWorld ∅ tt.

Definition sample_which (tool : str) (w : World unit) : option str := None.

Definition sample_expanduser (path : str) : str :=
  lit "/home/user" ++ drop 1 path.

Definition sample_now (w : World unit) : str := lit "2024-01-01T00:00:00".

(** What each tool prints; [go] is not installed. *)
Definition sample_stdout (program : str) : option str :=
  if bool_decide (program = lit "/usr/bin/subfinder")
  then Some (lit "www.example.com" ++ [LF])
  else if bool_decide (program = lit "/usr/bin/httpx")
  then Some (lit "https://a.example [200] [nginx]" ++ [LF]
             ++ lit "http://b.example [301]" ++ [LF])
  else if bool_decide (program = lit "/usr/bin/katana")
  then Some (lit "https://a.example/login" ++ [LF] ++ [LF]
             ++ lit "https://a.example" ++ [LF])
  else if bool_decide (program = lit "go") then None
  else Some [].

(** Every tool succeeds. *)
Definition sample_spawn (cmd : list str) (w : World unit)
  : ProcResult * World unit :=
  match cmd with
  | program :: _ =>
      match sample_stdout program with
      | Some stdout => (Exited 0 stdout [], w)
      | None => (Raised, w)
      end
  | [] => (Raised, w)
  end.

(** Every tool succeeds but dnsx, which exits with code 1. *)
Definition failing_spawn (cmd : list str) (w : World unit)
  : ProcResult * World unit :=
  match cmd with
  | program :: _ =>
      if bool_decide (program = lit "/usr/bin/dnsx")
      then (Exited 1 [] (lit "boom"), w)
      else sample_spawn cmd w
  | [] => (Raised, w)
  end.

Definition sample_host : Host unit :=
  {| spawn := sample_spawn;
     which := sample_which;
     expanduser := sample_expanduser;
     now_iso := sample_now;
     makedirs_ok := λ _ _, true |}.

(** The same surroundings, with dnsx failing. *)
Definition failing_host : Host unit :=
  {| spawn := failing_spawn;
     which := sample_which;
     expanduser := sample_expanduser;
     now_iso := sample_now;
     makedirs_ok := λ _ _, true |}.

Definition sample_self : ReconPipeline :=
  {| domain := Some (lit "example.com");
     domain_list := None;
     output_dir := lit "out";
     proxy := None;
     dry_run := false;
     llm_analysis := true |}.

Definition sample_dry_self : ReconPipeline :=
  {| domain := Some (lit "example.com");
     domain_list := None;
     output_dir := lit "out";
     proxy := None;
     dry_run := true;
     llm_analysis := true |}.

(** The machine after a full run. *)
Definition sample_final : World unit :=
  world_of (main (host := sample_host) sample_self sample_world).

(** The machine after a run in which dnsx fails. *)
Definition failed_run : Res Outcome * World unit * list Event :=
  execute (host := failing_host) sample_self sample_world.

(** The effects of that run before dnsx is started. *)
Definition failed_run_before : list Event :=
  take 22 (events_of (main (host := failing_host) sample_self sample_world)).

(** The crawl artifact of a large site: 250 URLs, each followed by a
    blank line. *)
Definition crawl_text : str :=
  concat ((λ i, lit "https://a.example/p" ++ repr_nat i ++ [LF] ++ [LF])
            <$> seq 0 250).

Definition crawl_world : World unit :=
  mkWorld (<[katana_file sample_self := crawl_text]> sample_files) tt.

(** A run that is given the empty name for its output directory. *)
Definition unnamed_self : ReconPipeline :=
  {| domain := Some (lit "example.com");
     domain_list := None;
     output_dir := [];
     proxy := None;
     dry_run := false;
     llm_analysis := true |}.

(** The sample machine after a run of subfinder that did not report the
    domain or a name under it. *)
Definition foreign_world : World unit :=
  mkWorld (<[subfinder_out sample_self := lit "api.example.org" ++ [LF]]>
             sample_files) tt.

(** * Properties *)

Section Properties.

Context {Env : Type} {host : Host Env}.

Abbreviation M := (M Env).

Set Default Proof Using "Type".

(** ** Facts about the text operations *)

Section TextFacts.

Implicit Types (s t line : str) (c : char).

Lemma lstrip_split s :
  ∃ l, s = l ++ lstrip s ∧ Forall (λ c, is_space c = true) l.
Proof.
  induction s as [|c t [l [Ht Hl]]]; simpl.
  - by exists [].
  - destruct (is_space c) eqn:Hc.
    + exists (c :: l). split; [by rewrite <- app_comm_cons, <- Ht | by constructor].
    + by exists [].
Qed.

Lemma lstrip_head s c : head (lstrip s) = Some c → is_space c = false.
Proof.
  induction s as [|d t IH]; simpl; [done|].
  destruct (is_space d) eqn:Hd; [done|]. simpl. by intros [= <-].
Qed.

Lemma rstrip_split s :
  ∃ r, s = rstrip s ++ r ∧ Forall (λ c, is_space c = true) r.
Proof.
  destruct (lstrip_split (reverse s)) as [l [Hs Hl]].
  exists (reverse l). split.
  - unfold rstrip. rewrite <- reverse_app, <- Hs. by rewrite reverse_involutive.
  - by apply Forall_reverse.
Qed.

Lemma rstrip_last s c : last (rstrip s) = Some c → is_space c = false.
Proof. unfold rstrip. rewrite last_reverse. apply lstrip_head. Qed.

Lemma rstrip_head s c :
  head s = Some c → is_space c = false → head (rstrip s) = Some c.
Proof.
  intros Hh Hc. destruct (rstrip_split s) as [r [Hs Hr]].
  destruct (rstrip s) as [|d u] eqn:E.
  - simpl in Hs. subst s. destruct r as [|d r]; [done|].
    simpl in Hh. injection Hh as ->. apply Forall_cons_1 in Hr as [Hr _]. congruence.
  - rewrite Hs in Hh. simpl in *. done.
Qed.

(** [strip] cuts a run of white space at each end, and no more. *)
Lemma strip_split s :
  ∃ l r, s = l ++ strip s ++ r
         ∧ Forall (λ c, is_space c = true) l
         ∧ Forall (λ c, is_space c = true) r.
Proof.
  destruct (lstrip_split s) as [l [Hs Hl]].
  destruct (rstrip_split (lstrip s)) as [r [Ht Hr]].
  exists l, r. unfold strip. by rewrite <- Ht.
Qed.

Lemma strip_last s c : last (strip s) = Some c → is_space c = false.
Proof. apply rstrip_last. Qed.

Lemma strip_head s c : head (strip s) = Some c → is_space c = false.
Proof.
  unfold strip. intros H.
  destruct (lstrip s) as [|d u] eqn:E.
  - by vm_compute in H.
  - assert (Hd : is_space d = false) by (apply (lstrip_head s); by rewrite E).
    rewrite (rstrip_head (d :: u) d eq_refl Hd) in H. congruence.
Qed.

Lemma elem_of_strip s c : c ∈ strip s → c ∈ s.
Proof.
  destruct (strip_split s) as (l & r & Hs & _). intros H.
  rewrite Hs, !elem_of_app. auto.
Qed.

Lemma startswith_prefix s p : startswith s p = true ↔ ∃ t, s = p ++ t.
Proof.
  revert s. induction p as [|a p IH]; intros s; simpl.
  - split; [intros _; by exists s | done].
  - destruct s as [|b s]; simpl.
    + split; [done | by intros [t Ht]].
    + rewrite andb_true_iff, N.eqb_eq, IH. split.
      * intros [-> [t ->]]. by exists t.
      * intros [t [= -> ->]]. eauto.
Qed.

Lemma contains_infix s p : contains s p = true ↔ ∃ l r, s = l ++ p ++ r.
Proof.
  induction s as [|c s IH]; simpl.
  - rewrite orb_false_r, startswith_prefix. split.
    + intros [t Ht]. by exists [], t.
    + intros (l & r & H). symmetry in H.
      apply app_eq_nil in H as [-> H]. exists r. done.
  - rewrite orb_true_iff, startswith_prefix, IH. split.
    + intros [[t Ht] | (l & r & Hs)].
      * by exists [], t.
      * exists (c :: l), r. by rewrite Hs.
    + intros (l & r & Hs). destruct l as [|d l].
      * left. by exists r.
      * right. injection Hs as -> ->. eauto.
Qed.

(** The first field of a [split]: up to the first separator. *)
Lemma item0_split_on sep s :
  ∃ rest, s = item0 (split_on sep s) ++ rest
          ∧ (sep ∉ item0 (split_on sep s))
          ∧ (rest = [] ∨ (∃ rest', rest = sep :: rest')).
Proof.
  induction s as [|c s (rest & Hs & Hn & Hr)]; simpl.
  - exists []. split_and!; [done | apply not_elem_of_nil | by left].
  - destruct (N.eqb_spec c sep) as [->|Hne]; simpl.
    + exists (sep :: s). split_and!; [done | apply not_elem_of_nil | eauto].
    + exists rest.
      destruct (split_on sep s) as [|p ps] eqn:E; simpl in *;
        (split_and!;
         [by rewrite Hs at 1 | apply not_elem_of_cons; by split | done]).
Qed.

Lemma split_on_nonempty sep s : split_on sep s ≠ [].
Proof.
  destruct s as [|c s]; simpl; [done|].
  destruct (c =? sep); [done|]. by destruct (split_on sep s).
Qed.

End TextFacts.

(** ** Facts about lines and text files *)

Section LineFacts.

Implicit Types (s t line u : str) (c : char).

Lemma split_lines_shape s :
  Forall (λ line, line ≠ [] ∧ lf_only_last line) (split_lines s).
Proof.
  induction s as [|c t IH]; simpl; [constructor|].
  destruct (N.eqb_spec c LF) as [->|Hc].
  - constructor; [|done]. split; [done|].
    intros [|a x] y; simpl; intros [= E]; [by subst|].
    by destruct x.
  - destruct (split_lines t) as [|l ls]; simpl.
    + constructor; [|done]. split; [done|].
      intros [|a x] y; simpl; intros [= E]; [by subst|]. by destruct x.
    + apply Forall_cons_1 in IH as [[_ Hl] Hls].
      constructor; [|done]. split; [done|].
      intros [|a x] y; simpl; intros [= E]; [by subst|]. intros. by eapply Hl.
Qed.

Lemma concat_split_lines s : concat (split_lines s) = s.
Proof.
  induction s as [|c t IH]; simpl; [done|].
  destruct (N.eqb_spec c LF) as [->|_]; simpl; [by rewrite IH|].
  destruct (split_lines t) as [|l ls]; simpl in *; by rewrite <- IH.
Qed.

Lemma elem_of_split_lines s line c : line ∈ split_lines s → c ∈ line → c ∈ s.
Proof.
  intros Hl Hc. rewrite <- (concat_split_lines s).
  apply list_elem_of_In, in_concat. exists line.
  split; by apply list_elem_of_In.
Qed.

Lemma split_lines_app_LF u t :
  LF ∉ u → split_lines (u ++ LF :: t) = (u ++ [LF]) :: split_lines t.
Proof.
  induction u as [|c u IH]; simpl; [done|].
  intros [Hc Hu]%not_elem_of_cons.
  destruct (N.eqb_spec c LF) as [->|_]; [done|]. by rewrite IH.
Qed.

Lemma split_lines_write_lines (xs : list str) :
  Forall (λ u, LF ∉ u) xs →
  split_lines (write_lines xs) = (λ x, x ++ [LF]) <$> xs.
Proof.
  unfold write_lines. induction 1 as [|u xs Hu _ IH]; simpl; [done|].
  rewrite <- app_assoc. simpl. rewrite split_lines_app_LF by done.
  f_equal. apply IH.
Qed.

Lemma universal_newlines_no_CR_aux t :
  (CR ∉ universal_newlines t) ∧ ∀ c, CR ∉ universal_newlines (c :: t).
Proof.
  induction t as [|d t [IH1 IH2]].
  - split; [apply not_elem_of_nil|]. intros c. simpl.
    destruct (N.eqb_spec c CR) as [->|Hc]; apply not_elem_of_cons;
      (split; [done | apply not_elem_of_nil]).
  - split; [apply IH2|]. intros c.
    change (universal_newlines (c :: d :: t)) with
      (if c =? CR then
         if d =? LF then LF :: universal_newlines t
         else LF :: universal_newlines (d :: t)
       else c :: universal_newlines (d :: t)).
    destruct (N.eqb_spec c CR) as [->|Hc]; [destruct (d =? LF)|];
      apply not_elem_of_cons; (split; [done | auto]).
Qed.

Lemma universal_newlines_no_CR s : CR ∉ universal_newlines s.
Proof. apply universal_newlines_no_CR_aux. Qed.

Lemma universal_newlines_id s : CR ∉ s → universal_newlines s = s.
Proof.
  induction s as [|c s IH]; [done|].
  intros [Hc Hs]%not_elem_of_cons.
  change (universal_newlines (c :: s)) with
    (if c =? CR then
       match s with
       | d :: t' => if d =? LF then LF :: universal_newlines t'
                    else LF :: universal_newlines s
       | [] => [LF]
       end
     else c :: universal_newlines s).
  destruct (N.eqb_spec c CR) as [->|_]; [done|]. by rewrite IH.
Qed.

Lemma chomp_snoc u : chomp (u ++ [LF]) = u.
Proof. unfold chomp. rewrite reverse_snoc. simpl. apply reverse_involutive. Qed.

(** Reading back a file written one item per line gives the items, when
    no item holds a line break. *)
Lemma artifact_lines_write_lines (xs : list str) :
  Forall (λ u, (LF ∉ u) ∧ (CR ∉ u)) xs →
  artifact_lines (write_lines xs) = xs.
Proof.
  intros H. unfold artifact_lines, readlines.
  rewrite universal_newlines_id.
  - rewrite split_lines_write_lines by (eapply Forall_impl; [done | by intros ? []]).
    rewrite <- list_fmap_compose. rewrite <- (list_fmap_id xs) at 2.
    apply list_fmap_ext. intros _ u _. simpl. apply chomp_snoc.
  - unfold write_lines. intros Hin%list_elem_of_In%in_concat.
    destruct Hin as (l & Hl%list_elem_of_In & Hc%list_elem_of_In).
    apply list_elem_of_fmap in Hl as (u & -> & Hu).
    rewrite Forall_forall in H. destruct (H u Hu) as [_ Hcr].
    apply elem_of_app in Hc as [Hc | Hc%list_elem_of_singleton]; done.
Qed.

(** The lines read from a file hold no carriage return, and a line feed
    only at their end. *)
Lemma readlines_shape content line :
  line ∈ readlines content → lf_only_last line ∧ (CR ∉ line) ∧ line ≠ [].
Proof.
  unfold readlines. intros H.
  pose proof (split_lines_shape (universal_newlines content)) as Hs.
  rewrite Forall_forall in Hs. destruct (Hs line H) as [Hne Hlf].
  split_and!; [done | | done].
  intros Hc. eapply universal_newlines_no_CR, elem_of_split_lines; done.
Qed.

(** Trimming a field that starts a line leaves no line break in it. *)
Lemma strip_prefix_no_LF line p rest :
  line = p ++ rest → lf_only_last line → LF ∉ strip p.
Proof.
  intros Hline Hlf Hin.
  apply list_elem_of_split in Hin as (a & b & Hab).
  destruct (strip_split p) as (l & r & Hp & _).
  assert (b ++ r ++ rest = []) as Hnil.
  { apply (Hlf (l ++ a)). rewrite Hline, Hp, Hab.
    by rewrite <- !app_assoc. }
  apply app_eq_nil in Hnil as [-> _].
  assert (last (strip p) = Some LF) as Hlast by (rewrite Hab; apply last_snoc).
  by apply strip_last in Hlast.
Qed.

Lemma strip_prefix_no_CR line p rest :
  line = p ++ rest → CR ∉ line → CR ∉ strip p.
Proof.
  intros -> Hcr Hin%elem_of_strip. apply Hcr, elem_of_app. by left.
Qed.

End LineFacts.

(** ** The order of [sorted] *)

Section OrderFacts.

Implicit Types a b c : str.

Lemma str_le_refl a : str_le a a = true.
Proof.
  induction a as [|x a IH]; simpl; [done|].
  rewrite N.eqb_refl, IH. apply orb_true_r.
Qed.

Lemma str_le_total a b : str_le a b = true ∨ str_le b a = true.
Proof.
  revert b. induction a as [|x a IH]; intros [|y b]; simpl; auto.
  destruct (N.ltb_spec x y), (N.ltb_spec y x), (N.eqb_spec x y), (N.eqb_spec y x);
    simpl; auto; lia.
Qed.

Lemma str_le_trans a b c :
  str_le a b = true → str_le b c = true → str_le a c = true.
Proof.
  revert b c. induction a as [|x a IH]; intros [|y b] [|z c]; simpl; try done.
  destruct (N.ltb_spec x y), (N.ltb_spec y z), (N.ltb_spec x z),
    (N.eqb_spec x y), (N.eqb_spec y z), (N.eqb_spec x z);
    simpl; try done; try lia.
  apply IH.
Qed.

Lemma str_le_antisym a b : str_le a b = true → str_le b a = true → a = b.
Proof.
  revert b. induction a as [|x a IH]; intros [|y b]; simpl; try done.
  destruct (N.ltb_spec x y), (N.ltb_spec y x), (N.eqb_spec x y), (N.eqb_spec y x);
    simpl; try done; try lia.
  intros. subst. f_equal. by apply IH.
Qed.

#[global] Instance str_order_total : Total str_order.
Proof. intros a b. apply str_le_total. Qed.

#[global] Instance str_order_trans : Transitive str_order.
Proof. intros a b c. apply str_le_trans. Qed.

#[global] Instance str_order_antisym : AntiSymm (=) str_order.
Proof. intros a b. apply str_le_antisym. Qed.

Lemma sorted_Permutation (S : gset str) : sorted S ≡ₚ elements S.
Proof. apply merge_sort_Permutation. Qed.

Lemma elem_of_sorted (S : gset str) a : a ∈ sorted S ↔ a ∈ S.
Proof. by rewrite sorted_Permutation, elem_of_elements. Qed.

Lemma NoDup_sorted (S : gset str) : NoDup (sorted S).
Proof. rewrite sorted_Permutation. apply NoDup_elements. Qed.

Lemma length_sorted (S : gset str) : length (sorted S) = size S.
Proof. by rewrite sorted_Permutation. Qed.

Lemma StronglySorted_strict (l : list str) :
  StronglySorted str_order l → NoDup l → StronglySorted str_lt l.
Proof.
  induction 1 as [|a l Hl IH Ha]; intros Hnd; constructor.
  - apply IH. by apply NoDup_cons_1_2 in Hnd.
  - apply NoDup_cons_1_1 in Hnd.
    rewrite Forall_forall in Ha |- *. intros b Hb. split; [by apply Ha|].
    by intros ->.
Qed.

(** [sorted] lists a set in strictly ascending order. *)
Lemma sorted_ascending (S : gset str) : StronglySorted str_lt (sorted S).
Proof.
  apply StronglySorted_strict; [|apply NoDup_sorted].
  apply StronglySorted_merge_sort; apply _.
Qed.

End OrderFacts.

(** ** The URLs the result normalizer keeps *)

Section CollectFacts.

Implicit Types (u line : str) (acc : gset str).

Lemma elem_of_foldl_httpx acc (ls : list str) u :
  u ∈ foldl add_httpx_line acc ls ↔
  u ∈ acc ∨ ∃ line, line ∈ ls ∧ u = clean_httpx_line line
                    ∧ startswith u (lit "http") = true.
Proof.
  revert acc. induction ls as [|l ls IH]; intros acc; cbn [foldl].
  - split; [by left|]. intros [H | (line & H%elem_of_nil & _)]; done.
  - rewrite IH. unfold add_httpx_line.
    destruct (startswith (clean_httpx_line l) (lit "http")) eqn:E.
    + rewrite elem_of_union, elem_of_singleton. split.
      * intros [[H | ->] | (line & Hin & Hu)]; [by left | right | right].
        -- exists l. split_and!; [by left | done | done].
        -- exists line. destruct Hu. split_and!; [by right | done | done].
      * intros [H | (line & [-> | Hin]%elem_of_cons & -> & Hs)]; auto.
        right. by exists line.
    + split.
      * intros [H | (line & Hin & Hu)]; [by left | right].
        exists line. destruct Hu. split_and!; [by right | done | done].
      * intros [H | (line & [-> | Hin]%elem_of_cons & -> & Hs)]; auto.
        -- congruence.
        -- right. by exists line.
Qed.

Lemma elem_of_foldl_katana acc (ls : list str) u :
  u ∈ foldl add_katana_line acc ls ↔
  u ∈ acc ∨ ∃ line, line ∈ ls ∧ u = strip line
                    ∧ startswith u (lit "http") = true.
Proof.
  revert acc. induction ls as [|l ls IH]; intros acc; cbn [foldl].
  - split; [by left|]. intros [H | (line & H%elem_of_nil & _)]; done.
  - rewrite IH. unfold add_katana_line.
    destruct (startswith (strip l) (lit "http")) eqn:E.
    + rewrite elem_of_union, elem_of_singleton. split.
      * intros [[H | ->] | (line & Hin & Hu)]; [by left | right | right].
        -- exists l. split_and!; [by left | done | done].
        -- exists line. destruct Hu. split_and!; [by right | done | done].
      * intros [H | (line & [-> | Hin]%elem_of_cons & -> & Hs)]; auto.
        right. by exists line.
    + split.
      * intros [H | (line & Hin & Hu)]; [by left | right].
        exists line. destruct Hu. split_and!; [by right | done | done].
      * intros [H | (line & [-> | Hin]%elem_of_cons & -> & Hs)]; auto.
        -- congruence.
        -- right. by exists line.
Qed.

(** What the set holds: the kept candidates of the two files. *)
Lemma elem_of_collect_urls (httpx katana : option (list str)) u :
  u ∈ collect_urls httpx katana ↔
  (∃ line, line ∈ default [] httpx ∧ u = clean_httpx_line line
           ∧ startswith u (lit "http") = true)
  ∨ (∃ line, line ∈ default [] katana ∧ u = strip line
             ∧ startswith u (lit "http") = true).
Proof.
  unfold collect_urls.
  rewrite elem_of_foldl_katana, elem_of_foldl_httpx, elem_of_empty.
  split; [intros [[[] | H] | H] | intros [H | H]]; auto.
Qed.

End CollectFacts.

(** ** The result normalizer: [create_burp_file] *)

Section ResultNormalizer.

Implicit Types (self : ReconPipeline) (w : World Env) (u line : str).

Lemma elem_of_unique_urls self w u :
  u ∈ unique_urls_of self w ↔
  kept_from_httpx (files w !! httpx_file self) u
  ∨ kept_from_katana (files w !! katana_file self) u.
Proof.
  unfold unique_urls_of, kept_from_httpx, kept_from_katana.
  rewrite elem_of_collect_urls.
  destruct (files w !! httpx_file self) as [h|],
           (files w !! katana_file self) as [k|]; simpl;
    (split; intros [H | H]);
    repeat match goal with
    | H : ∃ _, _ |- _ => destruct H as [? H]
    | H : _ ∧ _ |- _ => destruct H as [? ?]
    | H : _ ∈ [] |- _ => by apply elem_of_nil in H
    | H : None = Some _ |- _ => discriminate H
    | H : Some _ = Some _ |- _ => injection H as <-
    end; eauto 10.
Qed.

(** No kept URL holds a line break. *)
Lemma unique_urls_one_line self w u :
  u ∈ unique_urls_of self w → (LF ∉ u) ∧ (CR ∉ u).
Proof.
  rewrite elem_of_unique_urls.
  intros [(c & line & _ & Hl & -> & _) | (c & line & _ & Hl & -> & _)];
    destruct (readlines_shape _ _ Hl) as (Hlf & Hcr & _).
  - destruct (item0_split_on SPACE line) as (rest & Hline & _).
    split; [eapply strip_prefix_no_LF | eapply strip_prefix_no_CR]; done.
  - split; [eapply strip_prefix_no_LF | eapply strip_prefix_no_CR];
      try done; by rewrite app_nil_r.
Qed.

(** What one call of [create_burp_file] does outside dry-run mode. *)
Lemma create_burp_file_run self w :
  dry_run self = false →
  create_burp_file self w =
    (Ret (Some (burp_file self, size (unique_urls_of self w))),
     mkWorld (<[burp_file self := write_lines (sorted (unique_urls_of self w))]>
                (files w)) (env w),
     [EvPrint MsgGeneratingBurp;
      EvOpen (burp_file self) ModeW
        (write_lines (sorted (unique_urls_of self w)))]).
Proof. intros H. unfold create_burp_file. by rewrite H. Qed.

Lemma burp_artifact_lines self w :
  artifact_lines (write_lines (sorted (unique_urls_of self w)))
  = sorted (unique_urls_of self w).
Proof.
  apply artifact_lines_write_lines, Forall_forall.
  intros u Hu%elem_of_sorted. by eapply unique_urls_one_line.
Qed.

End ResultNormalizer.

Section ResultNormalizerClaims.

Implicit Types (self : ReconPipeline) (w : World Env) (u line : str).

(** C2. Outside dry-run mode, whatever the http-services and crawl
    artifacts hold and whether or not they exist, the consolidated-URL
    artifact written by [create_burp_file] is the text of its lines, each
    ended by a line feed; these lines have no duplicate, are in strictly
    ascending lexicographic order of code points, and are exactly the kept
    URL strings of the two artifacts, compared by plain equality. *)
Theorem consolidated_urls_sorted_unique self w :
  dry_run self = false →
  ∃ content,
    files (world_of (create_burp_file self w)) !! burp_file self
      = Some content
    ∧ content = write_lines (artifact_lines content)
    ∧ NoDup (artifact_lines content)
    ∧ StronglySorted str_lt (artifact_lines content)
    ∧ ∀ u, u ∈ artifact_lines content ↔
           kept_from_httpx (files w !! httpx_file self) u
           ∨ kept_from_katana (files w !! katana_file self) u.
Proof.
  intros Hdry. exists (write_lines (sorted (unique_urls_of self w))).
  rewrite create_burp_file_run by done. unfold world_of. simpl.
  rewrite burp_artifact_lines. split_and!.
  - apply lookup_insert_eq.
  - done.
  - apply NoDup_sorted.
  - apply sorted_ascending.
  - intros u. rewrite elem_of_sorted. apply elem_of_unique_urls.
Qed.

(** C10. Outside dry-run mode [create_burp_file] always leaves the
    consolidated-URL artifact on the machine, opened with mode ['w'] and so
    replaced as a whole: its new content depends on the http-services and
    crawl artifacts only, no other file changes, and the count returned is
    the number of its lines.  When both artifacts are absent the file is
    written empty and the count is zero. *)
Theorem burp_file_always_written self w :
  dry_run self = false →
  ∃ content,
    files (world_of (create_burp_file self w)) !! burp_file self
      = Some content
    ∧ result_of (create_burp_file self w)
      = Ret (Some (burp_file self, length (artifact_lines content)))
    ∧ EvOpen (burp_file self) ModeW content
        ∈ events_of (create_burp_file self w)
    ∧ (∀ p, p ≠ burp_file self →
            files (world_of (create_burp_file self w)) !! p = files w !! p)
    ∧ (∀ w2, files w2 !! httpx_file self = files w !! httpx_file self →
           files w2 !! katana_file self = files w !! katana_file self →
           files (world_of (create_burp_file self w2)) !! burp_file self
           = Some content)
    ∧ (files w !! httpx_file self = None →
       files w !! katana_file self = None →
       content = [] ∧ length (artifact_lines content) = 0%nat).
Proof.
  intros Hdry. exists (write_lines (sorted (unique_urls_of self w))).
  rewrite create_burp_file_run by done.
  unfold world_of, result_of, events_of. simpl.
  rewrite burp_artifact_lines, length_sorted. split_and!.
  - apply lookup_insert_eq.
  - done.
  - apply elem_of_cons. right. apply elem_of_cons. by left.
  - intros p Hp. by apply lookup_insert_ne.
  - intros w2 Hh Hk. rewrite create_burp_file_run by done. simpl.
    rewrite lookup_insert_eq. unfold unique_urls_of. by rewrite Hh, Hk.
  - intros Hh Hk. unfold unique_urls_of. rewrite Hh, Hk. done.
Qed.

End ResultNormalizerClaims.

(** ** Running computations *)

Section RunFacts.

Implicit Types (w : World Env) (e : Event).

Lemma result_bind {A B} (m : M A) (k : A → M B) w :
  result_of (bind m k w) =
  match result_of (m w) with
  | Ret a => result_of (k a (world_of (m w)))
  | Exit c => Exit c
  end.
Proof.
  unfold bind, result_of, world_of.
  destruct (m w) as [[[a|c] w1] e1]; simpl; [|done].
  by destruct (k a w1) as [[r w2] e2].
Qed.

Lemma world_bind {A B} (m : M A) (k : A → M B) w :
  world_of (bind m k w) =
  match result_of (m w) with
  | Ret a => world_of (k a (world_of (m w)))
  | Exit c => world_of (m w)
  end.
Proof.
  unfold bind, result_of, world_of.
  destruct (m w) as [[[a|c] w1] e1]; simpl; [|done].
  by destruct (k a w1) as [[r w2] e2].
Qed.

Lemma events_bind {A B} (m : M A) (k : A → M B) w :
  events_of (bind m k w) =
  events_of (m w) ++
  match result_of (m w) with
  | Ret a => events_of (k a (world_of (m w)))
  | Exit c => []
  end.
Proof.
  unfold bind, result_of, world_of, events_of.
  destruct (m w) as [[[a|c] w1] e1]; simpl; [|by rewrite app_nil_r].
  by destruct (k a w1) as [[r w2] e2].
Qed.

Lemma run_eta {A} (x : Res A * World Env * list Event) :
  x = (result_of x, world_of x, events_of x).
Proof. by destruct x as [[r w] e]. Qed.

Lemma result_of_tuple {A} (r : Res A) w (es : list Event) :
  result_of (r, w, es) = r.
Proof. done. Qed.

Lemma world_of_tuple {A} (r : Res A) w (es : list Event) :
  world_of (r, w, es) = w.
Proof. done. Qed.

Lemma events_of_tuple {A} (r : Res A) w (es : list Event) :
  events_of (r, w, es) = es.
Proof. done. Qed.

End RunFacts.

(** Evaluates the run of a sequence of primitive steps, as far as the
    values at hand decide it. *)
Ltac run_cbn :=
  unfold bind, write_file;
  cbn [ret emit console_print path_exists read_lines read_all
       open_write sys_exit shutil_which datetime_now probe subprocess_run
       result_of world_of events_of fst snd files env app
       default from_option id negb andb orb truthy truthy_opt Z.eqb
       fmap option_fmap option_map].

(** Reads the parts of a run that is given as a triple. *)
Ltac proj_cbn := cbn [result_of world_of events_of fst snd].

Ltac run_simpl :=
  repeat first
    [ rewrite lookup_insert_eq
    | rewrite bool_decide_eq_true_2 by eauto
    | progress run_cbn ].

(** ** The stage runner: [run_command] *)

Section StageRunner.

Implicit Types (self : ReconPipeline) (w : World Env) (path : str)
  (append_output : bool) (step : Stage).

(** In dry-run mode a stage prints its command and reports success; the
    machine is left as it was. *)
Lemma run_command_dry_run self command step output_file append_output w :
  dry_run self = true →
  run_command self command step output_file append_output w
  = (Ret true, w, [EvPrint (MsgDryRun step (join (lit " ") command))]).
Proof. intros H. unfold run_command. by rewrite H. Qed.

(** A successful stage with an output file. *)
Lemma run_command_success self command step path append_output w
    stdout stderr w1 :
  dry_run self = false →
  path ≠ [] →
  spawn command w = (Exited 0 stdout stderr, w1) →
  let text := (if append_output then default [] (files w1 !! path) else [])
              ++ stage_text stdout in
  run_command self command step (Some path) append_output w
  = (Ret true,
     mkWorld (<[path := text]> (files w1)) (env w1),
     [EvPrint (MsgRunning step); EvRun step command;
      EvOpen path (if append_output then ModeA else ModeW) (stage_text stdout);
      EvPrint (MsgCompleted step (nonblank_count (readlines text)))]).
Proof.
  intros Hdry Hpath Hspawn text.
  unfold run_command. rewrite Hdry.
  destruct path as [|c path]; [done|].
  run_simpl. rewrite Hspawn. run_simpl.
  subst text. unfold stage_text. by destruct append_output.
Qed.

(** A stage that fails leaves the machine as its tool left it, and ends
    with the message of its failure. *)
Lemma run_command_failure self command step output_file append_output w :
  result_of (run_command self command step output_file append_output w)
    = Ret false →
  dry_run self = false
  ∧ world_of (run_command self command step output_file append_output w)
    = (spawn command w).2
  ∧ ∃ m, failure_message step m
    ∧ events_of (run_command self command step output_file append_output w)
      = [EvPrint (MsgRunning step); EvRun step command; EvPrint m].
Proof.
  unfold run_command, failure_message.
  destruct (dry_run self); [done|]. run_simpl.
  destruct (spawn command w) as [[|rc out err] w1]; cbn [fst snd]; run_simpl.
  - intros _. split_and!; [done | done |]. eauto.
  - destruct (rc =? 0)%Z; cbn [negb]; run_simpl.
    + destruct output_file as [[|c path]|]; run_simpl;
        repeat (match goal with
                | |- context [match ?x with _ => _ end] => destruct x; run_simpl
                end); done.
    + destruct command as [|c0 command]; run_simpl.
      * intros _. split_and!; [done | done |]. eauto.
      * destruct (contains c0 (lit "httpx") && contains err (lit "No such option"));
          run_simpl; intros _; (split_and!; [done | done |]); eauto 6.
Qed.

(** A stage ends with a verdict, never by leaving the program. *)
Lemma run_command_returns self command step output_file append_output w :
  ∃ ok, result_of (run_command self command step output_file append_output w)
        = Ret ok.
Proof.
  unfold run_command.
  destruct (dry_run self); [by exists true|]. run_simpl.
  destruct (spawn command w) as [[|rc out err] w1]; cbn [fst snd]; run_simpl;
    [by exists false|].
  destruct (rc =? 0)%Z; cbn [negb]; run_simpl.
  - exists true.
    destruct output_file as [[|c path]|]; run_simpl;
      repeat (match goal with
              | |- context [match ?x with _ => _ end] => destruct x; run_simpl
              end); done.
  - exists false. destruct command as [|c0 command]; run_simpl; [done|].
    by destruct (contains c0 (lit "httpx") && contains err (lit "No such option")).
Qed.

(** C7. Outside dry-run mode, when the tool of a stage with a declared
    output file exits with code zero, [run_command] reports success and the
    output file exists afterwards: it holds the trimmed output of the tool
    ended by a line feed, after the previous content when appending, and
    it is present and empty when that output is blank and the file is
    written anew. *)
Theorem stage_output_exists self command step path append_output w
    stdout stderr w1 :
  dry_run self = false →
  path ≠ [] →
  spawn command w = (Exited 0 stdout stderr, w1) →
  result_of (run_command self command step (Some path) append_output w)
    = Ret true
  ∧ files (world_of (run_command self command step (Some path) append_output w))
      !! path
    = Some ((if append_output then default [] (files w1 !! path) else [])
            ++ stage_text stdout)
  ∧ (strip stdout = [] → append_output = false →
     files (world_of (run_command self command step (Some path) append_output w))
       !! path = Some []).
Proof.
  intros Hdry Hpath Hspawn.
  rewrite (run_command_success _ _ _ _ _ _ _ _ _ Hdry Hpath Hspawn).
  unfold result_of, world_of. simpl. rewrite lookup_insert_eq.
  split_and!; [done | done |]. intros Hs ->. unfold stage_text. by rewrite Hs.
Qed.

End StageRunner.

(** ** The summary aggregator: [generate_summary] *)

Section SummaryAggregator.

Implicit Types (self : ReconPipeline) (w : World Env).

Lemma count_files_run self (entries : list (str * str)) w :
  count_files self entries w
  = (Ret ((λ kv, (kv.1, raw_line_count self w kv.2)) <$> entries), w, []).
Proof.
  induction entries as [|[key filename] entries IH]; [done|].
  cbn [count_files]. run_simpl. rewrite IH, fmap_cons.
  unfold raw_line_count. cbn [fst snd].
  destruct (files w !! path_join (output_dir self) filename); reflexivity.
Qed.

Lemma generate_summary_run self w :
  dry_run self = false →
  generate_summary self w
  = (Ret tt,
     mkWorld (<[summary_file self := json_dump_summary (summary_of self w)]>
                (files w)) (env w),
     [EvOpen (summary_file self) ModeW (json_dump_summary (summary_of self w));
      EvPrint (MsgSummarySaved (summary_file self))]).
Proof.
  intros Hdry. unfold generate_summary. rewrite Hdry.
  run_simpl. rewrite count_files_run. done.
Qed.

Lemma length_filter_split {A} (P : A → Prop) `{∀ x, Decision (P x)} (l : list A) :
  length l = (length (filter P l) + length (filter (λ x, ¬ P x) l))%nat.
Proof.
  induction l as [|x l IH]; [done|].
  rewrite !filter_cons. destruct (decide (P x)), (decide (¬ P x)); simpl; try lia.
  - done.
  - tauto.
Qed.

Lemma contains_app_l (s t p : str) :
  contains s p = true → contains (s ++ t) p = true.
Proof.
  rewrite !contains_infix. intros (l & r & ->).
  exists l, (r ++ t). by rewrite <- !app_assoc.
Qed.

Lemma contains_app_r (s t p : str) :
  contains t p = true → contains (s ++ t) p = true.
Proof.
  rewrite !contains_infix. intros (l & r & ->).
  exists (s ++ l), r. by rewrite <- !app_assoc.
Qed.

Lemma contains_join (sep p : str) (parts : list str) :
  In p parts → contains (join sep parts) p = true.
Proof.
  induction parts as [|q parts IH]; [done|]. intros [-> | Hin].
  - cbn [join]. destruct parts as [|q' parts].
    + apply contains_infix. exists [], []. by rewrite app_nil_r.
    + apply contains_app_l, contains_infix. exists [], [].
      by rewrite app_nil_r.
  - cbn [join]. destruct parts as [|q' parts]; [done|].
    by apply contains_app_r, contains_app_r, IH.
Qed.

(** The text of the summary holds each count after its key. *)
Lemma json_dump_summary_embeds (summary : Summary) (key : str) (n : nat) :
  (key, n) ∈ stats summary →
  contains (json_dump_summary summary)
    (json_string key ++ lit ": " ++ repr_nat n) = true.
Proof.
  intros Hin. unfold json_dump_summary. cbv zeta.
  do 14 apply contains_app_r. apply contains_app_l.
  destruct (stats summary) as [|kv kvs] eqn:E;
    [by apply elem_of_nil in Hin|].
  rewrite <- E in *. do 2 apply contains_app_r. apply contains_app_l.
  apply contains_join.
  apply (in_map (λ kv, json_string kv.1 ++ lit ": " ++ repr_nat kv.2)
           _ (key, n)).
  by apply list_elem_of_In.
Qed.

(** C8. Outside dry-run mode [generate_summary] writes [summary.json],
    the text of a summary whose counts are, in this order: for
    [subdomains] the number of lines of [subfinder.txt], for [resolved]
    that of [dnsx.txt], for [ports] that of [naabu.txt], for
    [http_services] that of [httpx.txt], for [endpoints] that of
    [katana.txt] and for [burp_import] that of [urls_for_burp.txt], each
    file taken in the output directory as it is when the summary is
    built.  The number is the length of what [readlines] gives, zero for
    a file that does not exist: the non-blank lines, which the stage
    runner counts, plus the blank ones.  The text holds each count,
    written in decimal, after its key in quotes and a colon. *)
Theorem summary_counts self w :
  dry_run self = false →
  ∃ summary,
    files (world_of (generate_summary self w))
      !! path_join (output_dir self) (lit "summary.json")
      = Some (json_dump_summary summary)
    ∧ target summary = py_or (domain self) (domain_list self)
    ∧ stats summary
      = [(lit "subdomains", raw_line_count self w (lit "subfinder.txt"));
         (lit "resolved", raw_line_count self w (lit "dnsx.txt"));
         (lit "ports", raw_line_count self w (lit "naabu.txt"));
         (lit "http_services", raw_line_count self w (lit "httpx.txt"));
         (lit "endpoints", raw_line_count self w (lit "katana.txt"));
         (lit "burp_import",
          raw_line_count self w (lit "urls_for_burp.txt"))]
    ∧ (∀ filename,
         raw_line_count self w filename
         = match files w !! path_join (output_dir self) filename with
           | Some content => length (readlines content)
           | None => 0%nat
           end)
    ∧ (∀ filename content,
         files w !! path_join (output_dir self) filename = Some content →
         raw_line_count self w filename
         = (nonblank_count (readlines content)
            + length (filter (λ line, ¬ truthy (strip line))
                        (readlines content)))%nat)
    ∧ (∀ key n,
         (key, n) ∈ stats summary →
         contains (json_dump_summary summary)
           ([34] ++ key ++ [34] ++ lit ": " ++ repr_nat n) = true)
    ∧ (∀ path,
         path ≠ path_join (output_dir self) (lit "summary.json") →
         files (world_of (generate_summary self w)) !! path
         = files w !! path).
Proof.
  intros Hdry. exists (summary_of self w).
  rewrite generate_summary_run by done. cbn [world_of fst snd files].
  split_and!.
  - apply lookup_insert_eq.
  - done.
  - done.
  - done.
  - intros filename content Hfile. unfold raw_line_count. rewrite Hfile.
    unfold nonblank_count. apply length_filter_split.
  - intros key n Hin.
    pose proof (json_dump_summary_embeds _ _ _ Hin) as Hc.
    revert Hin Hc. cbn [summary_of stats summary_files fmap list_fmap fst snd].
    rewrite !elem_of_cons, elem_of_nil.
    intros H; repeat destruct H as [[= -> ->] | H]; try done;
      intros Hc; exact Hc.
  - intros path Hpath. by apply lookup_insert_ne.
Qed.

End SummaryAggregator.

(** ** The analysis prompt: [run_llm_advisory] *)

Section AnalysisPrompt.

Implicit Types (self : ReconPipeline) (w : World Env).

Lemma length_prompt_urls (lines : list str) :
  length (prompt_urls lines) = nonblank_count lines.
Proof. unfold prompt_urls, nonblank_count. by rewrite length_fmap. Qed.

Lemma take_min {A} (n : nat) (l : list A) :
  take n l = take (n `min` length l) l.
Proof.
  destruct (Nat.min_spec n (length l)) as [[_ ->] | [Hle ->]]; [done|].
  by rewrite !take_ge.
Qed.

(** A string of plain characters is written as it is, between quotes. *)
Lemma json_string_plain (u : str) :
  Forall (λ c, plain_char c = true) u → json_string u = [34] ++ u ++ [34].
Proof.
  intros Hu. unfold json_string. do 2 f_equal.
  induction Hu as [|c u Hc _ IH]; [done|].
  cbn [map concat]. rewrite IH. unfold json_escape_char.
  unfold plain_char in Hc.
  apply andb_true_iff in Hc as [Hc H92]. apply andb_true_iff in Hc as [Hc H34].
  apply negb_true_iff in H92, H34. by rewrite H92, H34, Hc.
Qed.

(** C9. Outside dry-run mode [run_llm_advisory] writes nothing when the
    crawl artifact is absent or holds no non-blank line.  Otherwise it
    writes the prompt file and no other: the entries are the first
    [min 200 n] non-blank lines of the artifact, trimmed, in the order of
    the file, [n] being the number of non-blank lines, so never more than
    200; and the text of the file is the fixed instruction, a line feed,
    and the entries as a JSON list, one to a line, each between quotes.
    Every entry is in the text as its JSON string, which for an entry of
    printable ASCII characters without quote or backslash is the entry
    itself between quotes. *)
Theorem prompt_bounded self w :
  dry_run self = false →
  (files w !! path_join (output_dir self) (lit "katana.txt") = None →
   world_of (run_llm_advisory self w) = w)
  ∧ ∀ content,
      files w !! path_join (output_dir self) (lit "katana.txt")
      = Some content →
      let n := nonblank_count (readlines content) in
      (n = 0%nat → world_of (run_llm_advisory self w) = w)
      ∧ (n ≠ 0%nat →
         ∃ entries text,
           entries
             = take (200 `min` n)
                 (strip <$> filter (λ line, truthy (strip line))
                              (readlines content))
           ∧ length entries = (200 `min` n)%nat
           ∧ (length entries ≤ 200)%nat
           ∧ entries `sublist_of` (strip <$> readlines content)
           ∧ files (world_of (run_llm_advisory self w))
               !! path_join (output_dir self) (lit "llm_prompt.txt")
             = Some text
           ∧ text
             = lit "Analyze these URLs and find high-risk endpoints:"
               ++ [LF] ++ lit "[" ++ [LF] ++ lit "  "
               ++ join (lit "," ++ [LF] ++ lit "  ") (map json_string entries)
               ++ [LF] ++ lit "]"
           ∧ (∀ u, u ∈ entries → contains text (json_string u) = true)
           ∧ (∀ u, Forall (λ c, plain_char c = true) u →
                   json_string u = [34] ++ u ++ [34])
           ∧ (∀ path,
                path ≠ path_join (output_dir self) (lit "llm_prompt.txt") →
                files (world_of (run_llm_advisory self w)) !! path
                = files w !! path)).
Proof.
  intros Hdry. unfold run_llm_advisory. rewrite Hdry. split.
  - intros Hk. fold (katana_file self) in Hk. run_simpl. by rewrite Hk.
  - intros content Hk. fold (katana_file self) in Hk.
    set (n := nonblank_count (readlines content)).
    run_simpl. rewrite Hk. run_simpl.
    pose proof (length_prompt_urls (readlines content)) as Hlen.
    fold n in Hlen.
    destruct (prompt_urls (readlines content)) as [|u urls] eqn:E.
    + split; [done|]. simpl in Hlen. congruence.
    + split; [simpl in Hlen; lia|]. intros _.
      assert (take 200 (u :: urls) = take (200 `min` n) (u :: urls)) as Ht
        by (rewrite <- Hlen; apply take_min).
      exists (take 200 (u :: urls)),
        (prompt_content (take 200 (u :: urls))).
      run_simpl. split_and!.
      * rewrite Ht, <- E. reflexivity.
      * rewrite Ht, length_take. lia.
      * rewrite length_take. lia.
      * rewrite <- E. unfold prompt_urls.
        etrans; [apply sublist_take|].
        apply fmap_sublist, sublist_filter.
      * done.
      * reflexivity.
      * intros v Hv. unfold prompt_content.
        do 2 apply contains_app_r.
        change (take 200 (u :: urls)) with (u :: take 199 urls) in *.
        cbn [json_dumps_list].
        do 3 apply contains_app_r. apply contains_app_l, contains_join.
        by apply in_map, list_elem_of_In.
      * apply json_string_plain.
      * intros path Hpath. by apply lookup_insert_ne.
Qed.

End AnalysisPrompt.

(** ** Effects and what they do to the machine *)

Section Effects.

Implicit Types (self : ReconPipeline) (w : World Env) (ev : Event)
  (evs : list Event).

Lemma wp_bind {A B} (m : M A) (k : A → M B) w Q :
  wp m w (λ r w1 evs1,
    match r with
    | Ret a => wp (k a) w1 (λ r2 w2 evs2, Q r2 w2 (evs1 ++ evs2))
    | Exit c => Q (Exit c) w1 evs1
    end) →
  wp (bind m k) w Q.
Proof.
  unfold wp. rewrite result_bind, world_bind, events_bind.
  destruct (result_of (m w)); [done|]. by rewrite app_nil_r.
Qed.

Lemma wp_mono {A} (m : M A) w (Q Q' : Res A → World Env → list Event → Prop) :
  wp m w Q → (∀ r w' evs, Q r w' evs → Q' r w' evs) → wp m w Q'.
Proof. unfold wp. auto. Qed.

Lemma replay_app w evs1 evs2 :
  replay w (evs1 ++ evs2) = replay (replay w evs1) evs2.
Proof. apply foldl_app. Qed.

Lemma behaves_bind {A B} P (m : M A) (k : A → M B) :
  behaves P m → (∀ a, behaves P (k a)) → behaves P (bind m k).
Proof.
  intros Hm Hk w. apply wp_bind. eapply wp_mono; [apply Hm|].
  intros [a|c] w1 evs1 (-> & He1); [|done].
  eapply wp_mono; [apply Hk|].
  intros r2 w2 evs2 (-> & He2).
  split; [by rewrite replay_app | by apply Forall_app].
Qed.

Lemma returns_bind {A B} (m : M A) (k : A → M B) :
  returns m → (∀ a, returns (k a)) → returns (bind m k).
Proof.
  intros Hm Hk w. rewrite result_bind. destruct (Hm w) as [a ->]. apply Hk.
Qed.

Lemma behaves_pure {A} P (m : M A) :
  (∀ w, world_of (m w) = w ∧ events_of (m w) = []) → behaves P m.
Proof. intros H w. unfold wp. destruct (H w) as [-> ->]. by split. Qed.

Lemma behaves_ret {A} P (a : A) : behaves P (ret a).
Proof. by apply behaves_pure. Qed.

Lemma behaves_sys_exit {A} P code : behaves P (@sys_exit Env A code).
Proof. by apply behaves_pure. Qed.

Lemma behaves_path_exists P path : behaves P (path_exists path).
Proof. by apply behaves_pure. Qed.

Lemma behaves_read_lines P path : behaves P (read_lines path).
Proof. by apply behaves_pure. Qed.

Lemma behaves_read_all P path : behaves P (read_all path).
Proof. by apply behaves_pure. Qed.

Lemma behaves_which P tool : behaves P (shutil_which tool).
Proof. by apply behaves_pure. Qed.

Lemma behaves_now P : behaves P datetime_now.
Proof. by apply behaves_pure. Qed.

Lemma behaves_print P m : P (EvPrint m) → behaves P (console_print m).
Proof. intros He w. unfold wp. run_cbn. split; [done | by constructor]. Qed.

Lemma behaves_makedirs P path : P (EvMakedirs path) → behaves P (makedirs path).
Proof.
  intros He w. unfold wp, makedirs.
  destruct (_ && _); proj_cbn; (split; [done|]); by repeat constructor.
Qed.

Lemma behaves_probe P cmd : P (EvProbe cmd) → behaves P (probe cmd).
Proof. intros He w. unfold wp. run_cbn. split; [done | by constructor]. Qed.

Lemma behaves_subprocess_run P step cmd :
  P (EvRun step cmd) → behaves P (subprocess_run step cmd).
Proof. intros He w. unfold wp. run_cbn. split; [done | by constructor]. Qed.

Lemma behaves_open_write P path mode data :
  P (EvOpen path mode data) → behaves P (open_write path mode data).
Proof. intros He w. unfold wp. run_cbn. split; [done | by constructor]. Qed.

Lemma behaves_impl {A} (P P' : Event → Prop) (m : M A) :
  (∀ ev, P ev → P' ev) → behaves P m → behaves P' m.
Proof.
  intros HP Hm w. eapply wp_mono; [apply Hm|].
  intros r w' evs (Hw & He). split; [done|].
  eapply Forall_impl; eauto.
Qed.

Lemma returns_ret {A} (a : A) : returns (@ret Env A a).
Proof. intros w. by exists a. Qed.

Lemma returns_prim {A} (m : M A) (f : World Env → A) :
  (∀ w, result_of (m w) = Ret (f w)) → returns m.
Proof. intros H w. by exists (f w). Qed.

End Effects.

(** Proves [behaves] for a computation built from the steps above. *)
Ltac behaves_step :=
  first
    [ apply behaves_bind; [|intros ?]
    | apply behaves_ret
    | apply behaves_sys_exit
    | apply behaves_print
    | apply behaves_makedirs
    | apply behaves_path_exists
    | apply behaves_read_lines
    | apply behaves_read_all
    | apply behaves_which
    | apply behaves_now
    | apply behaves_probe
    | apply behaves_subprocess_run
    | apply behaves_open_write
    | match goal with
      | |- behaves _ (if ?b then _ else _) => destruct b
      | |- behaves _ (match ?x with _ => _ end) => destruct x
      end ].

(** Proves [returns] likewise. *)
Ltac returns_step :=
  first
    [ apply returns_bind; [|intros ?]
    | apply returns_ret
    | by apply (returns_prim _ (λ _, tt))
    | by eapply returns_prim
    | match goal with
      | |- returns (if ?b then _ else _) => destruct b
      | |- returns (match ?x with _ => _ end) => destruct x
      end ].

(** ** The tool locator: [get_binary_path] and [check_tools] *)

Section ToolLocator.

Implicit Types (self : ReconPipeline) (w : World Env) (ev : Event)
  (evs : list Event).

Lemma first_usable_behaves P tool_name (possible_paths : list str) :
  (∀ ev, locator_probe ev → P ev) →
  behaves P (first_usable tool_name possible_paths).
Proof.
  intros HP. induction possible_paths as [|p rest IH]; cbn [first_usable].
  - apply behaves_ret.
  - repeat behaves_step; try done.
    apply HP. right. by eexists.
Qed.

Lemma get_binary_path_behaves P tool_name :
  (∀ ev, locator_probe ev → P ev) →
  behaves P (get_binary_path tool_name).
Proof.
  intros HP. unfold get_binary_path.
  apply behaves_bind; [apply behaves_probe, HP; by left|]. intros r.
  apply behaves_bind; [by apply first_usable_behaves|]. intros found.
  repeat behaves_step.
Qed.

Lemma missing_tools_behaves P (tools : list str) :
  (∀ ev, locator_probe ev → P ev) →
  behaves P (missing_tools tools).
Proof.
  intros HP. induction tools as [|tool rest IH]; cbn [missing_tools].
  - apply behaves_ret.
  - apply behaves_bind; [by apply get_binary_path_behaves|]. intros path.
    repeat behaves_step. done.
Qed.

Lemma first_usable_returns tool_name (possible_paths : list str) :
  returns (first_usable tool_name possible_paths).
Proof.
  induction possible_paths as [|p rest IH]; cbn [first_usable];
    repeat returns_step; done.
Qed.

Lemma get_binary_path_returns tool_name : returns (get_binary_path tool_name).
Proof.
  unfold get_binary_path.
  apply returns_bind; [by eapply returns_prim|]. intros r.
  apply returns_bind; [apply first_usable_returns|]. intros found.
  repeat returns_step.
Qed.

Lemma missing_tools_returns (tools : list str) : returns (missing_tools tools).
Proof.
  induction tools as [|tool rest IH]; cbn [missing_tools].
  - apply returns_ret.
  - apply returns_bind; [apply get_binary_path_returns|]. intros path.
    repeat returns_step. done.
Qed.

(** [check_tools] leaves the program with status 1 exactly when the loop
    over the required tools finds one missing. *)
Lemma check_tools_spec w :
  ∃ missing,
    result_of (missing_tools REQUIRED_TOOLS w) = Ret missing
    ∧ wp check_tools w (λ r w' evs,
        w' = replay w evs ∧ Forall check_event evs
        ∧ r = match missing with [] => Ret tt | _ :: _ => Exit 1 end).
Proof.
  pose proof (missing_tools_behaves check_event REQUIRED_TOOLS
                (λ ev H, or_introl H) w) as Hm.
  unfold wp in Hm. destruct Hm as (Hw & He).
  destruct (missing_tools_returns REQUIRED_TOOLS w) as [missing Hr].
  exists missing. split; [done|].
  unfold check_tools, wp. rewrite !result_bind, !world_bind, !events_bind.
  run_cbn. rewrite Hr.
  destruct missing as [|t missing]; run_cbn.
  - rewrite Hw. split_and!; [| |done].
    + unfold replay. cbn [foldl apply_event]. by rewrite foldl_app.
    + constructor; [by right; left|]. apply Forall_app. split; [done|].
      constructor; [|done]. by right; right; left.
  - rewrite Hw. split_and!; [| |done].
    + unfold replay. cbn [foldl apply_event]. by rewrite foldl_app.
    + constructor; [by right; left|]. apply Forall_app. split; [done|].
      constructor; [|done]. right; right; right. by eexists.
Qed.

Lemma check_tools_behaves P :
  (∀ ev, check_event ev → P ev) → behaves P check_tools.
Proof.
  intros HP. unfold check_tools.
  apply behaves_bind; [apply behaves_print, HP; by right; left|]. intros _.
  apply behaves_bind.
  { apply missing_tools_behaves. intros ev H. apply HP. by left. }
  intros missing. repeat behaves_step; apply HP.
  - by right; right; left.
  - right; right; right. by eexists.
Qed.

End ToolLocator.

(** ** The pipeline controller: [execute] *)

Section Controller.

Implicit Types (self : ReconPipeline) (w : World Env) (ev : Event)
  (evs : list Event) (step s : Stage) (m : Message).

Lemma upto_mono self s s' ev :
  (stage_index s ≤ stage_index s')%nat → upto self s ev → upto self s' ev.
Proof.
  intros Hle. destruct ev as [| | | path mode data | m]; cbn [upto]; try done.
  - lia.
  - intros (step & Hs & Hp). exists step. split; [lia | done].
  - intros [Hp Hs]. split; [done|]. intros step Hm. specialize (Hs step Hm). lia.
Qed.

Lemma check_event_upto self s ev : check_event ev → upto self s ev.
Proof.
  intros [[-> | [p ->]] | [-> | [-> | [missing ->]]]]; cbn [upto]; try done.
Qed.

Lemma locator_probe_upto self s ev : locator_probe ev → upto self s ev.
Proof. intros [-> | [p ->]]; done. Qed.

(** The check of the root domain, on a subdomains artifact that exists:
    the domain is appended, on a line of its own, exactly when the text of
    the artifact does not contain it; a domain that occurs inside a longer
    name is taken to be there. *)
Lemma ensure_root_domain_run self w d content :
  domain self = Some d →
  d ≠ [] →
  dry_run self = false →
  files w !! subfinder_out self = Some content →
  ensure_root_domain self w
  = let data := if contains (universal_newlines content) d then []
                else [LF] ++ d ++ [LF] in
    (Ret tt,
     mkWorld (<[subfinder_out self := content ++ data]> (files w)) (env w),
     [EvOpen (subfinder_out self) ModeAPlus data]).
Proof.
  intros Hd Hne Hdry Hfile. unfold ensure_root_domain, path_exists, read_all.
  rewrite Hd, Hdry. destruct d as [|c d]; [done|].
  run_cbn. rewrite Hfile.
  rewrite (bool_decide_eq_true_2 _ (mk_is_Some _ _ eq_refl)).
  run_cbn. rewrite Hfile. cbn [default from_option id].
  by destruct (contains _ _).
Qed.

Lemma ensure_root_domain_kept self w d content :
  domain self = Some d →
  d ≠ [] →
  dry_run self = false →
  files w !! subfinder_out self = Some content →
  contains (universal_newlines content) d = true →
  files (world_of (ensure_root_domain self w)) !! subfinder_out self
  = Some content.
Proof.
  intros Hd Hne Hdry Hfile Hc.
  rewrite (ensure_root_domain_run self w d content) by done.
  rewrite Hc. cbn [world_of fst snd files]. rewrite app_nil_r.
  apply lookup_insert_eq.
Qed.

Lemma run_command_behaves P self command step output_file append_output :
  (∀ m, msg_stage m = Some step ∨ m = MsgVersionConflict → P (EvPrint m)) →
  P (EvRun step command) →
  (∀ mode data, P (EvOpen (default [] output_file) mode data)) →
  behaves P (run_command self command step output_file append_output).
Proof.
  intros Hm Hr Ho. unfold run_command.
  repeat behaves_step; auto; apply Hm; cbn [msg_stage]; auto.
Qed.

Lemma ensure_root_domain_behaves P self :
  (∀ mode data, P (EvOpen (subfinder_out self) mode data)) →
  behaves P (ensure_root_domain self).
Proof. intros Ho. unfold ensure_root_domain. repeat behaves_step; auto. Qed.

Lemma ensure_root_domain_returns self :
  returns (ensure_root_domain self : M unit).
Proof. unfold ensure_root_domain. repeat returns_step. Qed.

Lemma ensure_root_domain_dry_run self w :
  dry_run self = true → ensure_root_domain self w = (Ret tt, w, []).
Proof.
  intros Hdry. unfold ensure_root_domain. rewrite Hdry. run_cbn.
  by rewrite andb_false_r.
Qed.

Lemma prepare_katana_input_behaves P self :
  (∀ mode data, P (EvOpen (katana_input_clean self) mode data)) →
  behaves P (prepare_katana_input self).
Proof. intros Ho. unfold prepare_katana_input. repeat behaves_step; auto. Qed.

Lemma prepare_katana_input_returns self :
  returns (prepare_katana_input self : M str).
Proof. unfold prepare_katana_input. repeat returns_step. Qed.

Lemma run_llm_advisory_behaves P self :
  P (EvPrint MsgGeneratingPrompt) →
  P (EvPrint (MsgPromptGenerated (prompt_file self))) →
  (∀ mode data, P (EvOpen (prompt_file self) mode data)) →
  behaves P (run_llm_advisory self).
Proof. intros H1 H2 Ho. unfold run_llm_advisory. repeat behaves_step; auto. Qed.

Lemma run_llm_advisory_returns self :
  returns (run_llm_advisory self : M unit).
Proof. unfold run_llm_advisory. repeat returns_step. Qed.

(** [bind] for a step that returns and behaves. *)
Lemma wp_behaves {A B} P (m : M A) (k : A → M B) w
    (Q : Res B → World Env → list Event → Prop) :
  behaves P m → returns m →
  (∀ a evs1, Forall P evs1 →
     wp (k a) (replay w evs1) (λ r w2 evs2, Q r w2 (evs1 ++ evs2))) →
  wp (bind m k) w Q.
Proof.
  intros Hb Hr Hk. apply wp_bind. unfold wp at 1.
  destruct (Hb w) as [Hw He]. destruct (Hr w) as [a Ha].
  rewrite Ha, Hw. by apply Hk.
Qed.

(** [bind] for a stage: the run stops there when it fails. *)
Lemma wp_stage P self command step output_file w (k : M Outcome)
    (Q : Res Outcome → World Env → list Event → Prop) :
  (∀ m, msg_stage m = Some step ∨ m = MsgVersionConflict → P (EvPrint m)) →
  P (EvRun step command) →
  (∀ mode data, P (EvOpen (default [] output_file) mode data)) →
  (∀ evs1 m, dry_run self = false → Forall P evs1 →
     last evs1 = Some (EvPrint m) → failure_message step m →
     Q (Ret (HaltedAt step)) (replay w evs1) (evs1 ++ [])) →
  (∀ evs1, Forall P evs1 →
     (dry_run self = true →
      evs1 = [EvPrint (MsgDryRun step (join (lit " ") command))]) →
     wp k (replay w evs1) (λ r w2 evs2, Q r w2 (evs1 ++ evs2))) →
  wp (bind (run_command self command step output_file false)
        (λ ok, if negb ok then ret (HaltedAt step) else k)) w Q.
Proof.
  intros Hm Hr Ho Hhalt Hcont. apply wp_bind. unfold wp at 1.
  destruct (run_command_behaves P self command step output_file false
              Hm Hr Ho w) as [Hw He].
  destruct (run_command_returns self command step output_file false w)
    as [ok Hok].
  rewrite Hok, Hw. destruct ok; cbn [negb].
  - apply Hcont; [done|]. intros Hdry.
    by rewrite run_command_dry_run.
  - destruct (run_command_failure _ _ _ _ _ _ Hok) as (Hdry & _ & m & Hf & Hev).
    unfold wp. run_cbn. apply (Hhalt _ m); [done | done | | done].
    by rewrite Hev.
Qed.

End Controller.

Section ControllerRuns.

Implicit Types (self : ReconPipeline) (w : World Env) (ev : Event)
  (evs : list Event) (step s : Stage) (m : Message).

Lemma last_app_r {A} (l1 l2 : list A) x :
  last l2 = Some x → last (l1 ++ l2) = Some x.
Proof. intros H. rewrite last_app. by rewrite H. Qed.

Lemma create_burp_file_behaves P self :
  dry_run self = false →
  P (EvPrint MsgGeneratingBurp) →
  (∀ mode data, P (EvOpen (burp_file self) mode data)) →
  behaves P (create_burp_file self).
Proof.
  intros Hdry H1 H2. unfold create_burp_file. rewrite Hdry.
  repeat behaves_step; auto.
Qed.

Lemma count_files_behaves P self (entries : list (str * str)) :
  behaves P (count_files self entries).
Proof.
  induction entries as [|[key filename] entries IH]; cbn [count_files];
    repeat behaves_step; done.
Qed.

Lemma generate_summary_behaves P self :
  P (EvPrint (MsgSummarySaved (summary_file self))) →
  (∀ mode data, P (EvOpen (summary_file self) mode data)) →
  behaves P (generate_summary self).
Proof.
  intros H1 H2. unfold generate_summary.
  destruct (dry_run self); [apply behaves_ret|].
  apply behaves_bind; [apply behaves_now|]. intros ts.
  apply behaves_bind; [apply count_files_behaves|]. intros counts.
  repeat behaves_step; auto.
Qed.

Lemma post_processing_behaves self :
  behaves (post_event self) (post_processing self).
Proof.
  unfold post_processing.
  apply behaves_bind.
  { destruct (dry_run self) eqn:Hdry; cbn [negb]; [apply behaves_ret|].
    apply create_burp_file_behaves; [done | done |].
    intros. cbn [post_event post_files]. apply elem_of_cons. by left. }
  intros burp. apply behaves_bind.
  { apply generate_summary_behaves; [done|].
    intros. cbn [post_event post_files]. apply elem_of_cons. right.
    apply elem_of_cons. by left. }
  intros _. apply behaves_bind.
  { destruct (llm_analysis self); [|apply behaves_ret].
    apply run_llm_advisory_behaves; [done | done |].
    intros. cbn [post_event post_files]. do 2 (apply elem_of_cons; right).
    apply elem_of_cons. by left. }
  intros _. repeat behaves_step. done.
Qed.

Lemma post_processing_spec self w :
  wp (post_processing self) w
    (λ r _ evs, r = Ret Finished ∧ stages_post self r evs).
Proof using All.
  unfold post_processing. apply wp_bind. unfold wp at 1.
  destruct (dry_run self) eqn:Hdry; cbn [negb].
  - unfold generate_summary, run_llm_advisory, wp. rewrite Hdry.
    destruct (llm_analysis self); run_cbn; cbn [stages_post];
      (split; [done|]); (split; [eauto | congruence]).
  - rewrite create_burp_file_run by done. proj_cbn.
    apply wp_bind. unfold wp at 1. rewrite generate_summary_run by done.
    proj_cbn.
    eapply (wp_behaves (λ _, True)).
    { destruct (llm_analysis self); [|apply behaves_ret].
      by apply run_llm_advisory_behaves. }
    { destruct (llm_analysis self);
        [apply run_llm_advisory_returns | apply returns_ret]. }
    intros _ evs1 _. unfold wp. run_cbn. cbn [stages_post].
    split; [done|]. split.
    + eexists _, _. by rewrite !last_cons, last_snoc.
    + intros _. split; eexists.
      * apply elem_of_cons. right. apply elem_of_cons. by left.
      * do 2 (apply elem_of_cons; right). apply elem_of_cons. by left.
Qed.

End ControllerRuns.

Section StagesSpec.

Implicit Types (self : ReconPipeline) (w : World Env) (ev : Event)
  (evs : list Event) (step s : Stage) (m : Message).

Lemma stage_message_upto self step s m :
  (stage_index step ≤ stage_index s)%nat →
  msg_stage m = Some step ∨ m = MsgVersionConflict →
  upto self s (EvPrint m).
Proof.
  intros Hle [Hm | ->]; cbn [upto].
  - split; [by destruct m|]. intros step' Hm'.
    rewrite Hm in Hm'. by injection Hm' as <-.
  - split; [done|]. by intros step' Hm'.
Qed.

Lemma stage_open_upto self step s path mode data :
  (stage_index step ≤ stage_index s)%nat →
  path ∈ stage_files self step →
  upto self s (EvOpen path mode data).
Proof. intros Hle Hin. cbn [upto]. by exists step. Qed.

Lemma stages_post_finished_prefix self pre evs :
  stages_post self (Ret Finished) evs →
  stages_post self (Ret Finished) (pre ++ evs).
Proof.
  cbn [stages_post]. intros [(prx & burp & Hl) Hw]. split.
  - eexists _, _. by apply last_app_r.
  - intros Hdry. destruct (Hw Hdry) as [[d1 H1] [d2 H2]].
    split; eexists; apply elem_of_app; right; eassumption.
Qed.

End StagesSpec.

(** The effects of the pieces of a run all belong to the part up to the
    stage at hand. *)
Ltac upto_pieces :=
  lazymatch goal with
  | |- _ ∧ _ => split; upto_pieces
  | |- Forall _ [] => by constructor
  | |- Forall _ _ =>
      eapply Forall_impl; [eassumption|];
      intros ? ?; eapply upto_mono; [|eassumption];
      cbn [stage_index]; lia
  end.

(** Closes the case of a run that stops at a failed stage. *)
Ltac halt_leaf :=
  cbv beta; cbn [stages_post];
  split; [done|];
  split;
  [ rewrite ?Forall_app; upto_pieces
  | eexists; split;
    [ rewrite app_nil_r; repeat apply last_app_r; eassumption
    | assumption ] ].

(** The side conditions of a stage: its messages, its process and its
    output file belong to it. *)
Ltac stage_side :=
  first
    [ intros ? ?; eapply stage_message_upto; [|eassumption];
      cbn [stage_index]; lia
    | intros ? ?; cbn [default from_option id];
      match goal with
      | |- upto _ ?s (EvOpen _ _ _) => apply (stage_open_upto _ s)
      end;
      [ cbn [stage_index]; lia
      | cbn [stage_files]; repeat first [ apply list_elem_of_here
                                        | apply list_elem_of_further ] ]
    | cbn [upto stage_index]; lia ].

Section StagesRun.

Implicit Types (self : ReconPipeline) (w : World Env).

Lemma run_stages_spec self b1 b2 b3 b4 b5 w :
  wp (run_stages self b1 b2 b3 b4 b5) w (λ r _ evs, stages_post self r evs).
Proof using All.
  unfold run_stages.
  apply (wp_stage (upto self Subfinder)); [stage_side | stage_side | stage_side | |].
  { intros. halt_leaf. }
  intros e1 He1 _.
  apply (wp_behaves (upto self Subfinder));
    [apply ensure_root_domain_behaves; stage_side
    | apply ensure_root_domain_returns |].
  intros _ e2 He2.
  apply (wp_stage (upto self DNSx)); [stage_side | stage_side | stage_side | |].
  { intros. halt_leaf. }
  intros e3 He3 _.
  apply (wp_stage (upto self Naabu)); [stage_side | stage_side | stage_side | |].
  { intros. halt_leaf. }
  intros e4 He4 _.
  apply (wp_stage (upto self HTTPx)); [stage_side | stage_side | stage_side | |].
  { intros. halt_leaf. }
  intros e5 He5 _.
  apply (wp_behaves (upto self Katana));
    [apply prepare_katana_input_behaves; stage_side
    | apply prepare_katana_input_returns |].
  intros katana_input e6 He6.
  apply (wp_stage (upto self Katana)); [stage_side | stage_side | stage_side | |].
  { intros. halt_leaf. }
  intros e7 He7 _.
  eapply wp_mono; [apply post_processing_spec|].
  cbv beta. intros r w' evs [-> Hpost].
  by do 7 apply stages_post_finished_prefix.
Qed.

End StagesRun.

(** ** Whole runs *)

Section WholeRuns.

Implicit Types (self : ReconPipeline) (w : World Env) (ev : Event)
  (evs : list Event) (step s : Stage) (m : Message).

Lemma execute_spec self w :
  ∃ missing,
    result_of (missing_tools REQUIRED_TOOLS w) = Ret missing
    ∧ wp (execute self) w (λ r _ evs, execute_post self missing r evs).
Proof.
  destruct (check_tools_spec w) as (missing & Hm & Hct).
  exists missing. split; [done|].
  unfold execute. apply wp_bind. eapply wp_mono; [apply Hct|].
  cbv beta. intros r w1 e0 (-> & He0 & ->).
  destruct missing as [|tool missing]; [|by cbn].
  assert (Forall (upto self Subfinder) e0) as Hu0
    by (eapply Forall_impl; [done|]; intros; by apply check_event_upto).
  apply (wp_behaves (upto self Subfinder));
    [by apply behaves_print | by apply (returns_prim _ (λ _, tt)) |].
  intros _ e1 He1.
  do 5 (apply (wp_behaves (upto self Subfinder));
        [ apply get_binary_path_behaves; intros; by apply locator_probe_upto
        | apply get_binary_path_returns
        | intros ? ? ? ]).
  eapply wp_mono; [apply run_stages_spec|].
  cbv beta. intros [[s|]|c] _ evs Hpost; cbn [execute_post]; [| |done].
  - split; [done|]. destruct Hpost as (Hdry & Hf & m & Hl & Hfm).
    cbn [stages_post]. split; [done|]. split.
    + rewrite ?Forall_app. destruct s; upto_pieces.
    + exists m. split; [|done]. by repeat apply last_app_r.
  - split; [done|]. by do 7 apply stages_post_finished_prefix.
Qed.

Lemma init_run self w :
  init self w
  = if directory_ready self w
    then (Ret true, w,
          if dry_run self then [] else [EvMakedirs (output_dir self)])
    else (Ret false, w, []).
Proof.
  unfold init, directory_ready, makedirs.
  destruct (dry_run self); [done|]. cbn [negb orb].
  by destruct (_ && _).
Qed.

(** [main] is [execute] after the output directory is made. *)
Lemma main_run self w :
  directory_ready self w = true →
  result_of (main self w) = ran (result_of (execute self w))
  ∧ world_of (main self w) = world_of (execute self w)
  ∧ events_of (main self w)
    = (if dry_run self then [] else [EvMakedirs (output_dir self)])
      ++ events_of (execute self w).
Proof.
  intros Hready. unfold main.
  rewrite !result_bind, !world_bind, !events_bind, init_run, Hready.
  proj_cbn. rewrite !result_bind, !world_bind, !events_bind.
  destruct (result_of (execute self w)); cbn [ran]; by rewrite ?app_nil_r.
Qed.

(** When the output directory cannot be made, nothing else happens. *)
Lemma main_crash self w :
  directory_ready self w = false → main self w = (Ret None, w, []).
Proof.
  intros Hready. unfold main, bind. by rewrite init_run, Hready.
Qed.

End WholeRuns.

(** ** What a run leaves alone *)

Section Frame.

Implicit Types (self : ReconPipeline) (w : World Env) (ev : Event)
  (evs : list Event) (path : str).

(** A file that no effect of a run opens for writing, and that the child
    processes leave alone, is after the run what it was before. *)
Lemma replay_frame path evs w :
  (∀ cmd w0, files (spawn cmd w0).2 !! path = files w0 !! path) →
  (∀ mode data, EvOpen path mode data ∉ evs) →
  files (replay w evs) !! path = files w !! path.
Proof.
  intros Hspawn. revert w. unfold replay.
  induction evs as [|ev evs IH]; intros w Hopen; [done|].
  cbn [foldl]. rewrite IH.
  - destruct ev as [d | cmd | step cmd | p mode data | m]; cbn [apply_event];
      try done.
    unfold write_file. cbn [files]. apply lookup_insert_ne.
    intros ->. apply (Hopen mode data). by left.
  - intros mode data Hin. apply (Hopen mode data). by right.
Qed.

Lemma post_processing_any self : behaves (λ _, True) (post_processing self).
Proof.
  eapply behaves_impl; [|apply post_processing_behaves]. done.
Qed.

Lemma run_stages_behaves self b1 b2 b3 b4 b5 :
  behaves (λ _, True) (run_stages self b1 b2 b3 b4 b5).
Proof.
  unfold run_stages.
  repeat first
    [ apply post_processing_any
    | apply run_command_behaves; done
    | apply ensure_root_domain_behaves; done
    | apply prepare_katana_input_behaves; done
    | behaves_step ].
Qed.

(** The machine after a run is the machine before it, changed by the
    effects of the run in their order. *)
Lemma main_behaves self : behaves (λ _, True) (main self).
Proof.
  unfold main, init, execute.
  repeat first
    [ apply run_stages_behaves
    | apply check_tools_behaves; done
    | apply get_binary_path_behaves; done
    | behaves_step; try done ].
Qed.

Lemma execute_behaves self : behaves (λ _, True) (execute self).
Proof.
  unfold execute.
  repeat first
    [ apply run_stages_behaves
    | apply check_tools_behaves; done
    | apply get_binary_path_behaves; done
    | behaves_step; try done ].
Qed.

End Frame.

(** ** The paths of the artifacts *)

Section Paths.

Implicit Types (self : ReconPipeline) (d a b path : str) (step s : Stage).

(** Two file names give two paths in one directory. *)
Lemma path_join_inj d a b :
  startswith a (lit "/") = false → startswith b (lit "/") = false →
  path_join d a = path_join d b → a = b.
Proof.
  unfold path_join. intros -> ->.
  destruct (negb (truthy d) || startswith (reverse d) (lit "/")).
  - apply app_inv_head.
  - intros H%app_inv_head. by apply app_inv_head in H.
Qed.

Lemma path_join_nonempty d a :
  a ≠ [] → startswith a (lit "/") = false → path_join d a ≠ [].
Proof.
  unfold path_join. intros Ha ->.
  destruct (negb (truthy d) || startswith (reverse d) (lit "/"));
    intros H%app_eq_nil; destruct H as [_ H]; [done|].
  by apply app_eq_nil in H as [H _].
Qed.

(** The nine files of the output directory are nine different paths. *)
Lemma artifact_paths_distinct self :
  NoDup (path_join (output_dir self) <$> artifact_names).
Proof.
  apply NoDup_fmap_2_strong.
  - intros a b Ha Hb. apply path_join_inj.
    + revert Ha. unfold artifact_names. rewrite !elem_of_cons, elem_of_nil.
      intros H; repeat destruct H as [-> | H]; done.
    + revert Hb. unfold artifact_names. rewrite !elem_of_cons, elem_of_nil.
      intros H; repeat destruct H as [-> | H]; done.
  - apply (bool_decide_unpack _). vm_compute. exact I.
Qed.

(** The position of each file among the nine. *)
Lemma stage_files_lookup self step path :
  path ∈ stage_files self step →
  ∃ i, (path_join (output_dir self) <$> artifact_names) !! i = Some path
       ∧ match step with
         | Subfinder => i = 0 | DNSx => i = 1 | Naabu => i = 2 | HTTPx => i = 3
         | Katana => i = 4 ∨ i = 5
         end%nat.
Proof.
  destruct step; cbn [stage_files]; rewrite ?elem_of_cons, elem_of_nil;
    intros H; repeat destruct H as [-> | H]; try done.
  - by exists 0%nat.
  - by exists 1%nat.
  - by exists 2%nat.
  - by exists 3%nat.
  - exists 4%nat. auto.
  - exists 5%nat. auto.
Qed.

Lemma post_files_lookup self path :
  path ∈ post_files self →
  ∃ i, (path_join (output_dir self) <$> artifact_names) !! i = Some path
       ∧ (6 ≤ i)%nat.
Proof.
  unfold post_files. rewrite !elem_of_cons, elem_of_nil.
  intros H; repeat destruct H as [-> | H]; try done.
  - exists 6%nat. split; [done | lia].
  - exists 7%nat. split; [done | lia].
  - exists 8%nat. split; [done | lia].
Qed.

(** A file of one stage is not a file of another stage. *)
Lemma stage_files_disjoint self step step' path :
  path ∈ stage_files self step → path ∈ stage_files self step' →
  step = step'.
Proof.
  intros (i & Hi & Hs)%stage_files_lookup (j & Hj & Hs')%stage_files_lookup.
  pose proof (NoDup_lookup _ i j path (artifact_paths_distinct self) Hi Hj).
  destruct step, step'; try done; lia.
Qed.

(** A file of a stage is not written after the last stage. *)
Lemma stage_files_not_post self step path :
  path ∈ stage_files self step → path ∉ post_files self.
Proof.
  intros (i & Hi & Hs)%stage_files_lookup (j & Hj & Hs')%post_files_lookup.
  pose proof (NoDup_lookup _ i j path (artifact_paths_distinct self) Hi Hj).
  destruct step; lia.
Qed.

End Paths.

(** ** Short circuit and exit status *)

Section ShortCircuit.

Implicit Types (self : ReconPipeline) (w : World Env) (step s : Stage).

(** What a run of [execute] that stopped at stage [s] did: the message
    of the failure came last, no process of a later stage was started,
    every file opened for writing is a file of a stage up to [s], and no
    message of the steps after the last stage was printed.  A file that
    is not one of a stage up to [s], and that the child processes leave
    alone, is after the run what it was before. *)
Lemma halted_run_effects self w s :
  result_of (execute self w) = Ret (HaltedAt s) →
  dry_run self = false
  ∧ (∃ m, last (events_of (execute self w)) = Some (EvPrint m)
          ∧ failure_message s m)
  ∧ (∀ step cmd, EvRun step cmd ∈ events_of (execute self w) →
       (stage_index step ≤ stage_index s)%nat)
  ∧ (∀ path mode data, EvOpen path mode data ∈ events_of (execute self w) →
       (∃ step, (stage_index step ≤ stage_index s)%nat
                ∧ path ∈ stage_files self step)
       ∧ (∀ step, (stage_index s < stage_index step)%nat →
                  path ∉ stage_files self step)
       ∧ path ∉ post_files self)
  ∧ (∀ m, EvPrint m ∈ events_of (execute self w) →
       is_post_message m = false
       ∧ ∀ step, msg_stage m = Some step →
                 (stage_index step ≤ stage_index s)%nat)
  ∧ (∀ path,
       (∀ step, (stage_index step ≤ stage_index s)%nat →
                path ∉ stage_files self step) →
       (∀ cmd w0, files (spawn cmd w0).2 !! path = files w0 !! path) →
       files (world_of (execute self w)) !! path = files w !! path).
Proof.
  intros Hres. destruct (execute_spec self w) as (missing & _ & Hspec).
  unfold wp in Hspec. rewrite Hres in Hspec.
  destruct Hspec as (_ & Hdry & Hall & Hlast).
  rewrite Forall_forall in Hall.
  split_and!; [done | done | | | |].
  - intros step cmd Hin. apply (Hall _ Hin).
  - intros path mode data Hin.
    destruct (Hall _ Hin) as (step & Hle & Hpath).
    split_and!.
    + by exists step.
    + intros step' Hlt Hin'.
      pose proof (stage_files_disjoint _ _ _ _ Hpath Hin') as ->. lia.
    + by eapply stage_files_not_post.
  - intros m Hin. apply (Hall _ Hin).
  - intros path Hnot Hspawn.
    destruct (execute_behaves self w) as [-> _].
    apply replay_frame; [done|]. intros mode data Hin.
    destruct (Hall _ Hin) as (step & Hle & Hpath). by apply (Hnot step).
Qed.

End ShortCircuit.

(** ** Dry-run mode *)

Section DryRun.

Implicit Types (self : ReconPipeline) (w : World Env) (ev : Event)
  (evs : list Event).

(** In dry-run mode the five stages report their commands one after the
    other, and the closing panel follows; the machine is left as it was. *)
Lemma run_stages_dry_run self b1 b2 b3 b4 b5 w :
  dry_run self = true →
  run_stages self b1 b2 b3 b4 b5 w
  = (Ret Finished, w,
     [EvPrint (MsgDryRun Subfinder (join (lit " ") (cmd_sub self b1)));
      EvPrint (MsgDryRun DNSx (join (lit " ") (cmd_dnsx self b2)));
      EvPrint (MsgDryRun Naabu (join (lit " ") (cmd_naabu self b3)));
      EvPrint (MsgDryRun HTTPx (join (lit " ") (cmd_httpx self b4)));
      EvPrint (MsgDryRun Katana
                 (join (lit " ") (cmd_katana self b5 (httpx_file self))));
      EvPrint (MsgDone (if truthy_opt (proxy self) then proxy self else None)
                 None)]).
Proof.
  intros Hdry.
  unfold run_stages, post_processing, run_command, ensure_root_domain,
    prepare_katana_input, generate_summary, run_llm_advisory.
  rewrite Hdry. run_cbn. rewrite andb_false_r.
  by destruct (llm_analysis self).
Qed.

Lemma execute_dry_run_behaves self :
  dry_run self = true → behaves dry_event (execute self).
Proof.
  intros Hdry. unfold execute.
  apply behaves_bind.
  { apply check_tools_behaves.
    intros ev [H | [-> | [-> | [ms ->]]]];
      [by right | left; by eexists ..]. }
  intros _. apply behaves_bind; [apply behaves_print; left; by eexists|].
  intros _.
  do 5 (apply behaves_bind;
        [apply get_binary_path_behaves; intros; by right | intros ?]).
  intros w. unfold wp. rewrite run_stages_dry_run by done. proj_cbn.
  split; [done|].
  repeat (apply Forall_cons_2; [left; by eexists|]). by apply Forall_nil_2.
Qed.





End DryRun.

(** ** The candidates of the result normalizer *)

Section Candidates.

Implicit Types (self : ReconPipeline) (w : World Env) (u line : str).

(** C4, as the program has it.  From a line of the http-services artifact
    the result normalizer takes the field before the first space
    character, the whole line when it has none, and trims the white space
    around it; from a line of the crawl artifact it trims the white space
    around the line.  A candidate is kept exactly when it begins with
    [http].  From the line [https://a.example [200] [nginx]] it takes
    [https://a.example]. *)
Theorem candidate_extraction :
  (∀ line, ∃ field rest l r,
     line = field ++ rest
     ∧ (SPACE ∉ field)
     ∧ (rest = [] ∨ (∃ rest', rest = SPACE :: rest'))
     ∧ field = l ++ clean_httpx_line line ++ r
     ∧ Forall (λ c, is_space c = true) l
     ∧ Forall (λ c, is_space c = true) r
     ∧ (∀ c, head (clean_httpx_line line) = Some c → is_space c = false)
     ∧ (∀ c, last (clean_httpx_line line) = Some c → is_space c = false))
  ∧ (∀ line, ∃ l r,
       line = l ++ strip line ++ r
       ∧ Forall (λ c, is_space c = true) l
       ∧ Forall (λ c, is_space c = true) r
       ∧ (∀ c, head (strip line) = Some c → is_space c = false)
       ∧ (∀ c, last (strip line) = Some c → is_space c = false))
  ∧ (∀ u, startswith u (lit "http") = true ↔ ∃ t, u = lit "http" ++ t)
  ∧ (∀ self w u,
       u ∈ unique_urls_of self w ↔
       (∃ content line,
          files w !! httpx_file self = Some content
          ∧ line ∈ readlines content
          ∧ u = clean_httpx_line line ∧ startswith u (lit "http") = true)
       ∨ (∃ content line,
            files w !! katana_file self = Some content
            ∧ line ∈ readlines content
            ∧ u = strip line ∧ startswith u (lit "http") = true))
  ∧ clean_httpx_line (lit "https://a.example [200] [nginx]")
    = lit "https://a.example".
Proof.
  split_and!.
  - intros line. destruct (item0_split_on SPACE line) as (rest & Hl & Hn & Hr).
    destruct (strip_split (item0 (split_on SPACE line))) as (l & r & Hf & Hsl & Hsr).
    exists (item0 (split_on SPACE line)), rest, l, r.
    split_and!; try done.
    + apply strip_head.
    + apply strip_last.
  - intros line. destruct (strip_split line) as (l & r & Hf & Hsl & Hsr).
    exists l, r. split_and!; try done.
    + apply strip_head.
    + apply strip_last.
  - intros u. apply startswith_prefix.
  - intros self w u. apply elem_of_unique_urls.
  - by vm_compute.
Qed.

End Candidates.

(** ** Further facts about text *)

Section MoreTextFacts.

Implicit Types (s t p line u : str) (c : char).

Lemma lstrip_id s :
  (∀ c, head s = Some c → is_space c = false) → lstrip s = s.
Proof.
  destruct s as [|c s]; [done|]. intros H. simpl. by rewrite (H c).
Qed.

Lemma rstrip_id s :
  (∀ c, last s = Some c → is_space c = false) → rstrip s = s.
Proof.
  intros H. unfold rstrip. rewrite lstrip_id.
  - apply reverse_involutive.
  - intros c. rewrite head_reverse. apply H.
Qed.

(** Trimming twice is trimming once. *)
Lemma strip_strip s : strip (strip s) = strip s.
Proof.
  unfold strip at 1. rewrite lstrip_id by apply strip_head.
  apply rstrip_id, strip_last.
Qed.

Lemma item0_split_on_id sep s : sep ∉ s → item0 (split_on sep s) = s.
Proof.
  intros Hs. destruct (item0_split_on sep s) as (rest & Heq & _ & [-> | [r ->]]).
  - by rewrite app_nil_r in Heq.
  - exfalso. apply Hs. rewrite Heq, elem_of_app. right. by left.
Qed.

Lemma clean_httpx_line_no_space line : SPACE ∉ clean_httpx_line line.
Proof.
  unfold clean_httpx_line. intros H%elem_of_strip.
  by destruct (item0_split_on SPACE line) as (rest & _ & Hn & _).
Qed.

(** A cleaned line is clean. *)
Lemma clean_httpx_line_idemp line :
  clean_httpx_line (clean_httpx_line line) = clean_httpx_line line.
Proof.
  unfold clean_httpx_line at 1.
  rewrite item0_split_on_id by apply clean_httpx_line_no_space.
  apply strip_strip.
Qed.

Lemma clean_httpx_line_one_line content line :
  line ∈ readlines content →
  (LF ∉ clean_httpx_line line) ∧ (CR ∉ clean_httpx_line line).
Proof.
  intros Hl. destruct (readlines_shape _ _ Hl) as (Hlf & Hcr & _).
  destruct (item0_split_on SPACE line) as (rest & Hline & _).
  split; [eapply strip_prefix_no_LF | eapply strip_prefix_no_CR]; done.
Qed.

(** Universal newlines and the cutting into lines, across a line feed. *)
Lemma universal_newlines_app_LF_aux p :
  (∀ t, universal_newlines (p ++ LF :: t)
        = universal_newlines (p ++ [LF]) ++ universal_newlines t)
  ∧ (∀ c t, universal_newlines (c :: p ++ LF :: t)
            = universal_newlines (c :: p ++ [LF]) ++ universal_newlines t).
Proof.
  induction p as [|d p [IH1 IH2]].
  - split; [done|]. intros c t. cbn [app universal_newlines].
    destruct (c =? CR); done.
  - split; [apply IH2|]. intros c t.
    change (universal_newlines (c :: (d :: p) ++ LF :: t)) with
      (if c =? CR then
         if d =? LF then LF :: universal_newlines (p ++ LF :: t)
         else LF :: universal_newlines (d :: p ++ LF :: t)
       else c :: universal_newlines (d :: p ++ LF :: t)).
    change (universal_newlines (c :: (d :: p) ++ [LF])) with
      (if c =? CR then
         if d =? LF then LF :: universal_newlines (p ++ [LF])
         else LF :: universal_newlines (d :: p ++ [LF])
       else c :: universal_newlines (d :: p ++ [LF])).
    destruct (c =? CR); [destruct (d =? LF)|].
    + by rewrite (IH1 t).
    + by rewrite (IH2 d t).
    + by rewrite (IH2 d t).
Qed.

Lemma universal_newlines_app_LF p t :
  universal_newlines (p ++ LF :: t)
  = universal_newlines (p ++ [LF]) ++ universal_newlines t.
Proof. apply universal_newlines_app_LF_aux. Qed.

Lemma universal_newlines_snoc_LF_aux p :
  (∃ q, universal_newlines (p ++ [LF]) = q ++ [LF])
  ∧ (∀ c, ∃ q, universal_newlines (c :: p ++ [LF]) = q ++ [LF]).
Proof.
  induction p as [|d p [[q1 IH1] IH2]].
  - split; [by exists []|]. intros c. cbn [app universal_newlines].
    destruct (c =? CR); [by exists [] | by exists [c]].
  - split; [apply IH2|]. intros c.
    change (universal_newlines (c :: (d :: p) ++ [LF])) with
      (if c =? CR then
         if d =? LF then LF :: universal_newlines (p ++ [LF])
         else LF :: universal_newlines (d :: p ++ [LF])
       else c :: universal_newlines (d :: p ++ [LF])).
    destruct (IH2 d) as [q2 Hq2].
    destruct (c =? CR); [destruct (d =? LF)|].
    + exists (LF :: q1). by rewrite IH1.
    + exists (LF :: q2). by rewrite Hq2.
    + exists (c :: q2). by rewrite Hq2.
Qed.

Lemma split_lines_app_after_LF p t :
  split_lines (p ++ LF :: t) = split_lines (p ++ [LF]) ++ split_lines t.
Proof.
  induction p as [|c p IH]; [done|].
  cbn [app split_lines]. destruct (c =? LF); [by rewrite IH|].
  rewrite IH. destruct (split_lines (p ++ [LF])) as [|l ls] eqn:E; [|done].
  exfalso. assert (concat (split_lines (p ++ [LF])) = p ++ [LF]) as Hc
    by apply concat_split_lines.
  rewrite E in Hc. by destruct p.
Qed.

(** The lines of a text that goes on after a line feed: those up to the
    line feed, then those after it. *)
Lemma readlines_app_LF p t :
  readlines (p ++ LF :: t) = readlines (p ++ [LF]) ++ readlines t.
Proof.
  unfold readlines. rewrite universal_newlines_app_LF.
  destruct (universal_newlines_snoc_LF_aux p) as [[q Hq] _].
  rewrite Hq, <- app_assoc. cbn [app].
  by rewrite split_lines_app_after_LF.
Qed.

Lemma readlines_one_line u :
  LF ∉ u → CR ∉ u → readlines (u ++ [LF]) = [u ++ [LF]].
Proof.
  intros Hlf Hcr. unfold readlines. rewrite universal_newlines_id.
  - by rewrite split_lines_app_LF.
  - rewrite elem_of_app, list_elem_of_singleton. by intros [|].
Qed.

End MoreTextFacts.

(** ** The check of the root domain *)

Section RootDomain.

Implicit Types (self : ReconPipeline) (w : World Env) (d content : str).

Lemma contains_appended content d :
  CR ∉ d →
  contains (universal_newlines (content ++ [LF] ++ d ++ [LF])) d = true.
Proof.
  intros Hcr. cbn [app]. rewrite universal_newlines_app_LF.
  rewrite (universal_newlines_id (d ++ [LF])).
  - apply contains_infix. by eexists _, [LF].
  - rewrite elem_of_app, list_elem_of_singleton. by intros [|].
Qed.

(** X1. Outside dry-run mode, for a domain [d] that is not empty and holds
    no carriage return, the check of the root domain leaves a subdomains
    artifact whose text contains [d]: the artifact is left as it was, or
    [d] was appended to it on a line of its own.  A second check then
    appends nothing and leaves the machine as it is. *)
Theorem root_domain_check_settles self w d content :
  domain self = Some d →
  d ≠ [] →
  CR ∉ d →
  dry_run self = false →
  files w !! subfinder_out self = Some content →
  ∃ content1,
    files (world_of (ensure_root_domain self w)) !! subfinder_out self
      = Some content1
    ∧ (content1 = content ∨ content1 = content ++ [LF] ++ d ++ [LF])
    ∧ contains (universal_newlines content1) d = true
    ∧ ensure_root_domain self (world_of (ensure_root_domain self w))
      = (Ret tt, world_of (ensure_root_domain self w),
         [EvOpen (subfinder_out self) ModeAPlus []]).
Proof.
  intros Hd Hne Hcr Hdry Hfile.
  rewrite (ensure_root_domain_run self w d content) by done.
  cbv zeta. cbn [world_of fst snd].
  set (data := if contains (universal_newlines content) d then []
               else [LF] ++ d ++ [LF]).
  assert (contains (universal_newlines (content ++ data)) d = true) as Hc.
  { subst data. destruct (contains (universal_newlines content) d) eqn:E.
    - by rewrite app_nil_r.
    - by apply contains_appended. }
  exists (content ++ data). split_and!.
  - cbn [files]. apply lookup_insert_eq.
  - subst data. destruct (contains (universal_newlines content) d);
      [left; by rewrite app_nil_r | by right].
  - done.
  - rewrite (ensure_root_domain_run self _ d (content ++ data));
      [|done|done|done|cbn [files]; apply lookup_insert_eq].
    cbv zeta. rewrite Hc, app_nil_r. cbn [files env].
    by rewrite insert_insert_eq.
Qed.

(** X2. Outside dry-run mode, when the text of the subdomains artifact
    does not contain the domain [d] (not empty, on one line), the check
    appends a line feed, [d] and a line feed: [d] becomes the last line of
    the artifact.  When the artifact is empty or ends with a line feed, as
    the stage runner leaves it, the lines it had are followed by a blank
    line and by [d]. *)
Theorem root_domain_appended_last self w d content :
  domain self = Some d →
  d ≠ [] →
  LF ∉ d →
  CR ∉ d →
  dry_run self = false →
  files w !! subfinder_out self = Some content →
  contains (universal_newlines content) d = false →
  files (world_of (ensure_root_domain self w)) !! subfinder_out self
    = Some (content ++ [LF] ++ d ++ [LF])
  ∧ last (artifact_lines (content ++ [LF] ++ d ++ [LF])) = Some d
  ∧ (content = [] ∨ last content = Some LF →
     artifact_lines (content ++ [LF] ++ d ++ [LF])
     = artifact_lines content ++ [[]; d]).
Proof.
  intros Hd Hne Hlf Hcr Hdry Hfile Hc.
  rewrite (ensure_root_domain_run self w d content) by done.
  cbv zeta. rewrite Hc. cbn [world_of fst snd files].
  assert (artifact_lines (content ++ [LF] ++ d ++ [LF])
          = artifact_lines (content ++ [LF]) ++ [d]) as Hlines.
  { unfold artifact_lines. cbn [app]. rewrite readlines_app_LF.
    rewrite (readlines_one_line d) by done.
    by rewrite fmap_app, fmap_cons, chomp_snoc. }
  split_and!.
  - apply lookup_insert_eq.
  - rewrite Hlines. apply last_snoc.
  - rewrite Hlines. intros [-> | [p ->]%last_Some].
    + done.
    + rewrite <- (app_assoc p [LF] [LF]). cbn [app].
      unfold artifact_lines. rewrite readlines_app_LF.
      rewrite fmap_app, <- app_assoc. done.
Qed.

End RootDomain.

(** ** The input of Katana *)

Section KatanaInput.

Implicit Types (self : ReconPipeline) (w : World Env) (u line content : str).

Lemma prepare_katana_input_run self w content :
  dry_run self = false →
  files w !! httpx_file self = Some content →
  prepare_katana_input self w
  = (Ret (katana_input_clean self),
     mkWorld (<[katana_input_clean self
                := write_lines (katana_input_lines content)]> (files w))
       (env w),
     [EvOpen (katana_input_clean self) ModeW
        (write_lines (katana_input_lines content))]).
Proof.
  intros Hdry Hf. unfold prepare_katana_input. rewrite Hdry.
  run_cbn. by rewrite Hf.
Qed.

Lemma elem_of_katana_input_lines content u :
  u ∈ katana_input_lines content ↔
  u ≠ [] ∧ ∃ line, line ∈ readlines content ∧ u = clean_httpx_line line.
Proof.
  unfold katana_input_lines.
  rewrite list_elem_of_filter, list_elem_of_fmap. split.
  - intros [Hu (line & -> & Hl)]. split; [by intros E; rewrite E in Hu|].
    by exists line.
  - intros [Hu (line & Hl & ->)]. split; [|by exists line].
    by destruct (clean_httpx_line line).
Qed.

(** X3. The input file of Katana.  In dry-run mode, or when [httpx.txt]
    does not exist, nothing is written and Katana is pointed at
    [httpx.txt].  Otherwise Katana is pointed at the cleaned file, which
    is written anew and no other file changes: its lines are the first
    fields of the lines of [httpx.txt], trimmed, in the order of the file,
    without the empty ones.  None of them is empty or holds a space, each
    is left as it is by the cleaning, and every URL the result normalizer
    keeps from [httpx.txt] is among them. *)
Theorem katana_input_prepared self w :
  (dry_run self = true ∨ files w !! httpx_file self = None →
   prepare_katana_input self w = (Ret (httpx_file self), w, []))
  ∧ (dry_run self = false →
     ∀ content,
       files w !! httpx_file self = Some content →
       result_of (prepare_katana_input self w) = Ret (katana_input_clean self)
       ∧ (∃ text,
            files (world_of (prepare_katana_input self w))
              !! katana_input_clean self = Some text
            ∧ artifact_lines text = katana_input_lines content)
       ∧ (∀ p, p ≠ katana_input_clean self →
               files (world_of (prepare_katana_input self w)) !! p
               = files w !! p)
       ∧ katana_input_lines content
           `sublist_of` (clean_httpx_line <$> readlines content)
       ∧ Forall (λ u, u ≠ [] ∧ (SPACE ∉ u) ∧ clean_httpx_line u = u)
           (katana_input_lines content)
       ∧ (∀ u, kept_from_httpx (Some content) u →
               u ∈ katana_input_lines content)).
Proof.
  split.
  - unfold prepare_katana_input. intros [-> | Hf]; [done|].
    destruct (dry_run self); [done|]. run_cbn. by rewrite Hf.
  - intros Hdry content Hf.
    rewrite (prepare_katana_input_run self w content) by done.
    cbn [result_of world_of fst snd files]. split_and!.
    + done.
    + eexists. split; [apply lookup_insert_eq|].
      apply artifact_lines_write_lines, Forall_forall.
      intros u (_ & line & Hl & ->)%elem_of_katana_input_lines.
      by eapply clean_httpx_line_one_line.
    + intros p Hp. by apply lookup_insert_ne.
    + apply sublist_filter.
    + apply Forall_forall.
      intros u (Hu & line & Hl & ->)%elem_of_katana_input_lines.
      split_and!; [done | apply clean_httpx_line_no_space
                  | apply clean_httpx_line_idemp].
    + intros u (c & line & [= <-] & Hl & -> & Hs).
      apply elem_of_katana_input_lines. split; [|by exists line].
      intros E. by rewrite E in Hs.
Qed.

End KatanaInput.

(** ** Stages that fail and stages that succeed *)

Section StageOutcomes.

Implicit Types (self : ReconPipeline) (w : World Env) (ev : Event)
  (evs : list Event) (step s : Stage) (m : Message) (path : str).

Lemma failure_report_message step command r :
  failure_message step (failure_report step command r).
Proof.
  unfold failure_report, failure_message.
  destruct r as [|rc out err]; [by left|].
  destruct command as [|c0 command]; [by left|].
  destruct (_ && _); eauto.
Qed.

Lemma run_command_failed self command step output_file append_output w :
  dry_run self = false →
  exited_zero (spawn command w).1 = false →
  run_command self command step output_file append_output w
  = (Ret false, (spawn command w).2,
     [EvPrint (MsgRunning step); EvRun step command;
      EvPrint (failure_report step command (spawn command w).1)]).
Proof.
  intros Hdry Hz. unfold run_command. rewrite Hdry. run_cbn.
  destruct (spawn command w) as [[|rc out err] w1]; cbn [fst snd] in *;
    [done|].
  destruct rc as [|rc|rc]; [done| |]; run_cbn;
    (destruct command as [|c0 command]; run_cbn; [done|]);
    cbn [failure_report]; by destruct (_ && _).
Qed.

Lemma run_command_ok self command step path w :
  dry_run self = false →
  path ≠ [] →
  exited_zero (spawn command w).1 = true →
  ∃ text n,
    run_command self command step (Some path) false w
    = (Ret true,
       replay w [EvPrint (MsgRunning step); EvRun step command;
                 EvOpen path ModeW text; EvPrint (MsgCompleted step n)],
       [EvPrint (MsgRunning step); EvRun step command;
        EvOpen path ModeW text; EvPrint (MsgCompleted step n)]).
Proof.
  intros Hdry Hpath Hz.
  destruct (spawn command w) as [r w1] eqn:Hs. cbn [fst] in Hz.
  destruct r as [|rc out err]; [done|]. destruct rc; try done.
  eexists _, _.
  rewrite (run_command_success self command step path false w out err w1)
    by done.
  unfold replay. cbn [foldl apply_event]. rewrite Hs. reflexivity.
Qed.

(** [bind] for a stage outside dry-run mode, by how its tool ends. *)
Lemma wp_stage_cases self command step path w (k : M Outcome)
    (Q : Res Outcome → World Env → list Event → Prop) :
  dry_run self = false →
  path ≠ [] →
  (exited_zero (spawn command w).1 = false →
   ∀ m, failure_message step m →
     Q (Ret (HaltedAt step)) (spawn command w).2
       ([EvPrint (MsgRunning step); EvRun step command; EvPrint m] ++ [])) →
  (exited_zero (spawn command w).1 = true →
   ∀ text n,
     wp k (replay w [EvPrint (MsgRunning step); EvRun step command;
                     EvOpen path ModeW text; EvPrint (MsgCompleted step n)])
       (λ r w2 evs2,
          Q r w2 ([EvPrint (MsgRunning step); EvRun step command;
                   EvOpen path ModeW text; EvPrint (MsgCompleted step n)]
                  ++ evs2))) →
  wp (bind (run_command self command step (Some path) false)
        (λ ok, if negb ok then ret (HaltedAt step) else k)) w Q.
Proof.
  intros Hdry Hpath Hfail Hok. apply wp_bind. unfold wp at 1.
  destruct (exited_zero (spawn command w).1) eqn:Hz.
  - destruct (run_command_ok self command step path w Hdry Hpath Hz)
      as (text & n & ->).
    proj_cbn. cbn [negb]. by apply Hok.
  - rewrite run_command_failed by done. proj_cbn. cbn [negb].
    unfold wp. run_cbn. apply Hfail; [done|]. apply failure_report_message.
Qed.

(** X4. Outside dry-run mode, when the tool of a stage cannot be started
    or exits with a code other than zero, the stage reports failure and
    the program opens no file: what the tool printed is dropped, and an
    output file is neither made nor emptied.  The message is the error
    output of the tool, or the panel on the version of httpx when the
    program is an httpx and its error output holds [No such option]. *)
Theorem stage_failure_writes_nothing self command step output_file
    append_output w :
  dry_run self = false →
  exited_zero (spawn command w).1 = false →
  result_of (run_command self command step output_file append_output w)
    = Ret false
  ∧ world_of (run_command self command step output_file append_output w)
    = (spawn command w).2
  ∧ events_of (run_command self command step output_file append_output w)
    = [EvPrint (MsgRunning step); EvRun step command;
       EvPrint (failure_report step command (spawn command w).1)]
  ∧ (∀ stdout stderr returncode command0 args,
       (spawn command w).1 = Exited returncode stdout stderr →
       command = command0 :: args →
       failure_report step command (spawn command w).1
       = if contains command0 (lit "httpx")
            && contains stderr (lit "No such option")
         then MsgVersionConflict else MsgError step stderr).
Proof.
  intros Hdry Hz. rewrite run_command_failed by done.
  split_and!; try done.
  by intros stdout stderr returncode command0 args -> ->.
Qed.

Lemma tools_succeeded_app w evs1 evs2 :
  tools_succeeded w (evs1 ++ evs2)
  = tools_succeeded w evs1 && tools_succeeded (replay w evs1) evs2.
Proof.
  revert w. induction evs1 as [|ev evs1 IH]; intros w; [done|].
  cbn [app tools_succeeded]. rewrite IH, andb_assoc. done.
Qed.

Lemma tools_succeeded_no_run w evs :
  Forall (λ ev, stage_run ev = None) evs → tools_succeeded w evs = true.
Proof.
  intros H. revert w. induction H as [|ev evs Hev _ IH]; intros w; [done|].
  cbn [tools_succeeded]. rewrite IH. by destruct ev.
Qed.

End StageOutcomes.

(** ** The course of a whole run *)

Section RunTraces.

Implicit Types (self : ReconPipeline) (w : World Env) (ev : Event)
  (evs : list Event) (step s : Stage) (m : Message) (path : str).

Lemma artifact_path_nonempty self (name : str) :
  name ∈ artifact_names → path_join (output_dir self) name ≠ [].
Proof.
  unfold artifact_names. rewrite !elem_of_cons, elem_of_nil.
  intros H; repeat destruct H as [-> | H]; try done;
    (apply path_join_nonempty; [by vm_compute | done]).
Qed.

Lemma stage_output_nonempty self :
  subfinder_out self ≠ [] ∧ dnsx_out self ≠ [] ∧ naabu_out self ≠ []
  ∧ httpx_file self ≠ [] ∧ katana_file self ≠ [] ∧ burp_file self ≠ [].
Proof.
  split_and!; apply artifact_path_nonempty; unfold artifact_names;
    rewrite !elem_of_cons; tauto.
Qed.


(** [bind] for a step that behaves, and may leave the program. *)
Lemma wp_behaves_exit {A B} P (m : M A) (k : A → M B) w
    (Q : Res B → World Env → list Event → Prop) :
  behaves P m →
  (∀ c evs1, Forall P evs1 → Q (Exit c) (replay w evs1) evs1) →
  (∀ a evs1, Forall P evs1 →
     wp (k a) (replay w evs1) (λ r w2 evs2, Q r w2 (evs1 ++ evs2))) →
  wp (bind m k) w Q.
Proof.
  intros Hb Hexit Hk. apply wp_bind. unfold wp at 1.
  destruct (Hb w) as [Hw He]. rewrite Hw.
  destruct (result_of (m w)); [by apply Hk | by apply Hexit].
Qed.

(** [bind] for a property that only a finished run has to meet. *)
Lemma wp_bind_any {A B} (m : M A) (k : A → M B) w
    (Q : Res B → World Env → list Event → Prop) :
  (∀ c w1 evs1, Q (Exit c) w1 evs1) →
  (∀ a w1 evs1, wp (k a) w1 (λ r w2 evs2, Q r w2 (evs1 ++ evs2))) →
  wp (bind m k) w Q.
Proof.
  intros Hexit Hk. apply wp_bind. unfold wp at 1.
  destruct (result_of (m w)); [apply Hk | apply Hexit].
Qed.

Lemma post_processing_no_run self w :
  result_of (post_processing self w) = Ret Finished
  ∧ world_of (post_processing self w)
    = replay w (events_of (post_processing self w))
  ∧ Forall (λ ev, stage_run ev = None) (events_of (post_processing self w)).
Proof using All.
  pose proof (post_processing_spec self w) as [Hr _].
  pose proof (post_processing_behaves self w) as [Hw He].
  split_and!; [done | done |].
  eapply Forall_impl; [exact He|]. by intros [].
Qed.

(** *** The order of the stages *)


(** *** The tools the stages are run with *)


Lemma bind_exit_run {A B} (m : M A) (k : A → M B) w code :
  result_of (m w) = Exit code →
  bind m k w = (Exit code, world_of (m w), events_of (m w)).
Proof.
  unfold bind, result_of, world_of, events_of.
  destruct (m w) as [[r w1] e1]. cbn [fst snd]. by intros ->.
Qed.




(** [execute] after a check of the tools that found one missing. *)
Lemma execute_exit self w code :
  result_of (check_tools w) = Exit code →
  execute self w = (Exit code, world_of (check_tools w),
                    events_of (check_tools w)).
Proof. intros Hct. unfold execute. by rewrite (bind_exit_run _ _ w code Hct). Qed.




(** *** The stage a run stops at *)

Lemma first_failure_after w evs1 r evs2 :
  Forall (λ ev, stage_run ev = None) evs1 →
  first_failure (replay w evs1) r evs2 →
  first_failure w r (evs1 ++ evs2).
Proof.
  intros H1. destruct r as [[s|]|c]; cbn [first_failure].
  - intros (pre & cmd & m & -> & Hpre & Hz & Hm).
    exists (evs1 ++ pre), cmd, m. split_and!; [|  | |done].
    + by rewrite app_assoc.
    + by rewrite tools_succeeded_app, tools_succeeded_no_run.
    + by rewrite replay_app.
  - intros H2. by rewrite tools_succeeded_app, tools_succeeded_no_run.
  - intros H2. by apply Forall_app.
Qed.

Lemma first_failure_after_stage w evs1 (o : Outcome) evs2 :
  tools_succeeded w evs1 = true →
  first_failure (replay w evs1) (Ret o) evs2 →
  first_failure w (Ret o) (evs1 ++ evs2).
Proof.
  intros H1. destruct o as [s|]; cbn [first_failure].
  - intros (pre & cmd & m & -> & Hpre & Hz & Hm).
    exists (evs1 ++ pre), cmd, m. split_and!; [|  | |done].
    + by rewrite app_assoc.
    + by rewrite tools_succeeded_app, H1.
    + by rewrite replay_app.
  - intros H2. by rewrite tools_succeeded_app, H1.
Qed.

Lemma wp_first_failure_after {A} (k : M A) (f : A → Outcome) w evs1 :
  tools_succeeded w evs1 = true →
  wp k (replay w evs1) (λ r _ evs2,
    ∃ o, r = Ret o ∧ first_failure (replay w evs1) (Ret (f o)) evs2) →
  wp k (replay w evs1) (λ r _ evs2,
    ∃ o, r = Ret o ∧ first_failure w (Ret (f o)) (evs1 ++ evs2)).
Proof.
  intros H1 Hk. eapply wp_mono; [exact Hk|]. cbv beta.
  intros r _ evs2 (o & -> & Hf). exists o. split; [done|].
  by apply first_failure_after_stage.
Qed.

Lemma run_stages_first_failure self b1 b2 b3 b4 b5 w :
  dry_run self = false →
  wp (run_stages self b1 b2 b3 b4 b5) w (λ r _ evs,
    ∃ o, r = Ret o ∧ first_failure w (Ret (id o)) evs).
Proof using All.
  intros Hdry.
  destruct (stage_output_nonempty self) as (Hp1 & Hp2 & Hp3 & Hp4 & Hp5 & _).
  assert (∀ w step command m,
    exited_zero (spawn command w).1 = false →
    failure_message step m →
    ∃ o, Ret (HaltedAt step) = Ret o
         ∧ first_failure w (Ret (id o))
             ([EvPrint (MsgRunning step); EvRun step command; EvPrint m] ++ []))
    as Hleaf.
  { intros w0 step command m Hz Hm. exists (HaltedAt step). split; [done|].
    exists [EvPrint (MsgRunning step)], command, m. by split_and!. }
  assert (∀ w step command path text n,
    exited_zero (spawn command w).1 = true →
    tools_succeeded w [EvPrint (MsgRunning step); EvRun step command;
                       EvOpen path ModeW text;
                       EvPrint (MsgCompleted step n)] = true) as Hok.
  { intros w0 step command path text n Hz. cbn [tools_succeeded apply_event].
    by rewrite Hz. }
  revert w. unfold run_stages. intros w.
  apply wp_stage_cases; [done | done | intros; by apply Hleaf | intros Hz1 t1 n1].
  apply (wp_first_failure_after _ id); [by apply Hok|].
  generalize (replay w [EvPrint (MsgRunning Subfinder);
                        EvRun Subfinder (cmd_sub self b1);
                        EvOpen (subfinder_out self) ModeW t1;
                        EvPrint (MsgCompleted Subfinder n1)]).
  clear w Hz1. intros w.
  apply (wp_behaves (λ ev, stage_run ev = None));
    [by apply ensure_root_domain_behaves | apply ensure_root_domain_returns|].
  intros _ e1 He1.
  apply (wp_first_failure_after _ id); [by apply tools_succeeded_no_run|].
  generalize (replay w e1). clear w. intros w.
  apply wp_stage_cases; [done | done | intros; by apply Hleaf | intros Hz2 t2 n2].
  apply (wp_first_failure_after _ id); [by apply Hok|].
  generalize (replay w [EvPrint (MsgRunning DNSx);
                        EvRun DNSx (cmd_dnsx self b2);
                        EvOpen (dnsx_out self) ModeW t2;
                        EvPrint (MsgCompleted DNSx n2)]).
  clear w Hz2. intros w.
  apply wp_stage_cases; [done | done | intros; by apply Hleaf | intros Hz3 t3 n3].
  apply (wp_first_failure_after _ id); [by apply Hok|].
  generalize (replay w [EvPrint (MsgRunning Naabu);
                        EvRun Naabu (cmd_naabu self b3);
                        EvOpen (naabu_out self) ModeW t3;
                        EvPrint (MsgCompleted Naabu n3)]).
  clear w Hz3. intros w.
  apply wp_stage_cases; [done | done | intros; by apply Hleaf | intros Hz4 t4 n4].
  apply (wp_first_failure_after _ id); [by apply Hok|].
  generalize (replay w [EvPrint (MsgRunning HTTPx);
                        EvRun HTTPx (cmd_httpx self b4);
                        EvOpen (httpx_file self) ModeW t4;
                        EvPrint (MsgCompleted HTTPx n4)]).
  clear w Hz4. intros w.
  apply (wp_behaves (λ ev, stage_run ev = None));
    [by apply prepare_katana_input_behaves | apply prepare_katana_input_returns|].
  intros katana_input e2 He2.
  apply (wp_first_failure_after _ id); [by apply tools_succeeded_no_run|].
  generalize (replay w e2). clear w. intros w.
  apply wp_stage_cases; [done | done | intros; by apply Hleaf | intros Hz5 t5 n5].
  apply (wp_first_failure_after _ id); [by apply Hok|].
  generalize (replay w [EvPrint (MsgRunning Katana);
                        EvRun Katana (cmd_katana self b5 katana_input);
                        EvOpen (katana_file self) ModeW t5;
                        EvPrint (MsgCompleted Katana n5)]).
  clear w Hz5. intros w.
  unfold wp. destruct (post_processing_no_run self w) as (-> & _ & He).
  exists Finished. split; [done|]. by apply tools_succeeded_no_run.
Qed.

(** The stages of [execute] outside dry-run mode go as [first_failure]
    tells. *)
Lemma execute_live_first_failure self w :
  dry_run self = false →
  wp (execute self) w (λ r _ evs, first_failure w r evs).
Proof using All.
  intros Hdry.
  assert (∀ {A} (k : M A) (f : A → Res Outcome) w evs1,
    Forall (λ ev, stage_run ev = None) evs1 →
    wp k (replay w evs1) (λ r _ evs2,
      first_failure (replay w evs1)
        (match r with Ret a => f a | Exit c => Exit c end) evs2) →
    wp k (replay w evs1) (λ r _ evs2,
      first_failure w
        (match r with Ret a => f a | Exit c => Exit c end) (evs1 ++ evs2)))
    as Hafter.
  { intros A k f w0 evs1 H1 Hk. eapply wp_mono; [exact Hk|]. cbv beta.
    intros r _ evs2. by apply first_failure_after. }
  revert w. unfold execute. intros w.
  apply (wp_behaves_exit (λ ev, stage_run ev = None)).
  { apply check_tools_behaves.
    by intros ev [[-> | [p ->]] | [-> | [-> | [ms ->]]]]. }
  { by intros c e0 He0. }
  intros _ e0 He0.
  eapply wp_mono; [apply (Hafter _ _ (λ o, Ret o)); [done|]|by intros [[]|]].
  generalize (replay w e0). clear w. intros w.
  apply (wp_behaves (λ ev, stage_run ev = None));
    [by apply behaves_print | by apply (returns_prim _ (λ _, tt)) |].
  intros _ e1 He1.
  eapply wp_mono; [apply (Hafter _ _ (λ o, Ret o)); [done|]|by intros [[]|]].
  generalize (replay w e1). clear w. intros w.
  do 5 (apply (wp_behaves (λ ev, stage_run ev = None));
        [ apply get_binary_path_behaves; by intros ev [-> | [p ->]]
        | apply get_binary_path_returns |];
        intros ? ? ?;
        (eapply wp_mono;
           [apply (Hafter _ _ (λ o, Ret o)); [done|]|by intros [[]|]]);
        match goal with
        | |- wp _ (replay ?w0 ?e) _ => generalize (replay w0 e)
        end;
        clear w; intros w).
  eapply wp_mono; [by apply run_stages_first_failure|].
  cbv beta. by intros r _ evs (o & -> & Hf).
Qed.

(** And so do they in dry-run mode, where no tool is started. *)
Lemma execute_first_failure self w :
  first_failure w (result_of (execute self w)) (events_of (execute self w)).
Proof using All.
  destruct (dry_run self) eqn:Hdry;
    [|exact (execute_live_first_failure self w Hdry)].
  destruct (execute_dry_run_behaves self Hdry w) as [_ Hall].
  assert (Forall (λ ev, stage_run ev = None) (events_of (execute self w)))
    as Hnone.
  { eapply Forall_impl; [exact Hall|].
    by intros ev [[m ->] | [-> | [p ->]]]. }
  destruct (execute_spec self w) as (missing & _ & Hspec).
  unfold wp in Hspec.
  destruct (result_of (execute self w)) as [[s|]|code];
    cbn [execute_post stages_post first_failure] in *.
  - destruct Hspec as (_ & Hlive & _). congruence.
  - by apply tools_succeeded_no_run.
  - done.
Qed.

(** X6. Outside dry-run mode a run stops at the first stage whose tool
    fails.  In a run that finishes, every tool the stage runner started
    exited with code zero.  A run that stops at stage [s] ends with the
    tool of [s] and the message of its failure: the tools started before
    it exited with code zero, and this one could not be started or exited
    with another code.  A run that ends at the check of the tools started
    none. *)
Theorem halts_at_first_failure self w :
  dry_run self = false →
  match result_of (execute self w) with
  | Ret Finished => tools_succeeded w (events_of (execute self w)) = true
  | Ret (HaltedAt s) =>
      ∃ pre cmd m,
        events_of (execute self w) = pre ++ [EvRun s cmd; EvPrint m]
        ∧ tools_succeeded w pre = true
        ∧ exited_zero (spawn cmd (replay w pre)).1 = false
        ∧ failure_message s m
  | Exit _ =>
      Forall (λ ev, stage_run ev = None) (events_of (execute self w))
  end.
Proof using All.
  intros Hdry.
  pose proof (execute_live_first_failure self w Hdry) as Hrun.
  unfold wp in Hrun.
  destruct (result_of (execute self w)) as [[s|]|code];
    cbn [first_failure] in Hrun; exact Hrun.
Qed.

(** *** What a finished run leaves *)

Lemma run_llm_advisory_files self w path :
  path ≠ prompt_file self →
  files (world_of (run_llm_advisory self w)) !! path = files w !! path.
Proof.
  intros Hp. unfold run_llm_advisory.
  destruct (dry_run self); [done|]. run_cbn.
  destruct (files w !! katana_file self) as [content|]; run_cbn; [|done].
  destruct (prompt_urls (readlines content)); run_cbn; [done|].
  by apply lookup_insert_ne.
Qed.

Lemma summary_paths_apart self (key filename : str) :
  (key, filename) ∈ summary_files →
  path_join (output_dir self) filename ≠ summary_file self
  ∧ path_join (output_dir self) filename ≠ prompt_file self.
Proof.
  unfold summary_files. rewrite !elem_of_cons, elem_of_nil.
  intros H; repeat destruct H as [[= -> ->] | H]; try done;
    (split; intros E%path_join_inj; done).
Qed.

Lemma finished_state_after self w' evs1 evs2 :
  finished_state self w' evs2 → finished_state self w' (evs1 ++ evs2).
Proof.
  intros (urls & summary & prx & H1 & H2 & H3 & H4 & H5 & H6 & H7).
  exists urls, summary, prx. split_and!; try done. by apply last_app_r.
Qed.

Lemma post_processing_finished self w :
  dry_run self = false →
  wp (post_processing self) w (λ r w' evs,
    r = Ret Finished ∧ finished_state self w' evs).
Proof.
  intros Hdry.
  destruct (stage_output_nonempty self) as (_ & _ & _ & _ & _ & Hburp).
  unfold post_processing. rewrite Hdry. cbn [negb].
  apply wp_bind. unfold wp at 1. rewrite create_burp_file_run by done.
  proj_cbn.
  apply wp_bind. unfold wp at 1. rewrite generate_summary_run by done.
  proj_cbn.
  set (w1 := mkWorld _ (env w)).
  set (w2 := mkWorld _ (env w1)).
  assert (∃ evs3 w3,
    (if llm_analysis self then run_llm_advisory self else ret tt) w2
    = (Ret tt, w3, evs3)
    ∧ ∀ path, path ≠ prompt_file self → files w3 !! path = files w2 !! path)
    as (evs3 & w3 & Hllm & Hw3).
  { destruct (llm_analysis self); [|by eexists _, _].
    destruct (run_llm_advisory_returns self w2) as [[] Hr].
    exists (events_of (run_llm_advisory self w2)),
      (world_of (run_llm_advisory self w2)).
    split; [by rewrite (run_eta (run_llm_advisory self w2)), Hr|].
    intros path Hp. by apply run_llm_advisory_files. }
  apply wp_bind. unfold wp at 1. rewrite Hllm. proj_cbn.
  unfold wp. run_cbn. split; [done|].
  pose proof (artifact_paths_distinct self) as Hnd.
  assert (burp_file self ≠ summary_file self
          ∧ burp_file self ≠ prompt_file self
          ∧ summary_file self ≠ prompt_file self) as (Hbs & Hbp & Hsp).
  { split_and!; intros E%path_join_inj; done. }
  assert (raw_line_count self w1 (lit "urls_for_burp.txt")
          = length (sorted (unique_urls_of self w))) as Hcount1.
  { unfold raw_line_count.
    change (path_join (output_dir self) (lit "urls_for_burp.txt"))
      with (burp_file self).
    subst w1. cbn [files]. rewrite lookup_insert_eq.
    rewrite <- (burp_artifact_lines self w) at 2.
    unfold artifact_lines. by rewrite length_fmap. }
  assert (raw_line_count self w3 (lit "urls_for_burp.txt")
          = length (sorted (unique_urls_of self w))) as Hcount.
  { rewrite <- Hcount1. unfold raw_line_count.
    change (path_join (output_dir self) (lit "urls_for_burp.txt"))
      with (burp_file self).
    rewrite Hw3 by done. subst w2. cbn [files].
    by rewrite lookup_insert_ne. }
  exists (sorted (unique_urls_of self w)), (summary_of self w1),
    (if truthy_opt (proxy self) then proxy self else None).
  split_and!.
  - rewrite Hw3 by done. subst w2 w1. cbn [files].
    rewrite lookup_insert_ne by done. apply lookup_insert_eq.
  - apply burp_artifact_lines.
  - rewrite Hw3 by done. subst w2. cbn [files]. apply lookup_insert_eq.
  - assert (∀ key filename, (key, filename) ∈ summary_files →
              raw_line_count self w1 filename
              = raw_line_count self w3 filename) as Hsame.
    { intros key filename Hin.
      destruct (summary_paths_apart self key filename Hin) as [Hs Hp].
      unfold raw_line_count. rewrite Hw3 by done.
      subst w2. cbn [files]. by rewrite lookup_insert_ne. }
    cbn [summary_of stats summary_files fmap list_fmap fst snd].
    rewrite <- Hcount.
    repeat (f_equal; [f_equal; eapply Hsame; unfold summary_files;
                      rewrite !elem_of_cons; tauto|]).
    f_equal. f_equal. eapply Hsame. unfold summary_files.
    rewrite !elem_of_cons. tauto.
  - done.
  - rewrite <- Hcount1.
    pose proof (json_dump_summary_embeds (summary_of self w1)
                  (lit "burp_import")
                  (raw_line_count self w1 (lit "urls_for_burp.txt"))) as Hc.
    apply Hc. cbn [summary_of stats summary_files fmap list_fmap fst snd].
    rewrite !elem_of_cons. tauto.
  - rewrite !last_cons, last_snoc, length_sorted.
    destruct (burp_file self) as [|c p] eqn:E; [done|]. done.
Qed.

(** Steps over the binds of a run towards what only a finished run has
    to meet. *)
Ltac to_finish :=
  repeat
    (lazymatch goal with
     | |- wp (post_processing _) _ _ => fail
     | |- wp (if negb ?ok then _ else _) _ _ =>
         destruct ok; cbn [negb]; [|by unfold wp; run_cbn]
     | |- wp (bind _ _) _ _ => apply wp_bind_any; [done|]; intros ? ? ?
     end).

(** X7. Outside dry-run mode a run that finishes leaves the Burp file and
    the summary on the machine.  The closing panel names the Burp file and
    the number of its lines.  The summary holds under [subdomains],
    [resolved], [ports], [http_services] and [endpoints] the number of
    lines of [subfinder.txt], [dnsx.txt], [naabu.txt], [httpx.txt] and
    [katana.txt] as they are at the end of the run, and under
    [burp_import] the number of lines of the Burp file, which is the number
    the panel shows; the text of the summary holds this number after the
    key [burp_import]. *)
Theorem finished_run_artifacts self w :
  dry_run self = false →
  result_of (execute self w) = Ret Finished →
  ∃ urls summary prx,
    files (world_of (execute self w)) !! path_join (output_dir self) (lit "urls_for_burp.txt")
      = Some (write_lines urls)
    ∧ artifact_lines (write_lines urls) = urls
    ∧ files (world_of (execute self w)) !! path_join (output_dir self) (lit "summary.json")
      = Some (json_dump_summary summary)
    ∧ stats summary
      = [(lit "subdomains",
          raw_line_count self (world_of (execute self w))
            (lit "subfinder.txt"));
         (lit "resolved",
          raw_line_count self (world_of (execute self w)) (lit "dnsx.txt"));
         (lit "ports",
          raw_line_count self (world_of (execute self w)) (lit "naabu.txt"));
         (lit "http_services",
          raw_line_count self (world_of (execute self w)) (lit "httpx.txt"));
         (lit "endpoints",
          raw_line_count self (world_of (execute self w)) (lit "katana.txt"));
         (lit "burp_import", length urls)]
    ∧ raw_line_count self (world_of (execute self w))
        (lit "urls_for_burp.txt") = length urls
    ∧ contains (json_dump_summary summary)
        ([34] ++ lit "burp_import" ++ [34] ++ lit ": "
         ++ repr_nat (length urls)) = true
    ∧ last (events_of (execute self w))
      = Some (EvPrint (MsgDone prx (Some (path_join (output_dir self) (lit "urls_for_burp.txt"),
                        length urls)))).
Proof.
  intros Hdry.
  change (wp (execute self) w (λ r w' evs,
    r = Ret Finished → finished_state self w' evs)).
  unfold execute, run_stages. to_finish.
  eapply wp_mono; [by apply post_processing_finished|].
  cbv beta. intros r w' evs [_ Hf] _.
  by repeat apply finished_state_after.
Qed.

End RunTraces.

(** ** More on the tool locator *)

Section ToolLocatorMore.

Implicit Types (self : ReconPipeline) (w : World Env) (ev : Event)
  (evs : list Event) (p tool_name : str).

Lemma missing_tools_sublist (tools : list str) w :
  wp (missing_tools tools) w (λ r _ _,
    match r with
    | Ret missing => missing `sublist_of` tools
    | Exit _ => True
    end).
Proof.
  revert w. induction tools as [|tool rest IH]; intros w;
    cbn [missing_tools]; [by apply sublist_nil_l|].
  apply wp_bind_any; [done|]. intros path w1 evs1.
  apply wp_bind_any; [done|]. intros found w2 evs2.
  apply wp_bind_any; [done|]. intros e w3 evs3.
  apply wp_bind. eapply wp_mono; [apply IH|]. cbv beta.
  intros [more|c] w4 evs4 Hmore; [|done].
  unfold wp. run_cbn.
  destruct (if bool_decide (path = tool) && negb (truthy_opt found) then true
            else if negb (bool_decide (path = tool)) && negb e then true
            else false).
  - by apply sublist_skip.
  - by apply sublist_cons.
Qed.

Lemma check_tools_exit w missing :
  result_of (missing_tools REQUIRED_TOOLS w) = Ret missing →
  missing ≠ [] →
  result_of (check_tools w) = Exit 1
  ∧ events_of (check_tools w)
    = EvPrint MsgCheckingTools
      :: events_of (missing_tools REQUIRED_TOOLS w)
      ++ [EvPrint (MsgMissingTools missing)].
Proof.
  intros Hr Hne. unfold check_tools.
  rewrite !result_bind, !events_bind. run_cbn. rewrite Hr.
  destruct missing as [|t missing]; [done|]. run_cbn. done.
Qed.

(** X8. A run leaves the program only at the check of the tools, and
    then with status 1.  Its last effect is the panel that names the
    missing tools, which are required tools, in the order of the list of
    the required tools.  Nothing but the making of the output directory,
    console messages and the child processes of the tool locator came
    before: no file was opened and no stage tool was started.  Outside
    dry-run mode the output directory was made all the same. *)
Theorem tool_check_failure self w code :
  result_of (main self w) = Exit code →
  code = 1%Z
  ∧ (∃ missing,
       result_of (missing_tools REQUIRED_TOOLS w) = Ret missing
       ∧ missing ≠ []
       ∧ missing `sublist_of` REQUIRED_TOOLS
       ∧ last (events_of (main self w))
         = Some (EvPrint (MsgMissingTools missing)))
  ∧ Forall (check_failure_event self) (events_of (main self w))
  ∧ (dry_run self = false →
     head (events_of (main self w)) = Some (EvMakedirs (output_dir self))).
Proof.
  intros Hmain.
  destruct (directory_ready self w) eqn:Hready;
    [|by rewrite (main_crash self w Hready) in Hmain].
  destruct (main_run self w Hready) as (Hres & _ & ->).
  assert (result_of (execute self w) = Exit code) as Hexit.
  { rewrite Hres in Hmain. destruct (result_of (execute self w)); [done|].
    by injection Hmain as ->. }
  destruct (execute_spec self w) as (missing & Hm & Hspec).
  unfold wp in Hspec. rewrite Hexit in Hspec.
  destruct Hspec as (-> & Hne & Hall).
  destruct (check_tools_exit w missing Hm Hne) as [Hr He].
  assert (events_of (execute self w) = events_of (check_tools w)) as Hev.
  { unfold execute. rewrite events_bind, Hr. apply app_nil_r. }
  split_and!.
  - done.
  - exists missing. split_and!; [done | done | |].
    + pose proof (missing_tools_sublist REQUIRED_TOOLS w) as Hs.
      unfold wp in Hs. by rewrite Hm in Hs.
    + apply last_app_r. rewrite Hev, He.
      rewrite last_cons, last_snoc. done.
  - apply Forall_app. split.
    + destruct (dry_run self); repeat constructor.
    + eapply Forall_impl; [exact Hall|].
      intros ev [H | [-> | [-> | [ms ->]]]]; unfold check_failure_event;
        eauto.
  - by intros ->.
Qed.

Lemma first_usable_find tool_name (paths : list str) w :
  tool_name ≠ lit "httpx" →
  first_usable tool_name paths w
  = (Ret (snd <$> list_find (λ p, is_Some (files w !! p)) paths), w, []).
Proof.
  intros Hne. induction paths as [|p rest IH]; [done|].
  cbn [first_usable list_find]. run_cbn.
  rewrite (bool_decide_eq_false_2 _ Hne).
  destruct (decide (is_Some (files w !! p))) as [Hp | Hp].
  - rewrite (bool_decide_eq_true_2 _ Hp). done.
  - rewrite (bool_decide_eq_false_2 _ Hp). rewrite IH.
    by destruct (list_find _ rest) as [[i q]|].
Qed.

(** X9. For a tool other than httpx, [get_binary_path] runs one child
    process, [go env GOBIN], and answers with the first path that exists
    among the candidates: the tool in the directory [go] named, when the
    command succeeded and named one, then in [~/go/bin], [/usr/local/bin]
    and [/usr/bin].  When none exists it answers with the tool as found on
    the search path, and with the bare name of the tool when that fails
    too. *)
Theorem binary_path_resolution tool_name w :
  tool_name ≠ lit "httpx" →
  get_binary_path tool_name w
  = (Ret (match list_find
                  (λ p, is_Some
                          (files (spawn [lit "go"; lit "env"; lit "GOBIN"] w).2
                             !! p))
                  (candidate_paths
                     (spawn [lit "go"; lit "env"; lit "GOBIN"] w).1 tool_name)
          with
          | Some (_, p) => p
          | None =>
              path_fallback tool_name
                (spawn [lit "go"; lit "env"; lit "GOBIN"] w).2
          end),
     (spawn [lit "go"; lit "env"; lit "GOBIN"] w).2,
     [EvProbe [lit "go"; lit "env"; lit "GOBIN"]]).
Proof.
  intros Hne. unfold get_binary_path. run_cbn.
  destruct (spawn [lit "go"; lit "env"; lit "GOBIN"] w) as [r w1].
  cbn [fst snd].
  destruct r as [|[|rc|rc] out err];
    try destruct (truthy (strip out)) eqn:E;
    unfold candidate_paths, gobin_of; rewrite ?E; cbn [app];
    rewrite first_usable_find by done;
    (destruct (list_find _ _) as [[i q]|]; reflexivity).
Qed.

Lemma first_usable_httpx (paths : list str) w :
  wp (first_usable (lit "httpx") paths) w (λ r w' evs,
    w' = replay w evs
    ∧ match r with
      | Ret (Some p) =>
          ∃ pre out err,
            evs = pre ++ [EvProbe [p; lit "-version"]]
            ∧ p ∈ paths
            ∧ is_Some (files (replay w pre) !! p)
            ∧ (spawn [p; lit "-version"] (replay w pre)).1 = Exited 0 out err
      | Ret None => True
      | Exit _ => False
      end).
Proof.
  revert w. induction paths as [|p rest IH]; intros w; [done|].
  assert (∀ w1 evs1,
    w1 = replay w evs1 →
    wp (first_usable (lit "httpx") rest) w1 (λ r w' evs2,
      w' = replay w (evs1 ++ evs2)
      ∧ match r with
        | Ret (Some q) =>
            ∃ pre out err,
              evs1 ++ evs2 = pre ++ [EvProbe [q; lit "-version"]]
              ∧ q ∈ p :: rest
              ∧ is_Some (files (replay w pre) !! q)
              ∧ (spawn [q; lit "-version"] (replay w pre)).1
                = Exited 0 out err
        | Ret None => True
        | Exit _ => False
        end)) as Hrest.
  { intros w1 evs1 ->. eapply wp_mono; [apply IH|]. cbv beta.
    intros r w' evs2 [-> Hr]. split; [by rewrite replay_app|].
    destruct r as [[q|]|c]; [|done..].
    destruct Hr as (pre & out & err & -> & Hq & Hex & Hs).
    exists (evs1 ++ pre), out, err. rewrite replay_app.
    split_and!; [by rewrite app_assoc | by right | done | done]. }
  cbn [first_usable]. rewrite bool_decide_eq_true_2 by done.
  apply wp_bind. unfold wp at 1.
  cbn [path_exists result_of world_of events_of fst snd app].
  destruct (bool_decide (is_Some (files w !! p))) eqn:Hex.
  - apply bool_decide_eq_true_1 in Hex.
    apply wp_bind. unfold wp at 1.
    cbn [probe result_of world_of events_of fst snd app].
    destruct (spawn [p; lit "-version"] w) as [r w1] eqn:Hs. cbn [fst snd].
    assert (w1 = replay w [EvProbe [p; lit "-version"]]) as Hw1
      by (unfold replay; cbn [foldl apply_event]; by rewrite Hs).
    destruct r as [|[|rc|rc] out err];
      try by apply (Hrest w1 [EvProbe [p; lit "-version"]]).
    unfold wp. run_cbn. split; [done|].
    exists [], out, err. unfold replay. cbn [foldl]. rewrite Hs.
    split_and!; [done | by left | done | done].
  - by apply (Hrest w []).
Qed.

(** X10. For httpx, [get_binary_path] answers with one of its candidate
    paths only when the path existed and its [-version] run, the last
    child process of the call, exited with code zero; otherwise it answers
    with httpx as found on the search path, or with the bare name. *)
Theorem httpx_version_guard w :
  ∃ p,
    result_of (get_binary_path (lit "httpx") w) = Ret p
    ∧ ((∃ pre out err,
          events_of (get_binary_path (lit "httpx") w)
            = pre ++ [EvProbe [p; lit "-version"]]
          ∧ p ∈ candidate_paths
                  (spawn [lit "go"; lit "env"; lit "GOBIN"] w).1 (lit "httpx")
          ∧ is_Some (files (replay w pre) !! p)
          ∧ (spawn [p; lit "-version"] (replay w pre)).1 = Exited 0 out err)
       ∨ p = path_fallback (lit "httpx")
               (world_of (get_binary_path (lit "httpx") w))).
Proof.
  change (wp (get_binary_path (lit "httpx")) w (λ r w' evs,
    ∃ p, r = Ret p
      ∧ ((∃ pre out err,
            evs = pre ++ [EvProbe [p; lit "-version"]]
            ∧ p ∈ candidate_paths
                    (spawn [lit "go"; lit "env"; lit "GOBIN"] w).1 (lit "httpx")
            ∧ is_Some (files (replay w pre) !! p)
            ∧ (spawn [p; lit "-version"] (replay w pre)).1 = Exited 0 out err)
         ∨ p = path_fallback (lit "httpx") w'))).
  unfold get_binary_path. apply wp_bind. unfold wp at 1.
  cbn [probe result_of world_of events_of fst snd app].
  set (r0 := (spawn [lit "go"; lit "env"; lit "GOBIN"] w).1).
  set (w0 := (spawn [lit "go"; lit "env"; lit "GOBIN"] w).2).
  assert (match r0 with
          | Exited 0%Z stdout _ =>
              if truthy (strip stdout)
              then path_join (strip stdout) (lit "httpx")
                   :: [expanduser (lit "~/go/bin/" ++ lit "httpx");
                       lit "/usr/local/bin/" ++ lit "httpx";
                       lit "/usr/bin/" ++ lit "httpx"]
              else [expanduser (lit "~/go/bin/" ++ lit "httpx");
                    lit "/usr/local/bin/" ++ lit "httpx";
                    lit "/usr/bin/" ++ lit "httpx"]
          | _ => [expanduser (lit "~/go/bin/" ++ lit "httpx");
                  lit "/usr/local/bin/" ++ lit "httpx";
                  lit "/usr/bin/" ++ lit "httpx"]
          end = candidate_paths r0 (lit "httpx")) as ->.
  { unfold candidate_paths, gobin_of.
    destruct r0 as [|[|rc|rc] out err]; try done.
    by destruct (truthy (strip out)). }
  apply wp_bind. eapply wp_mono; [apply first_usable_httpx|]. cbv beta.
  intros [[p|]|c] w1 evs1 [Hw1 Hr]; [| |done].
  - unfold wp. run_cbn. exists p. split; [done|]. left.
    destruct Hr as (pre & out & err & -> & Hp & Hex & Hs).
    exists (EvProbe [lit "go"; lit "env"; lit "GOBIN"] :: pre), out, err.
    split_and!; [by rewrite app_nil_r | done | done | done].
  - unfold wp. run_cbn. eexists. split; [done|]. by right.
Qed.

End ToolLocatorMore.

(** ** The text of the JSON files *)

Section JsonText.

Implicit Types (self : ReconPipeline) (w : World Env) (s t : str) (c : char).

Lemma ascii_text_app s t : ascii_text s → ascii_text t → ascii_text (s ++ t).
Proof. apply Forall_app_2. Qed.

Lemma ascii_text_concat (parts : list str) :
  Forall ascii_text parts → ascii_text (concat parts).
Proof.
  induction 1 as [|p parts Hp _ IH]; [constructor|]. by apply ascii_text_app.
Qed.

Lemma ascii_text_join sep (parts : list str) :
  ascii_text sep → Forall ascii_text parts → ascii_text (join sep parts).
Proof.
  intros Hsep. induction 1 as [|p parts Hp Hps IH]; [constructor|].
  cbn [join]. destruct parts as [|q parts]; [done|].
  by repeat apply ascii_text_app.
Qed.

Lemma hex_digit_ascii d : d < 16 → ascii_char (hex_digit d) = true.
Proof.
  intros Hd. unfold hex_digit, ascii_char.
  apply orb_true_iff. right. apply andb_true_iff.
  destruct (N.ltb_spec d 10); split; apply N.leb_le; lia.
Qed.

Lemma u_escape_ascii n : ascii_text (u_escape n).
Proof.
  unfold u_escape. apply ascii_text_app; [by repeat constructor|].
  repeat constructor; apply hex_digit_ascii; by apply N.mod_lt.
Qed.

Lemma json_escape_char_ascii c : ascii_text (json_escape_char c).
Proof.
  unfold json_escape_char.
  repeat match goal with
         | |- context [if ?b then _ else _] => destruct b eqn:?
         end;
    try (by repeat constructor);
    try apply u_escape_ascii;
    try (apply ascii_text_app; apply u_escape_ascii).
  constructor; [|constructor]. unfold ascii_char.
  apply orb_true_iff. by right.
Qed.

Lemma json_string_ascii s : ascii_text (json_string s).
Proof.
  unfold json_string. apply ascii_text_app; [by repeat constructor|].
  apply ascii_text_app; [|by repeat constructor].
  apply ascii_text_concat, Forall_forall.
  intros p (c & -> & _)%list_elem_of_fmap. apply json_escape_char_ascii.
Qed.

Lemma json_dumps_list_ascii (xs : list str) : ascii_text (json_dumps_list xs).
Proof.
  unfold json_dumps_list. destruct xs as [|x xs]; [by repeat constructor|].
  repeat apply ascii_text_app; try (by repeat constructor).
  apply ascii_text_join; [by repeat constructor|].
  apply Forall_forall. intros p (u & -> & _)%list_elem_of_fmap.
  apply json_string_ascii.
Qed.

Lemma string_of_uint_ascii (u : Decimal.uint) :
  ascii_text (lit (NilEmpty.string_of_uint u)).
Proof.
  induction u; cbn [NilEmpty.string_of_uint]; [constructor|..];
    (constructor; [done | exact IHu]).
Qed.

Lemma repr_nat_ascii (n : nat) : ascii_text (repr_nat n).
Proof.
  unfold repr_nat, NilZero.string_of_uint.
  destruct (Nat.to_uint n); try apply string_of_uint_ascii.
  by repeat constructor.
Qed.

(** Splits a text into the pieces it is built from. *)
Ltac ascii_pieces :=
  repeat first
    [ apply json_string_ascii
    | apply repr_nat_ascii
    | apply json_dumps_list_ascii
    | apply ascii_text_app
    | by repeat constructor ].

Lemma json_dump_summary_ascii (summary : Summary) :
  ascii_text (json_dump_summary summary).
Proof.
  unfold json_dump_summary, json_opt_string. cbv zeta. ascii_pieces.
  - destruct (target summary); ascii_pieces.
  - destruct (stats summary) as [|kv kvs] eqn:E; [by repeat constructor|].
    rewrite <- E. ascii_pieces.
    apply ascii_text_join; [by repeat constructor|].
    apply Forall_forall. intros p ([k n] & -> & _)%list_elem_of_fmap.
    ascii_pieces.
Qed.

(** X11. Whatever the artifacts, the target and the clock hold, what the
    program writes into the summary and into the prompt is made of line
    feeds and printable ASCII characters only: every other character of a
    URL or of the target is written as an escape. *)
Theorem json_files_ascii self w :
  (∀ path mode data,
     EvOpen path mode data ∈ events_of (generate_summary self w) →
     path = summary_file self ∧ ascii_text data)
  ∧ (∀ path mode data,
       EvOpen path mode data ∈ events_of (run_llm_advisory self w) →
       path = prompt_file self ∧ ascii_text data).
Proof.
  split; intros path mode data.
  - destruct (dry_run self) eqn:Hdry.
    + unfold generate_summary. rewrite Hdry. by intros ?%elem_of_nil.
    + rewrite generate_summary_run by done. cbn [events_of snd].
      rewrite !elem_of_cons, elem_of_nil.
      intros [[= -> -> ->] | [[=] | []]].
      split; [done | apply json_dump_summary_ascii].
  - unfold run_llm_advisory. destruct (dry_run self);
      [by intros ?%elem_of_nil|]. run_cbn.
    destruct (files w !! katana_file self) as [content|]; run_cbn;
      [|by intros ?%elem_of_nil].
    destruct (prompt_urls (readlines content)) as [|u urls]; run_cbn.
    + rewrite !elem_of_cons, elem_of_nil. by intros [[=] | []].
    + rewrite !elem_of_cons, elem_of_nil.
      intros [[=] | [[= -> -> ->] | [[=] | []]]].
      split; [done|]. unfold prompt_content. ascii_pieces.
Qed.

End JsonText.

(** ** The count of results a stage reports *)

Section ResultCount.

Implicit Types (self : ReconPipeline) (w : World Env) (s t l r a : str)
  (c x y : char) (seen : bool).

Lemma not_space_not_LF c : is_space c = false → (c =? LF) = false.
Proof. intros H. destruct (N.eqb_spec c LF) as [->|]; [by vm_compute in H|done]. Qed.

Lemma not_space_not_CR c : is_space c = false → (c =? CR) = false.
Proof. intros H. destruct (N.eqb_spec c CR) as [->|]; [by vm_compute in H|done]. Qed.

Lemma existsb_spaces s :
  Forall (λ c, is_space c = true) s →
  existsb (λ c, negb (is_space c)) s = false.
Proof. induction 1 as [|c s Hc _ IH]; [done|]. cbn. by rewrite Hc, IH. Qed.

Lemma strip_truthy s :
  truthy (strip s) = existsb (λ c, negb (is_space c)) s.
Proof.
  destruct (strip_split s) as (l & r & Hs & Hl & Hr).
  rewrite Hs at 2.
  rewrite !existsb_app, (existsb_spaces l), (existsb_spaces r) by done.
  rewrite orb_false_r. cbn [orb].
  destruct (strip s) as [|c u] eqn:E; [done|].
  cbn. rewrite (strip_head s c) by (by rewrite E). done.
Qed.

Lemma nonblank_count_cons (line : str) (ls : list str) :
  nonblank_count (line :: ls)
  = ((if existsb (λ c, negb (is_space c)) line then 1 else 0)
     + nonblank_count ls)%nat.
Proof.
  unfold nonblank_count. rewrite filter_cons, strip_truthy.
  destruct (existsb _ line); by case_decide.
Qed.

Lemma count_scan_lines seen s :
  count_scan seen s
  = match split_lines s with
    | [] => if seen then 1 else 0
    | line :: ls =>
        (if seen || existsb (λ c, negb (is_space c)) line then 1 else 0)
        + nonblank_count ls
    end%nat.
Proof.
  revert seen. induction s as [|c t IH]; intros seen; [done|].
  cbn [count_scan split_lines]. destruct (N.eqb_spec c LF) as [->|Hc].
  - rewrite (IH false). cbn [existsb]. rewrite orb_false_r. f_equal.
    destruct (split_lines t) as [|line ls]; [done|].
    by rewrite nonblank_count_cons.
  - rewrite IH. destruct (split_lines t) as [|line ls].
    + cbn [existsb]. by rewrite orb_false_r, Nat.add_0_r.
    + cbn [existsb]. by rewrite orb_assoc.
Qed.

(** The lines that are not blank, counted character by character. *)
Lemma nonblank_count_scan s :
  nonblank_count (split_lines s) = count_scan false s.
Proof.
  rewrite count_scan_lines. destruct (split_lines s) as [|line ls]; [done|].
  by rewrite nonblank_count_cons.
Qed.

Lemma count_scan_spaces s :
  Forall (λ c, is_space c = true) s →
  count_scan false s = 0%nat ∧ count_scan true s = 1%nat.
Proof.
  induction 1 as [|c s Hc _ [IH0 IH1]]; [done|].
  cbn [count_scan]. rewrite Hc. cbn [negb]. rewrite !orb_false_r.
  destruct (c =? LF); [by rewrite IH0|done].
Qed.

Lemma count_scan_after_spaces l s :
  Forall (λ c, is_space c = true) l →
  count_scan false (l ++ s) = count_scan false s.
Proof.
  induction 1 as [|c l Hc _ IH]; [done|].
  cbn [app count_scan]. rewrite Hc. cbn [negb orb].
  by destruct (c =? LF).
Qed.

Lemma count_scan_tail a x seen :
  is_space x = false →
  ∃ k, ∀ r, count_scan seen (a ++ x :: r) = (k + count_scan true r)%nat.
Proof.
  intros Hx. revert seen. induction a as [|c a IH]; intros seen.
  - exists 0%nat. intros r. cbn [app count_scan].
    by rewrite (not_space_not_LF x Hx), Hx, orb_true_r.
  - cbn [app count_scan]. destruct (c =? LF).
    + destruct (IH false) as [k Hk].
      exists ((if seen then 1 else 0) + k)%nat. intros r.
      rewrite Hk. lia.
    + destruct (IH (seen || negb (is_space c))) as [k Hk]. by exists k.
Qed.

Lemma elem_of_universal_newlines_aux t :
  (∀ x, x ∈ universal_newlines t → x = LF ∨ x ∈ t)
  ∧ (∀ c x, x ∈ universal_newlines (c :: t) → x = LF ∨ x ∈ c :: t).
Proof.
  induction t as [|d t [IH1 IH2]].
  - split; [intros x; cbn [universal_newlines]; by intros ?%elem_of_nil|].
    intros c x. cbn [universal_newlines].
    destruct (c =? CR); cbn [universal_newlines];
      rewrite list_elem_of_singleton; intros ->;
      [by left | by right].
  - split; [apply IH2|]. intros c x.
    change (universal_newlines (c :: d :: t)) with
      (if c =? CR then
         if d =? LF then LF :: universal_newlines t
         else LF :: universal_newlines (d :: t)
       else c :: universal_newlines (d :: t)).
    destruct (c =? CR); [destruct (d =? LF)|];
      intros [-> | Hin]%elem_of_cons; try (by left).
    + destruct (IH1 x Hin); [by left | right]. by do 2 right.
    + destruct (IH2 d x Hin); [by left | right]. by right.
    + right. by left.
    + destruct (IH2 d x Hin); [by left | right]. by right.
Qed.

Lemma universal_newlines_spaces s :
  Forall (λ c, is_space c = true) s →
  Forall (λ c, is_space c = true) (universal_newlines s).
Proof.
  rewrite !Forall_forall. intros Hs x Hx.
  destruct (proj1 (elem_of_universal_newlines_aux s) x Hx) as [-> | Hin];
    [done | by apply Hs].
Qed.

Lemma universal_newlines_app_head_aux l y t :
  (y =? LF) = false →
  universal_newlines (l ++ y :: t)
    = universal_newlines l ++ universal_newlines (y :: t)
  ∧ ∀ c, universal_newlines (c :: l ++ y :: t)
         = universal_newlines (c :: l) ++ universal_newlines (y :: t).
Proof.
  intros Hy. induction l as [|d l [IH1 IH2]].
  - split; [done|]. intros c.
    change (universal_newlines (c :: [] ++ y :: t)) with
      (if c =? CR then
         if y =? LF then LF :: universal_newlines t
         else LF :: universal_newlines (y :: t)
       else c :: universal_newlines (y :: t)).
    rewrite Hy. cbn [universal_newlines]. by destruct (c =? CR).
  - split; [apply IH2|]. intros c.
    change (universal_newlines (c :: (d :: l) ++ y :: t)) with
      (if c =? CR then
         if d =? LF then LF :: universal_newlines (l ++ y :: t)
         else LF :: universal_newlines (d :: l ++ y :: t)
       else c :: universal_newlines (d :: l ++ y :: t)).
    change (universal_newlines (c :: d :: l)) with
      (if c =? CR then
         if d =? LF then LF :: universal_newlines l
         else LF :: universal_newlines (d :: l)
       else c :: universal_newlines (d :: l)).
    destruct (c =? CR); [destruct (d =? LF)|].
    + by rewrite IH1.
    + by rewrite (IH2 d).
    + by rewrite (IH2 d).
Qed.

Lemma universal_newlines_app_last_aux a x r :
  (x =? CR) = false →
  universal_newlines (a ++ x :: r)
    = universal_newlines (a ++ [x]) ++ universal_newlines r
  ∧ ∀ c, universal_newlines (c :: a ++ x :: r)
         = universal_newlines (c :: a ++ [x]) ++ universal_newlines r.
Proof.
  intros Hx. induction a as [|d a [IH1 IH2]].
  - assert (universal_newlines (x :: r) = x :: universal_newlines r) as E
      by (cbn [universal_newlines]; by rewrite Hx).
    split; [cbn [universal_newlines app]; by rewrite Hx|]. intros c.
    change (universal_newlines (c :: [] ++ x :: r)) with
      (if c =? CR then
         if x =? LF then LF :: universal_newlines r
         else LF :: universal_newlines (x :: r)
       else c :: universal_newlines (x :: r)).
    change (universal_newlines (c :: [] ++ [x])) with
      (if c =? CR then
         if x =? LF then LF :: universal_newlines []
         else LF :: universal_newlines [x]
       else c :: universal_newlines [x]).
    rewrite E. cbn [universal_newlines]. rewrite Hx.
    destruct (c =? CR); [destruct (x =? LF)|]; done.
  - split; [apply IH2|]. intros c.
    change (universal_newlines (c :: (d :: a) ++ x :: r)) with
      (if c =? CR then
         if d =? LF then LF :: universal_newlines (a ++ x :: r)
         else LF :: universal_newlines (d :: a ++ x :: r)
       else c :: universal_newlines (d :: a ++ x :: r)).
    change (universal_newlines (c :: (d :: a) ++ [x])) with
      (if c =? CR then
         if d =? LF then LF :: universal_newlines (a ++ [x])
         else LF :: universal_newlines (d :: a ++ [x])
       else c :: universal_newlines (d :: a ++ [x])).
    destruct (c =? CR); [destruct (d =? LF)|].
    + by rewrite IH1.
    + by rewrite (IH2 d).
    + by rewrite (IH2 d).
Qed.

Lemma universal_newlines_snoc_aux a x :
  (x =? CR) = false →
  (∃ q, universal_newlines (a ++ [x]) = q ++ [x])
  ∧ (∀ c, ∃ q, universal_newlines (c :: a ++ [x]) = q ++ [x]).
Proof.
  intros Hx. induction a as [|d a [[q1 IH1] IH2]].
  - split.
    + exists []. cbn [app universal_newlines]. by rewrite Hx.
    + intros c. cbn [app universal_newlines]. rewrite Hx.
      destruct (c =? CR); [|by exists [c]].
      destruct (N.eqb_spec x LF) as [->|]; [by exists [] | by exists [LF]].
  - split; [apply IH2|]. intros c.
    change (universal_newlines (c :: (d :: a) ++ [x])) with
      (if c =? CR then
         if d =? LF then LF :: universal_newlines (a ++ [x])
         else LF :: universal_newlines (d :: a ++ [x])
       else c :: universal_newlines (d :: a ++ [x])).
    destruct (IH2 d) as [q2 Hq2].
    destruct (c =? CR); [destruct (d =? LF)|].
    + exists (LF :: q1). by rewrite IH1.
    + exists (LF :: q2). by rewrite Hq2.
    + exists (c :: q2). by rewrite Hq2.
Qed.

(** Trimming the output of a tool and ending it with a line feed keeps
    the number of its lines that are not blank. *)
Lemma nonblank_count_stage_text stdout :
  nonblank_count (readlines (stage_text stdout))
  = nonblank_count (readlines stdout).
Proof.
  unfold readlines. rewrite !nonblank_count_scan. unfold stage_text.
  destruct (strip_split stdout) as (l & r & Hs & Hl & Hr).
  pose proof (strip_head stdout) as Hhead.
  pose proof (strip_last stdout) as Hlast.
  destruct (strip stdout) as [|y core] eqn:E.
  - cbn [truthy app] in *. rewrite Hs.
    symmetry. apply count_scan_spaces, universal_newlines_spaces.
    by apply Forall_app.
  - cbn [truthy].
    destruct (last (y :: core)) as [x|] eqn:El; [|by apply last_None in El].
    apply last_Some in El as [a Ea].
    assert (is_space x = false) as Hx by by apply Hlast.
    assert (is_space y = false) as Hy by by apply Hhead.
    rewrite Hs.
    change (l ++ (y :: core) ++ r) with (l ++ y :: (core ++ r)).
    rewrite (proj1 (universal_newlines_app_head_aux l y (core ++ r)
                      (not_space_not_LF y Hy))).
    rewrite count_scan_after_spaces by by apply universal_newlines_spaces.
    change (y :: core ++ r) with ((y :: core) ++ r).
    rewrite Ea, <- !app_assoc. cbn [app].
    rewrite (proj1 (universal_newlines_app_last_aux a x r
                      (not_space_not_CR x Hx))).
    rewrite (proj1 (universal_newlines_app_last_aux a x [LF]
                      (not_space_not_CR x Hx))).
    destruct (proj1 (universal_newlines_snoc_aux a x (not_space_not_CR x Hx)))
      as [q ->].
    rewrite <- !app_assoc. cbn [app].
    destruct (count_scan_tail q x false Hx) as [k Hk]. rewrite !Hk.
    f_equal.
    rewrite (proj2 (count_scan_spaces (universal_newlines r)
                      (universal_newlines_spaces r Hr))).
    done.
Qed.

(** X12. The number of results a stage reports.  Outside dry-run mode,
    when the tool of a stage with a declared output file exits with code
    zero and the file is written anew, the last message of the stage
    gives the number of lines of the output of the tool that are not
    blank, each line counted as often as it occurs; this is also the
    number of non-blank lines of the output file. *)
Theorem stage_count_nonblank self command step path w stdout stderr w1 :
  dry_run self = false →
  path ≠ [] →
  spawn command w = (Exited 0 stdout stderr, w1) →
  last (events_of (run_command self command step (Some path) false w))
    = Some (EvPrint (MsgCompleted step (nonblank_count (readlines stdout))))
  ∧ (nonblank_count <$> (readlines <$>
       files (world_of (run_command self command step (Some path) false w))
         !! path))
    = Some (nonblank_count (readlines stdout)).
Proof.
  intros Hdry Hpath Hspawn.
  rewrite (run_command_success self command step path false w stdout stderr w1)
    by done.
  cbn [events_of world_of fst snd files app].
  rewrite lookup_insert_eq. cbn [fmap option_fmap option_map].
  by rewrite nonblank_count_stage_text.
Qed.

End ResultCount.

(** ** The paths of the output directory *)

Section OutputPaths.

Implicit Types (self : ReconPipeline) (w : World Env) (ev : Event)
  (name path : str).

Lemma opens_only_elem (paths : list str) (evs : list Event) :
  Forall (opens_only paths) evs →
  ∀ path mode data, EvOpen path mode data ∈ evs → path ∈ paths.
Proof.
  rewrite Forall_forall. intros Hall path mode data Hin.
  apply (Hall _ Hin).
Qed.

Lemma opens_only_probe (paths : list str) ev :
  locator_probe ev → opens_only paths ev.
Proof. by intros [-> | [p ->]]. Qed.

Lemma opens_only_check (paths : list str) ev :
  check_event ev → opens_only paths ev.
Proof. by intros [[-> | [p ->]] | [-> | [-> | [ms ->]]]]. Qed.

Lemma run_command_opens self command step output_file append_output :
  behaves (opens_only (match output_file with
                       | Some path => [path]
                       | None => []
                       end))
    (run_command self command step output_file append_output).
Proof.
  destruct output_file as [path|].
  - apply run_command_behaves; [done | done |].
    intros mode data. cbn [opens_only default from_option id].
    apply list_elem_of_here.
  - unfold run_command. cbn [truthy_opt].
    repeat behaves_step; done.
Qed.

Lemma post_processing_opens self :
  behaves (opens_only (output_files self)) (post_processing self).
Proof.
  eapply behaves_impl; [|apply post_processing_behaves].
  intros [| | | path mode data |]; cbn [post_event opens_only]; try done.
  unfold post_files, output_files. rewrite !elem_of_cons. tauto.
Qed.

Lemma run_stages_opens self b1 b2 b3 b4 b5 :
  behaves (opens_only (output_files self)) (run_stages self b1 b2 b3 b4 b5).
Proof.
  assert (∀ path mode data,
            path ∈ output_files self →
            opens_only (output_files self) (EvOpen path mode data)) as Hin
    by done.
  unfold run_stages.
  repeat first
    [ apply post_processing_opens
    | apply run_command_behaves;
      [ done | done
      | intros; apply Hin; cbn [default from_option id];
        unfold output_files; rewrite !elem_of_cons; tauto ]
    | apply ensure_root_domain_behaves;
      intros; apply Hin; unfold output_files; rewrite !elem_of_cons; tauto
    | apply prepare_katana_input_behaves;
      intros; apply Hin; unfold output_files; rewrite !elem_of_cons; tauto
    | behaves_step ].
Qed.

Lemma main_opens self :
  behaves (opens_only (output_files self)) (main self).
Proof.
  unfold main, init, execute.
  repeat first
    [ apply run_stages_opens
    | apply check_tools_behaves; apply opens_only_check
    | apply get_binary_path_behaves; apply opens_only_probe
    | behaves_step; try done ].
Qed.

(** X13. The nine files the program writes are [subfinder.txt],
    [dnsx.txt], [naabu.txt], [httpx.txt], [katana_input_clean.txt],
    [katana.txt], [urls_for_burp.txt], [summary.json] and
    [llm_prompt.txt] of the output directory: nine different paths, none
    of them empty, each beginning with the output directory.  Every step
    writes its own file only: a stage the output file it is given, the
    check of the root domain [subfinder.txt], the preparation of the
    Katana input [katana_input_clean.txt], the result normalizer
    [urls_for_burp.txt], the summary aggregator [summary.json] and the
    prompt generator [llm_prompt.txt].  A whole run opens no other file
    for writing, and a file that is not one of the nine, and that the
    child processes leave alone, is after the run what it was before. *)
Theorem output_paths_separate self w :
  output_files self
  = path_join (output_dir self)
    <$> [lit "subfinder.txt"; lit "dnsx.txt"; lit "naabu.txt";
         lit "httpx.txt"; lit "katana_input_clean.txt"; lit "katana.txt";
         lit "urls_for_burp.txt"; lit "summary.json"; lit "llm_prompt.txt"]
  ∧ NoDup (output_files self)
  ∧ (∀ path, path ∈ output_files self →
       path ≠ [] ∧ output_dir self `prefix_of` path)
  ∧ (∀ command step output_file append_output w0 path mode data,
       EvOpen path mode data
       ∈ events_of (run_command self command step output_file
                      append_output w0) →
       output_file = Some path)
  ∧ (∀ w0 path mode data,
       EvOpen path mode data ∈ events_of (ensure_root_domain self w0) →
       path = path_join (output_dir self) (lit "subfinder.txt"))
  ∧ (∀ w0 path mode data,
       EvOpen path mode data ∈ events_of (prepare_katana_input self w0) →
       path = path_join (output_dir self) (lit "katana_input_clean.txt"))
  ∧ (∀ w0 path mode data,
       EvOpen path mode data ∈ events_of (create_burp_file self w0) →
       path = path_join (output_dir self) (lit "urls_for_burp.txt"))
  ∧ (∀ w0 path mode data,
       EvOpen path mode data ∈ events_of (generate_summary self w0) →
       path = path_join (output_dir self) (lit "summary.json"))
  ∧ (∀ w0 path mode data,
       EvOpen path mode data ∈ events_of (run_llm_advisory self w0) →
       path = path_join (output_dir self) (lit "llm_prompt.txt"))
  ∧ (∀ path mode data,
       EvOpen path mode data ∈ events_of (main self w) →
       path ∈ output_files self)
  ∧ (∀ path,
       path ∉ output_files self →
       (∀ cmd w0, files (spawn cmd w0).2 !! path = files w0 !! path) →
       files (world_of (main self w)) !! path = files w !! path).
Proof.
  assert (∀ {A} (m : M A) (target : str),
            behaves (opens_only [target]) m →
            ∀ w0 path mode data,
              EvOpen path mode data ∈ events_of (m w0) → path = target)
    as Hone.
  { intros A m target Hm w0 path mode data Hin.
    destruct (Hm w0) as [_ Hall].
    by apply (opens_only_elem _ _ Hall), list_elem_of_singleton in Hin. }
  assert (∀ target mode data,
            opens_only [target] (EvOpen target mode data)) as Hself.
  { intros. cbn [opens_only]. apply list_elem_of_here. }
  split_and!.
  - done.
  - apply artifact_paths_distinct.
  - intros path Hin.
    assert (∃ name, name ∈ artifact_names
                    ∧ path = path_join (output_dir self) name)
      as (name & Hname & ->).
    { revert Hin. unfold output_files, artifact_names.
      rewrite !elem_of_cons, elem_of_nil.
      intros H; repeat destruct H as [-> | H]; [..|done];
        eexists; (split; [|reflexivity]); rewrite !elem_of_cons; tauto. }
    split; [by apply artifact_path_nonempty|].
    assert (startswith name (lit "/") = false) as Hs.
    { revert Hname. unfold artifact_names. rewrite !elem_of_cons, elem_of_nil.
      intros H; repeat destruct H as [-> | H]; done. }
    unfold path_join. rewrite Hs.
    destruct (negb (truthy (output_dir self))
              || startswith (reverse (output_dir self)) (lit "/")).
    + by eexists.
    + by exists (lit "/" ++ name).
  - intros command step output_file append_output w0 path mode data Hin.
    destruct (run_command_opens self command step output_file
                append_output w0) as [_ Hall].
    pose proof (opens_only_elem _ _ Hall _ _ _ Hin) as Hp.
    destruct output_file as [p|]; [|by apply elem_of_nil in Hp].
    by apply list_elem_of_singleton in Hp as ->.
  - apply Hone. by apply ensure_root_domain_behaves.
  - apply Hone. by apply prepare_katana_input_behaves.
  - apply Hone. unfold create_burp_file.
    destruct (dry_run self); repeat behaves_step; done.
  - apply Hone. by apply generate_summary_behaves.
  - apply Hone. by apply run_llm_advisory_behaves.
  - destruct (main_opens self w) as [_ Hall]. by apply opens_only_elem.
  - intros path Hnot Hspawn.
    destruct (main_opens self w) as [-> Hall].
    apply replay_frame; [done|]. intros mode data Hin.
    by apply Hnot, (opens_only_elem _ _ Hall _ mode data).
Qed.

End OutputPaths.

(** ** How a run ends *)

Section RunOutcomes.

Implicit Types (self : ReconPipeline) (w : World Env) (ev : Event)
  (evs pre post : list Event) (step s : Stage) (m : Message) (path : str).

(** A tool that fails is the last one of the run: the run stops at its
    stage, with the message of the failure. *)
Lemma failed_run_halts w (r : Res Outcome) evs pre step cmd post :
  first_failure w r evs →
  evs = pre ++ EvRun step cmd :: post →
  exited_zero (spawn cmd (replay w pre)).1 = false →
  r = Ret (HaltedAt step) ∧ ∃ m, post = [EvPrint m] ∧ failure_message step m.
Proof.
  intros Hf -> Hfail.
  assert (∀ rest, tools_succeeded w (pre ++ EvRun step cmd :: rest) = false)
    as Hnot.
  { intros rest. rewrite tools_succeeded_app. cbn [tools_succeeded].
    rewrite Hfail. by rewrite andb_false_r. }
  destruct r as [[s|]|code]; cbn [first_failure] in Hf.
  - destruct Hf as (pre' & cmd' & m & Heq & Hpre & Hz & Hm).
    apply app_eq_inv in Heq as [(k & -> & Hk) | (k & -> & Hk)].
    + destruct k as [|x [|y k]].
      * injection Hk as -> -> <-. split; [done|]. by exists m.
      * by injection Hk.
      * injection Hk as _ _ Hk. by destruct k.
    + destruct k as [|x k].
      * injection Hk as -> -> ->. split; [done|]. by exists m.
      * injection Hk as <- _. by rewrite Hnot in Hpre.
  - by rewrite Hnot in Hf.
  - apply Forall_app in Hf as [_ Hf]. by apply Forall_cons in Hf as [Hf _].
Qed.

(** The same for a whole run: its first effect made the output
    directory, and [execute] stopped at the stage of the tool. *)
Lemma main_failed_run self w pre step cmd post :
  events_of (main self w) = pre ++ EvRun step cmd :: post →
  exited_zero (spawn cmd (replay w pre)).1 = false →
  result_of (execute self w) = Ret (HaltedAt step)
  ∧ (∃ m, post = [EvPrint m] ∧ failure_message step m)
  ∧ main self w
    = (Ret (Some (HaltedAt step)), world_of (execute self w),
       EvMakedirs (output_dir self) :: events_of (execute self w)).
Proof using All.
  intros Hev Hfail.
  destruct (directory_ready self w) eqn:Hready;
    [|rewrite (main_crash self w Hready) in Hev; by destruct pre].
  destruct (main_run self w Hready) as (Hres & Hw & Hevs).
  assert (∃ pre', events_of (execute self w) = pre' ++ EvRun step cmd :: post
                  ∧ replay w pre' = replay w pre) as (pre' & Hex & Hrep).
  { rewrite Hevs in Hev. destruct (dry_run self).
    - by exists pre.
    - destruct pre as [|ev pre]; [done|]. injection Hev as <- Hev.
      by exists pre. }
  rewrite <- Hrep in Hfail.
  destruct (failed_run_halts _ _ _ _ _ _ _ (execute_first_failure self w)
              Hex Hfail) as (Hr & Hm).
  destruct (halted_run_effects self w step Hr) as (Hdry & _).
  split_and!; [done | done |].
  rewrite (run_eta (main self w)), Hres, Hw, Hevs, Hr, Hdry. done.
Qed.

(** C3, as the program has it.  When the tool of a stage cannot be
    started or exits with a code other than zero, the message of the
    failure is the last effect of the run and [main] returns from that
    stage: no tool of a later stage is started, every file opened for
    writing is a file of a stage up to this one, and so neither a file of
    a later stage nor the Burp file, the summary or the prompt; no message
    of the steps after the last stage is printed, and a file that is not
    one of a stage up to this one, and that the child processes leave
    alone, is after the run what it was before.  The process ends with
    exit status 0, as it does after a run that finishes. *)
Theorem short_circuit self w pre step cmd post :
  events_of (main self w) = pre ++ EvRun step cmd :: post →
  exited_zero (spawn cmd (replay w pre)).1 = false →
  (∃ m, post = [EvPrint m] ∧ failure_message step m)
  ∧ result_of (main self w) = Ret (Some (HaltedAt step))
  ∧ process_status (result_of (main self w)) = 0%Z
  ∧ (∀ step' cmd', EvRun step' cmd' ∈ events_of (main self w) →
       (stage_index step' ≤ stage_index step)%nat)
  ∧ (∀ s, stage_files self s
          = path_join (output_dir self)
            <$> match s with
                | Subfinder => [lit "subfinder.txt"]
                | DNSx => [lit "dnsx.txt"]
                | Naabu => [lit "naabu.txt"]
                | HTTPx => [lit "httpx.txt"]
                | Katana => [lit "katana_input_clean.txt"; lit "katana.txt"]
                end)
  ∧ post_files self
    = path_join (output_dir self)
      <$> [lit "urls_for_burp.txt"; lit "summary.json"; lit "llm_prompt.txt"]
  ∧ (∀ path mode data, EvOpen path mode data ∈ events_of (main self w) →
       (∃ step', (stage_index step' ≤ stage_index step)%nat
                 ∧ path ∈ stage_files self step')
       ∧ (∀ step', (stage_index step < stage_index step')%nat →
                   path ∉ stage_files self step')
       ∧ path ∉ post_files self)
  ∧ (∀ m, EvPrint m ∈ events_of (main self w) →
       is_post_message m = false
       ∧ ∀ step', msg_stage m = Some step' →
                  (stage_index step' ≤ stage_index step)%nat)
  ∧ (∀ path,
       (∀ step', (stage_index step' ≤ stage_index step)%nat →
                 path ∉ stage_files self step') →
       (∀ cmd' w0, files (spawn cmd' w0).2 !! path = files w0 !! path) →
       files (world_of (main self w)) !! path = files w !! path).
Proof using All.
  intros Hev Hfail.
  destruct (main_failed_run self w pre step cmd post Hev Hfail)
    as (Hr & Hm & Hmain).
  destruct (halted_run_effects self w step Hr)
    as (_ & _ & Hruns & Hopens & Hprints & Hframe).
  rewrite Hmain. proj_cbn.
  split_and!; [done | done | done | | by intros [] | done | | |done].
  - intros step' cmd' [Hin | Hin]%elem_of_cons; [done | by eapply Hruns].
  - intros path mode data [Hin | Hin]%elem_of_cons; [done | by eapply Hopens].
  - intros m [Hin | Hin]%elem_of_cons; [done | by apply Hprints].
Qed.

(** C6, as the program has it.  When the output directory cannot be made
    (outside dry-run mode: its name is empty, it is a file, or the system
    refuses), [main] ends by the exception before anything else happens,
    and the process has exit status 1.  Otherwise let [missing] be the
    tools the check of the required tools finds missing.  When there is
    one, the process ends with exit status 1, the list of the missing
    tools being its last message, and no stage was started.  When there
    is none the exit status is 0, whether a stage failed or not: either
    the run stopped at the first stage whose tool failed, the message of
    the failure coming last, or every tool started exited with code zero
    and the run went through the steps after the last stage and ended with
    the closing panel, the Burp file and the summary written outside
    dry-run mode.  And whenever the tool of a stage fails, the run stops at
    that stage and the exit status is 0. *)
Theorem exit_status_of_run self w :
  (directory_ready self w = false
   ↔ dry_run self = false
     ∧ (output_dir self = [] ∨ is_Some (files w !! output_dir self)
        ∨ makedirs_ok (output_dir self) w = false))
  ∧ (directory_ready self w = false →
     main self w = (Ret None, w, [])
     ∧ process_status (result_of (main self w)) = 1%Z)
  ∧ (directory_ready self w = true →
     ∃ missing,
       result_of (missing_tools REQUIRED_TOOLS w) = Ret missing
       ∧ (missing ≠ [] →
          result_of (main self w) = Exit 1
          ∧ process_status (result_of (main self w)) = 1%Z
          ∧ (∀ step cmd, EvRun step cmd ∉ events_of (main self w))
          ∧ last (events_of (main self w))
            = Some (EvPrint (MsgMissingTools missing)))
       ∧ (missing = [] →
          process_status (result_of (main self w)) = 0%Z
          ∧ ((∃ s pre cmd m,
                result_of (main self w) = Ret (Some (HaltedAt s))
                ∧ events_of (main self w) = pre ++ [EvRun s cmd; EvPrint m]
                ∧ tools_succeeded w pre = true
                ∧ exited_zero (spawn cmd (replay w pre)).1 = false
                ∧ failure_message s m)
             ∨ (result_of (main self w) = Ret (Some Finished)
                ∧ tools_succeeded w (events_of (main self w)) = true
                ∧ (∃ prx burp, last (events_of (main self w))
                               = Some (EvPrint (MsgDone prx burp)))
                ∧ (dry_run self = false →
                   (∃ data, EvOpen (path_join (output_dir self)
                                      (lit "urls_for_burp.txt")) ModeW data
                            ∈ events_of (main self w))
                   ∧ (∃ data, EvOpen (path_join (output_dir self)
                                        (lit "summary.json")) ModeW data
                              ∈ events_of (main self w)))))))
  ∧ (∀ pre step cmd post,
       events_of (main self w) = pre ++ EvRun step cmd :: post →
       exited_zero (spawn cmd (replay w pre)).1 = false →
       result_of (main self w) = Ret (Some (HaltedAt step))
       ∧ (∃ m, post = [EvPrint m] ∧ failure_message step m)
       ∧ process_status (result_of (main self w)) = 0%Z).
Proof using All.
  split_and!.
  - unfold directory_ready.
    destruct (dry_run self); cbn [orb]; [by split; [|intros []]|].
    destruct (output_dir self) as [|c d] eqn:Hd; cbn [truthy andb].
    { split; [|done]. intros _. split; [done | by left]. }
    case_bool_decide as Hfile; cbn [negb andb].
    { split; [|done]. intros _. split; [done | right; by left]. }
    split.
    + intros Hok. split; [done | right; by right].
    + intros [_ [? | [? | ?]]]; done.
  - intros Hready. rewrite (main_crash self w Hready). done.
  - intros Hready.
    destruct (main_run self w Hready) as (Hres & _ & Hevs).
    destruct (execute_spec self w) as (missing & Hm & Hspec).
    pose proof (execute_first_failure self w) as Hff.
    exists missing. split; [done|].
    assert (∀ evs, tools_succeeded w
                     ((if dry_run self then []
                       else [EvMakedirs (output_dir self)]) ++ evs)
                   = tools_succeeded w evs) as Hmk
      by (intros evs; by destruct (dry_run self)).
    unfold wp in Hspec. rewrite Hres, Hevs.
    destruct (result_of (execute self w)) as [[s|]|code];
      cbn [execute_post stages_post first_failure ran process_status]
        in Hspec, Hff |- *; split.
    + intros Hne. by destruct Hspec as [-> _].
    + intros _. split; [done|]. left.
      destruct Hff as (pre & cmd & m & -> & Hpre & Hz & Hf).
      exists s, ((if dry_run self then []
                  else [EvMakedirs (output_dir self)]) ++ pre), cmd, m.
      split_and!; [done | by rewrite app_assoc | by rewrite Hmk | | done].
      by destruct (dry_run self).
    + intros Hne. by destruct Hspec as [-> _].
    + intros _. split; [done|]. right.
      destruct Hspec as (_ & (prx & burp & Hl) & Hw).
      split_and!; [done | by rewrite Hmk | eexists _, _; by apply last_app_r |].
      intros Hdry. destruct (Hw Hdry) as [[d1 H1] [d2 H2]].
      split; eexists; apply elem_of_app; right; eassumption.
    + intros Hne. destruct Hspec as (-> & _ & Hall).
      destruct (check_tools_exit w missing Hm Hne) as [Hct Hce].
      rewrite (execute_exit self w 1 Hct). proj_cbn.
      rewrite (execute_exit self w 1 Hct) in Hall, Hff.
      cbn [events_of snd] in Hall, Hff.
      split_and!; [done | done | |].
      * intros step cmd [Hin | Hin]%elem_of_app.
        -- destruct (dry_run self); [by apply elem_of_nil in Hin|].
           by apply list_elem_of_singleton in Hin.
        -- rewrite Forall_forall in Hff. by specialize (Hff _ Hin).
      * apply last_app_r. rewrite Hce. by rewrite last_cons, last_snoc.
    + intros ->. by destruct Hspec as (_ & Hne & _).
  - intros pre step cmd post Hev Hfail.
    destruct (main_failed_run self w pre step cmd post Hev Hfail)
      as (_ & Hm & ->).
    by split_and!.
Qed.


End RunOutcomes.

End Properties.

(** * The properties on the sample machine *)

Lemma consolidated_urls_sorted_unique_witness :
  dry_run sample_self = false
  ∧ ∃ content,
      files (world_of (create_burp_file (Env := unit) sample_self sample_final))
        !! burp_file sample_self = Some content
      ∧ content = write_lines (artifact_lines content)
      ∧ NoDup (artifact_lines content)
      ∧ StronglySorted str_lt (artifact_lines content)
      ∧ ∀ u, u ∈ artifact_lines content ↔
             kept_from_httpx (files sample_final !! httpx_file sample_self) u
             ∨ kept_from_katana (files sample_final !! katana_file sample_self)
                 u.
Proof.
  split; [reflexivity|].
  apply (consolidated_urls_sorted_unique sample_self sample_final).
  reflexivity.
Defined.

(** The consolidated artifact of the sample run: the URL found by both
    tools appears once, and [http://] sorts before [https://]. *)
Example sample_burp_file :
  artifact_lines <$> (files sample_final !! burp_file sample_self)
  = Some [lit "http://b.example"; lit "https://a.example";
          lit "https://a.example/login"].
Proof. by vm_compute. Qed.

Lemma burp_file_always_written_witness :
  dry_run sample_self = false
  ∧ ∃ content,
      files (world_of (create_burp_file (Env := unit) sample_self sample_world))
        !! burp_file sample_self = Some content
      ∧ result_of (create_burp_file (Env := unit) sample_self sample_world)
        = Ret (Some (burp_file sample_self, length (artifact_lines content)))
      ∧ EvOpen (burp_file sample_self) ModeW content
          ∈ events_of (create_burp_file (Env := unit) sample_self sample_world)
      ∧ (∀ p, p ≠ burp_file sample_self →
              files (world_of (create_burp_file (Env := unit) sample_self
                  sample_world))
                !! p = files sample_world !! p)
      ∧ (∀ w2,
           files w2 !! httpx_file sample_self
             = files sample_world !! httpx_file sample_self →
           files w2 !! katana_file sample_self
             = files sample_world !! katana_file sample_self →
           files (world_of (create_burp_file (Env := unit) sample_self w2))
             !! burp_file sample_self = Some content)
      ∧ (files sample_world !! httpx_file sample_self = None →
         files sample_world !! katana_file sample_self = None →
         content = [] ∧ length (artifact_lines content) = 0%nat).
Proof.
  split; [reflexivity|].
  apply (burp_file_always_written sample_self sample_world).
  reflexivity.
Defined.

Lemma stage_output_exists_witness :
  dry_run sample_self = false
  ∧ subfinder_out sample_self ≠ []
  ∧ spawn (Host := sample_host) (cmd_sub sample_self (lit "/usr/bin/subfinder"))
      sample_world
    = (Exited 0 (lit "www.example.com" ++ [LF]) [], sample_world)
  ∧ result_of (run_command (host := sample_host) sample_self
                 (cmd_sub sample_self (lit "/usr/bin/subfinder")) Subfinder
                 (Some (subfinder_out sample_self)) false sample_world)
    = Ret true
  ∧ files (world_of (run_command (host := sample_host) sample_self
                       (cmd_sub sample_self (lit "/usr/bin/subfinder"))
                       Subfinder (Some (subfinder_out sample_self)) false
                       sample_world))
      !! subfinder_out sample_self
    = Some ((if false then default [] (files sample_world
                                         !! subfinder_out sample_self)
             else [])
            ++ stage_text (lit "www.example.com" ++ [LF]))
  ∧ (strip (lit "www.example.com" ++ [LF]) = [] → false = false →
     files (world_of (run_command (host := sample_host) sample_self
                        (cmd_sub sample_self (lit "/usr/bin/subfinder"))
                        Subfinder (Some (subfinder_out sample_self)) false
                        sample_world))
       !! subfinder_out sample_self = Some []).
Proof.
  split; [reflexivity|]. split; [discriminate|]. split; [reflexivity|].
  apply (stage_output_exists (host := sample_host) sample_self
           (cmd_sub sample_self (lit "/usr/bin/subfinder")) Subfinder
           (subfinder_out sample_self) false sample_world
           (lit "www.example.com" ++ [LF]) [] sample_world);
    [reflexivity | discriminate | reflexivity].
Defined.

(** A tool that prints nothing still leaves its output file, empty. *)
Example sample_empty_output :
  files (world_of (run_command (host := sample_host) sample_self
                     (cmd_dnsx sample_self (lit "/usr/bin/dnsx")) DNSx
                     (Some (dnsx_out sample_self)) false sample_world))
    !! dnsx_out sample_self = Some [].
Proof. by vm_compute. Qed.

Lemma summary_counts_witness :
  (dry_run sample_self = false)
  ∧ (∃ summary,
    files (world_of (generate_summary (host := sample_host) sample_self
        sample_final))
      !! path_join (output_dir sample_self) (lit "summary.json")
      = Some (json_dump_summary summary)
    ∧ target summary = py_or (domain sample_self) (domain_list sample_self)
    ∧ stats summary
      = [(lit "subdomains", raw_line_count sample_self sample_final (lit
          "subfinder.txt"));
         (lit "resolved", raw_line_count sample_self sample_final (lit
             "dnsx.txt"));
         (lit "ports", raw_line_count sample_self sample_final (lit
             "naabu.txt"));
         (lit "http_services", raw_line_count sample_self sample_final (lit
             "httpx.txt"));
         (lit "endpoints", raw_line_count sample_self sample_final (lit
             "katana.txt"));
         (lit "burp_import",
          raw_line_count sample_self sample_final (lit "urls_for_burp.txt"))]
    ∧ (∀ filename,
         raw_line_count sample_self sample_final filename
         = match files sample_final !! path_join (output_dir sample_self)
             filename with
           | Some content => length (readlines content)
           | None => 0%nat
           end)
    ∧ (∀ filename content,
         files sample_final !! path_join (output_dir sample_self) filename =
             Some content →
         raw_line_count sample_self sample_final filename
         = (nonblank_count (readlines content)
            + length (filter (λ line, ¬ truthy (strip line))
                        (readlines content)))%nat)
    ∧ (∀ key n,
         (key, n) ∈ stats summary →
         contains (json_dump_summary summary)
           ([34] ++ key ++ [34] ++ lit ": " ++ repr_nat n) = true)
    ∧ (∀ path,
         path ≠ path_join (output_dir sample_self) (lit "summary.json") →
         files (world_of (generate_summary (host := sample_host) sample_self
             sample_final)) !! path
         = files sample_final !! path)).
Proof.
  split; [reflexivity|].
  apply (summary_counts (host := sample_host) sample_self sample_final).
  reflexivity.
Defined.

(** The summary of the sample run, as written: one subdomain, three lines
    of the crawl artifact and three URLs for Burp. *)
Example sample_summary_text :
  (λ text,
     [contains text ([34] ++ lit "subdomains" ++ [34] ++ lit ": 1");
      contains text ([34] ++ lit "endpoints" ++ [34] ++ lit ": 3");
      contains text ([34] ++ lit "burp_import" ++ [34] ++ lit ": 3")])
    <$> (files sample_final !! path_join (lit "out") (lit "summary.json"))
  = Some [true; true; true].
Proof. by vm_compute. Qed.

(** The crawl artifact of the sample run has three lines, one of them
    blank: the summary counts three, the stage runner counted two. *)
Example sample_line_counts :
  raw_line_count (Env := unit) sample_self sample_final (lit "katana.txt") =
      3%nat
  ∧ nonblank_count <$> (readlines <$> files sample_final !! katana_file
      sample_self)
    = Some 2%nat.
Proof. by vm_compute. Qed.

Lemma prompt_bounded_witness :
  (dry_run sample_self = false)
  ∧ ((files crawl_world !! path_join (output_dir sample_self) (lit
      "katana.txt") = None →
   world_of (run_llm_advisory (Env := unit) sample_self crawl_world) =
       crawl_world)
  ∧ ∀ content,
      files crawl_world !! path_join (output_dir sample_self) (lit
          "katana.txt") = Some content →
      let n := nonblank_count (readlines content) in
      (n = 0%nat → world_of (run_llm_advisory (Env := unit) sample_self
          crawl_world) = crawl_world)
      ∧ (n ≠ 0%nat →
         ∃ entries text,
           entries
             = take (200 `min` n)
                 (strip <$> filter (λ line, truthy (strip line))
                              (readlines content))
           ∧ length entries = (200 `min` n)%nat
           ∧ (length entries ≤ 200)%nat
           ∧ entries `sublist_of` (strip <$> readlines content)
           ∧ files (world_of (run_llm_advisory (Env := unit) sample_self
               crawl_world))
               !! path_join (output_dir sample_self) (lit "llm_prompt.txt")
             = Some text
           ∧ text
             = lit "Analyze these URLs and find high-risk endpoints:"
               ++ [LF] ++ lit "[" ++ [LF] ++ lit "  "
               ++ join (lit "," ++ [LF] ++ lit "  ") (map json_string entries)
               ++ [LF] ++ lit "]"
           ∧ (∀ u, u ∈ entries → contains text (json_string u) = true)
           ∧ (∀ u, Forall (λ c, plain_char c = true) u →
                   json_string u = [34] ++ u ++ [34])
           ∧ (∀ path,
                path ≠ path_join (output_dir sample_self) (lit
                    "llm_prompt.txt") →
                files (world_of (run_llm_advisory (Env := unit) sample_self
                    crawl_world)) !! path
                = files crawl_world !! path))).
Proof.
  split; [reflexivity|].
  apply (prompt_bounded sample_self crawl_world).
  reflexivity.
Defined.

(** The crawl artifact of the large site has 500 lines, 250 of them
    blank: the prompt holds the first 200 URLs, the one numbered 199 and
    not the one numbered 200. *)
Example capped_prompt :
  length (readlines crawl_text) = 500%nat
  ∧ nonblank_count (readlines crawl_text) = 250%nat
  ∧ (λ text, (contains text (json_string (lit "https://a.example/p199")),
              contains text (json_string (lit "https://a.example/p200"))))
      <$> (files (world_of (run_llm_advisory (Env := unit) sample_self
                              crawl_world))
             !! path_join (lit "out") (lit "llm_prompt.txt"))
    = Some (true, false).
Proof. by vm_compute. Qed.

Lemma short_circuit_witness :
  (events_of (main (host := failing_host) sample_self sample_world) =
      failed_run_before ++ EvRun DNSx (cmd_dnsx sample_self (lit
      "/usr/bin/dnsx")) :: [EvPrint (MsgError DNSx (lit "boom"))])
  ∧ (exited_zero (spawn (Host := failing_host) (cmd_dnsx sample_self (lit
      "/usr/bin/dnsx")) (replay (host := failing_host) sample_world
      failed_run_before)).1 = false)
  ∧ ((∃ m, [EvPrint (MsgError DNSx (lit "boom"))] = [EvPrint m] ∧
      failure_message DNSx m)
  ∧ result_of (main (host := failing_host) sample_self sample_world) = Ret
      (Some (HaltedAt DNSx))
  ∧ process_status (result_of (main (host := failing_host) sample_self
      sample_world)) = 0%Z
  ∧ (∀ step' cmd', EvRun step' cmd' ∈ events_of (main (host := failing_host)
      sample_self sample_world) →
       (stage_index step' ≤ stage_index DNSx)%nat)
  ∧ (∀ s, stage_files sample_self s
          = path_join (output_dir sample_self)
            <$> match s with
                | Subfinder => [lit "subfinder.txt"]
                | DNSx => [lit "dnsx.txt"]
                | Naabu => [lit "naabu.txt"]
                | HTTPx => [lit "httpx.txt"]
                | Katana => [lit "katana_input_clean.txt"; lit "katana.txt"]
                end)
  ∧ post_files sample_self
    = path_join (output_dir sample_self)
      <$> [lit "urls_for_burp.txt"; lit "summary.json"; lit "llm_prompt.txt"]
  ∧ (∀ path mode data, EvOpen path mode data ∈ events_of (main (host :=
      failing_host) sample_self sample_world) →
       (∃ step', (stage_index step' ≤ stage_index DNSx)%nat
                 ∧ path ∈ stage_files sample_self step')
       ∧ (∀ step', (stage_index DNSx < stage_index step')%nat →
                   path ∉ stage_files sample_self step')
       ∧ path ∉ post_files sample_self)
  ∧ (∀ m, EvPrint m ∈ events_of (main (host := failing_host) sample_self
      sample_world) →
       is_post_message m = false
       ∧ ∀ step', msg_stage m = Some step' →
                  (stage_index step' ≤ stage_index DNSx)%nat)
  ∧ (∀ path,
       (∀ step', (stage_index step' ≤ stage_index DNSx)%nat →
                 path ∉ stage_files sample_self step') →
       (∀ cmd' w0, files (spawn (Host := failing_host) cmd' w0).2 !! path =
           files w0 !! path) →
       files (world_of (main (host := failing_host) sample_self sample_world))
           !! path = files sample_world !! path)).
Proof.
  split; [by vm_compute|]. split; [by vm_compute|].
  apply (short_circuit (host := failing_host) sample_self sample_world
           failed_run_before DNSx (cmd_dnsx sample_self (lit "/usr/bin/dnsx"))
           [EvPrint (MsgError DNSx (lit "boom"))]);
    by vm_compute.
Defined.

(** After the failure of dnsx only the subdomains artifact exists in the
    output directory. *)
Example failed_run_files :
  (λ name, bool_decide (is_Some (files (world_of failed_run)
                                   !! path_join (lit "out") name)))
    <$> artifact_names
  = [true; false; false; false; false; false; false; false; false].
Proof. by vm_compute. Qed.


(** Outside dry-run mode a run that is given the empty name for its
    output directory ends by the exception of [os.makedirs], before the
    check of the tools: the process has exit status 1 and nothing was
    done.  The directory [out] of the sample run can be made. *)
Example unnamed_directory_status :
  main (host := sample_host) unnamed_self sample_world
  = (Ret None, sample_world, [])
  ∧ process_status
      (result_of (main (host := sample_host) unnamed_self sample_world))
    = 1%Z
  ∧ directory_ready (host := sample_host) sample_self sample_world = true.
Proof. by vm_compute. Qed.

(** In dry-run mode the sample machine is left as it was, and the first
    stage reports its command. *)
Example sample_dry_run :
  world_of (main (host := sample_host)
              sample_dry_self sample_world) = sample_world
  ∧ head (omap dry_run_report
            (events_of (main (host := sample_host) sample_dry_self
                sample_world)))
    = Some (Subfinder,
            lit "/usr/bin/subfinder -all -o out/subfinder.txt -d example.com").
Proof. by vm_compute. Qed.

(** *** Further properties on the sample machine *)

Lemma root_domain_check_settles_witness :
  domain sample_self = Some (lit "example.com")
  ∧ lit "example.com" ≠ []
  ∧ (CR ∉ lit "example.com")
  ∧ dry_run sample_self = false
  ∧ files foreign_world !! subfinder_out sample_self
    = Some (lit "api.example.org" ++ [LF])
  ∧ ∃ content1,
      files (world_of (ensure_root_domain (Env := unit) sample_self
                         foreign_world))
        !! subfinder_out sample_self = Some content1
      ∧ (content1 = lit "api.example.org" ++ [LF]
         ∨ content1 = (lit "api.example.org" ++ [LF])
                      ++ [LF] ++ lit "example.com" ++ [LF])
      ∧ contains (universal_newlines content1) (lit "example.com") = true
      ∧ ensure_root_domain sample_self
          (world_of (ensure_root_domain (Env := unit) sample_self
                       foreign_world))
        = (Ret tt,
           world_of (ensure_root_domain (Env := unit) sample_self
                       foreign_world),
           [EvOpen (subfinder_out sample_self) ModeAPlus []]).
Proof.
  assert (CR ∉ lit "example.com") as Hcr
    by (apply (bool_decide_unpack _); vm_compute; exact I).
  split; [reflexivity|]. split; [by vm_compute|]. split; [exact Hcr|].
  split; [reflexivity|]. split; [reflexivity|].
  apply (root_domain_check_settles sample_self foreign_world
           (lit "example.com") (lit "api.example.org" ++ [LF]));
    [reflexivity | by vm_compute | exact Hcr | reflexivity | reflexivity].
Defined.

Lemma root_domain_appended_last_witness :
  domain sample_self = Some (lit "example.com")
  ∧ lit "example.com" ≠ []
  ∧ (LF ∉ lit "example.com")
  ∧ (CR ∉ lit "example.com")
  ∧ dry_run sample_self = false
  ∧ files foreign_world !! subfinder_out sample_self
    = Some (lit "api.example.org" ++ [LF])
  ∧ contains (universal_newlines (lit "api.example.org" ++ [LF]))
      (lit "example.com") = false
  ∧ files (world_of (ensure_root_domain (Env := unit) sample_self
                       foreign_world))
      !! subfinder_out sample_self
    = Some ((lit "api.example.org" ++ [LF])
            ++ [LF] ++ lit "example.com" ++ [LF])
  ∧ last (artifact_lines ((lit "api.example.org" ++ [LF])
                          ++ [LF] ++ lit "example.com" ++ [LF]))
    = Some (lit "example.com")
  ∧ (lit "api.example.org" ++ [LF] = []
     ∨ last (lit "api.example.org" ++ [LF]) = Some LF →
     artifact_lines ((lit "api.example.org" ++ [LF])
                     ++ [LF] ++ lit "example.com" ++ [LF])
     = artifact_lines (lit "api.example.org" ++ [LF])
       ++ [[]; lit "example.com"]).
Proof.
  assert (LF ∉ lit "example.com") as Hlf
    by (apply (bool_decide_unpack _); vm_compute; exact I).
  assert (CR ∉ lit "example.com") as Hcr
    by (apply (bool_decide_unpack _); vm_compute; exact I).
  split; [reflexivity|]. split; [by vm_compute|]. split; [exact Hlf|].
  split; [exact Hcr|]. split; [reflexivity|]. split; [reflexivity|].
  split; [reflexivity|].
  apply (root_domain_appended_last sample_self foreign_world
           (lit "example.com") (lit "api.example.org" ++ [LF]));
    [reflexivity | by vm_compute | exact Hlf | exact Hcr | reflexivity
    | reflexivity | reflexivity].
Defined.

(** The blank line before the appended domain: the artifact has three
    lines, two of them not blank. *)
Example foreign_world_lines :
  artifact_lines <$>
    (files (world_of (ensure_root_domain (Env := unit) sample_self
                        foreign_world)) !! subfinder_out sample_self)
  = Some [lit "api.example.org"; []; lit "example.com"].
Proof. by vm_compute. Qed.

Lemma stage_failure_writes_nothing_witness :
  dry_run sample_self = false
  ∧ exited_zero
      (spawn (Host := failing_host) (cmd_dnsx sample_self (lit "/usr/bin/dnsx"))
         sample_world).1 = false
  ∧ result_of (run_command (host := failing_host) sample_self
                 (cmd_dnsx sample_self (lit "/usr/bin/dnsx")) DNSx
                 (Some (dnsx_out sample_self)) false sample_world)
    = Ret false
  ∧ world_of (run_command (host := failing_host) sample_self
                (cmd_dnsx sample_self (lit "/usr/bin/dnsx")) DNSx
                (Some (dnsx_out sample_self)) false sample_world)
    = (spawn (Host := failing_host) (cmd_dnsx sample_self (lit "/usr/bin/dnsx"))
         sample_world).2
  ∧ events_of (run_command (host := failing_host) sample_self
                 (cmd_dnsx sample_self (lit "/usr/bin/dnsx")) DNSx
                 (Some (dnsx_out sample_self)) false sample_world)
    = [EvPrint (MsgRunning DNSx);
       EvRun DNSx (cmd_dnsx sample_self (lit "/usr/bin/dnsx"));
       EvPrint (failure_report DNSx
                  (cmd_dnsx sample_self (lit "/usr/bin/dnsx"))
                  (spawn (Host := failing_host)
                     (cmd_dnsx sample_self (lit "/usr/bin/dnsx"))
                     sample_world).1)]
  ∧ (∀ stdout stderr returncode command0 args,
       (spawn (Host := failing_host)
          (cmd_dnsx sample_self (lit "/usr/bin/dnsx")) sample_world).1
       = Exited returncode stdout stderr →
       cmd_dnsx sample_self (lit "/usr/bin/dnsx") = command0 :: args →
       failure_report DNSx (cmd_dnsx sample_self (lit "/usr/bin/dnsx"))
         (spawn (Host := failing_host)
            (cmd_dnsx sample_self (lit "/usr/bin/dnsx")) sample_world).1
       = if contains command0 (lit "httpx")
            && contains stderr (lit "No such option")
         then MsgVersionConflict else MsgError DNSx stderr).
Proof.
  split; [reflexivity|]. split; [reflexivity|].
  apply (stage_failure_writes_nothing (host := failing_host) sample_self
           (cmd_dnsx sample_self (lit "/usr/bin/dnsx")) DNSx
           (Some (dnsx_out sample_self)) false sample_world);
    reflexivity.
Defined.


(** The tools of the sample run, in the order they were started. *)
Example sample_stage_order :
  fst <$> omap stage_run
            (events_of (execute (host := sample_host) sample_self sample_world))
  = [Subfinder; DNSx; Naabu; HTTPx; Katana]
  ∧ fst <$> omap stage_run (events_of failed_run) = [Subfinder; DNSx].
Proof. by vm_compute. Qed.

Lemma halts_at_first_failure_witness :
  dry_run sample_self = false
  ∧ match result_of (execute (host := failing_host) sample_self sample_world)
    with
    | Ret Finished =>
        tools_succeeded (host := failing_host) sample_world
          (events_of (execute (host := failing_host) sample_self sample_world))
        = true
    | Ret (HaltedAt s) =>
        ∃ pre cmd m,
          events_of (execute (host := failing_host) sample_self sample_world)
            = pre ++ [EvRun s cmd; EvPrint m]
          ∧ tools_succeeded (host := failing_host) sample_world pre = true
          ∧ exited_zero
              (spawn (Host := failing_host) cmd
                 (replay (host := failing_host) sample_world pre)).1 = false
          ∧ failure_message s m
    | Exit _ =>
        Forall (λ ev, stage_run ev = None)
          (events_of (execute (host := failing_host) sample_self sample_world))
    end.
Proof.
  split; [reflexivity|].
  apply (halts_at_first_failure (host := failing_host) sample_self
           sample_world).
  reflexivity.
Defined.

Lemma finished_run_artifacts_witness :
  (dry_run sample_self = false)
  ∧ (result_of (execute (host := sample_host) sample_self sample_world) = Ret
      Finished)
  ∧ (∃ urls summary prx,
    files (world_of (execute (host := sample_host) sample_self sample_world))
        !! path_join (output_dir sample_self) (lit "urls_for_burp.txt")
      = Some (write_lines urls)
    ∧ artifact_lines (write_lines urls) = urls
    ∧ files (world_of (execute (host := sample_host) sample_self sample_world))
        !! path_join (output_dir sample_self) (lit "summary.json")
      = Some (json_dump_summary summary)
    ∧ stats summary
      = [(lit "subdomains",
          raw_line_count sample_self (world_of (execute (host := sample_host)
              sample_self sample_world))
            (lit "subfinder.txt"));
         (lit "resolved",
          raw_line_count sample_self (world_of (execute (host := sample_host)
              sample_self sample_world)) (lit "dnsx.txt"));
         (lit "ports",
          raw_line_count sample_self (world_of (execute (host := sample_host)
              sample_self sample_world)) (lit "naabu.txt"));
         (lit "http_services",
          raw_line_count sample_self (world_of (execute (host := sample_host)
              sample_self sample_world)) (lit "httpx.txt"));
         (lit "endpoints",
          raw_line_count sample_self (world_of (execute (host := sample_host)
              sample_self sample_world)) (lit "katana.txt"));
         (lit "burp_import", length urls)]
    ∧ raw_line_count sample_self (world_of (execute (host := sample_host)
        sample_self sample_world))
        (lit "urls_for_burp.txt") = length urls
    ∧ contains (json_dump_summary summary)
        ([34] ++ lit "burp_import" ++ [34] ++ lit ": "
         ++ repr_nat (length urls)) = true
    ∧ last (events_of (execute (host := sample_host) sample_self sample_world))
      = Some (EvPrint (MsgDone prx (Some (path_join (output_dir sample_self)
          (lit "urls_for_burp.txt"),
                        length urls))))).
Proof.
  split; [reflexivity|]. split; [by vm_compute|].
  apply (finished_run_artifacts (host := sample_host) sample_self
           sample_world); [reflexivity | by vm_compute].
Defined.

Lemma tool_check_failure_witness :
  result_of (main (host := sample_host) sample_self bare_world) = Exit 1
  ∧ 1%Z = 1%Z
  ∧ (∃ missing,
       result_of (missing_tools (host := sample_host) REQUIRED_TOOLS bare_world)
         = Ret missing
       ∧ missing ≠ []
       ∧ missing `sublist_of` REQUIRED_TOOLS
       ∧ last (events_of (main (host := sample_host) sample_self bare_world))
         = Some (EvPrint (MsgMissingTools missing)))
  ∧ Forall (check_failure_event sample_self)
      (events_of (main (host := sample_host) sample_self bare_world))
  ∧ (dry_run sample_self = false →
     head (events_of (main (host := sample_host) sample_self bare_world))
     = Some (EvMakedirs (output_dir sample_self))).
Proof.
  split; [by vm_compute|].
  apply (tool_check_failure (host := sample_host) sample_self bare_world 1).
  by vm_compute.
Defined.

Lemma binary_path_resolution_witness :
  lit "subfinder" ≠ lit "httpx"
  ∧ get_binary_path (host := sample_host) (lit "subfinder") sample_world
    = (Ret (match list_find
                    (λ p, is_Some
                            (files (spawn (Host := sample_host)
                                      [lit "go"; lit "env"; lit "GOBIN"]
                                      sample_world).2 !! p))
                    (candidate_paths (host := sample_host)
                       (spawn (Host := sample_host)
                          [lit "go"; lit "env"; lit "GOBIN"] sample_world).1
                       (lit "subfinder"))
            with
            | Some (_, p) => p
            | None =>
                path_fallback (host := sample_host) (lit "subfinder")
                  (spawn (Host := sample_host)
                     [lit "go"; lit "env"; lit "GOBIN"] sample_world).2
            end),
       (spawn (Host := sample_host) [lit "go"; lit "env"; lit "GOBIN"]
          sample_world).2,
       [EvProbe [lit "go"; lit "env"; lit "GOBIN"]]).
Proof.
  assert (lit "subfinder" ≠ lit "httpx") as Hne by by vm_compute.
  split; [exact Hne|].
  apply (binary_path_resolution (host := sample_host) (lit "subfinder")
           sample_world Hne).
Defined.

(** On the sample machine the tools are found under [/usr/bin], the last
    of the candidates. *)
Example sample_binary_paths :
  result_of (get_binary_path (host := sample_host) (lit "subfinder")
               sample_world) = Ret (lit "/usr/bin/subfinder")
  ∧ result_of (get_binary_path (host := sample_host) (lit "httpx")
                 sample_world) = Ret (lit "/usr/bin/httpx")
  ∧ result_of (get_binary_path (host := sample_host) (lit "httpx")
                 bare_world) = Ret (lit "httpx").
Proof. by vm_compute. Qed.

Lemma stage_count_nonblank_witness :
  dry_run sample_self = false
  ∧ katana_file sample_self ≠ []
  ∧ spawn (Host := sample_host)
      (cmd_katana sample_self (lit "/usr/bin/katana")
         (katana_input_clean sample_self)) sample_world
    = (Exited 0 (lit "https://a.example/login" ++ [LF] ++ [LF]
                 ++ lit "https://a.example" ++ [LF]) [], sample_world)
  ∧ last (events_of
            (run_command (host := sample_host) sample_self
               (cmd_katana sample_self (lit "/usr/bin/katana")
                  (katana_input_clean sample_self))
               Katana (Some (katana_file sample_self)) false sample_world))
    = Some (EvPrint
              (MsgCompleted Katana
                 (nonblank_count
                    (readlines (lit "https://a.example/login" ++ [LF] ++ [LF]
                                ++ lit "https://a.example" ++ [LF])))))
  ∧ (nonblank_count <$> (readlines <$>
       files (world_of
                (run_command (host := sample_host) sample_self
                   (cmd_katana sample_self (lit "/usr/bin/katana")
                      (katana_input_clean sample_self))
                   Katana (Some (katana_file sample_self)) false sample_world))
         !! katana_file sample_self))
    = Some (nonblank_count
              (readlines (lit "https://a.example/login" ++ [LF] ++ [LF]
                          ++ lit "https://a.example" ++ [LF]))).
Proof.
  split; [reflexivity|]. split; [discriminate|]. split; [reflexivity|].
  apply (stage_count_nonblank (host := sample_host) sample_self
           (cmd_katana sample_self (lit "/usr/bin/katana")
              (katana_input_clean sample_self))
           Katana (katana_file sample_self) sample_world
           (lit "https://a.example/login" ++ [LF] ++ [LF]
            ++ lit "https://a.example" ++ [LF]) [] sample_world);
    [reflexivity | discriminate | reflexivity].
Defined.

(** *** Where the program departs from its specification *)

(** C1.  The tool reports [www.example.com] for the domain [example.com].
    The text of the subdomains artifact then contains the domain, inside
    the name of the subdomain, so nothing is appended: after the stage, and
    at the end of the run, the artifact has the one line
    [www.example.com], and the root domain is not one of its lines. *)
Theorem root_domain_not_a_line :
  domain sample_self = Some (lit "example.com")
  ∧ result_of (main (host := sample_host) sample_self sample_world)
    = Ret (Some Finished)
  ∧ contains (lit "www.example.com" ++ [LF]) (lit "example.com") = true
  ∧ artifact_lines <$> (files sample_final !! subfinder_out sample_self)
    = Some [lit "www.example.com"]
  ∧ bool_decide (lit "example.com" ∈ [lit "www.example.com"]) = false.
Proof. by vm_compute. Qed.

(** C4 as stated fails.  On a line whose annotation follows a tab, the
    leading whitespace-delimited token is the URL, while the program keeps
    the whole line; on a line that starts with a space the token is the
    URL, which begins with [http], while the program takes the empty field
    before that space and keeps nothing. *)
Lemma leading_token_counterexample :
  leading_token (lit "http://a.example" ++ [9] ++ lit "[200]")
    = lit "http://a.example"
  ∧ clean_httpx_line (lit "http://a.example" ++ [9] ++ lit "[200]")
    = lit "http://a.example" ++ [9] ++ lit "[200]"
  ∧ elements (collect_urls
                (Some [lit "http://a.example" ++ [9] ++ lit "[200]" ++ [LF]])
                None)
    = [lit "http://a.example" ++ [9] ++ lit "[200]"]
  ∧ leading_token (lit " https://a.example [200]") = lit "https://a.example"
  ∧ startswith (leading_token (lit " https://a.example [200]")) (lit "http")
    = true
  ∧ clean_httpx_line (lit " https://a.example [200]") = []
  ∧ elements (collect_urls (Some [lit " https://a.example [200]" ++ [LF]]) None)
    = [].
Proof. by vm_compute. Qed.


(** C3 as stated fails.  When dnsx fails the run stops at that stage, and
    nothing tells its outcome from that of a run that finishes: the
    process ends with exit status 0 in both. *)
Lemma short_circuit_counterexample :
  omap stage_run
    (events_of (main (host := failing_host) sample_self sample_world))
  = [(Subfinder, cmd_sub sample_self (lit "/usr/bin/subfinder"));
     (DNSx, cmd_dnsx sample_self (lit "/usr/bin/dnsx"))]
  ∧ exited_zero
      (spawn (Host := failing_host)
         (cmd_dnsx sample_self (lit "/usr/bin/dnsx"))
         (replay (host := failing_host) sample_world failed_run_before)).1
    = false
  ∧ process_status
      (result_of (main (host := failing_host) sample_self sample_world))
    = 0%Z
  ∧ result_of (main (host := sample_host) sample_self sample_world)
    = Ret (Some Finished)
  ∧ process_status
      (result_of (main (host := sample_host) sample_self sample_world))
    = 0%Z.
Proof. by vm_compute. Qed.

(** C6 as stated fails.  When dnsx fails the run stops at that stage, and
    the process ends with exit status 0. *)
Lemma stage_failure_exit_status_counterexample :
  result_of (main (host := failing_host) sample_self sample_world)
  = Ret (Some (HaltedAt DNSx))
  ∧ last (events_of (main (host := failing_host) sample_self sample_world))
    = Some (EvPrint (MsgError DNSx (lit "boom")))
  ∧ process_status (result_of (main (host := failing_host) sample_self
                                 sample_world)) = 0%Z.
Proof. by vm_compute. Qed.
